(** * sesam-deployer: the deployment run and the configuration bundle

    A shallow embedding of [src/deployer.py].  The script reads its
    inputs from the process environment, checks the health of a Sesam
    node and then pushes secrets, environment variables and a zipped
    configuration folder to it.

    Everything outside the script (the environment, the file system,
    the JSON and base64 decoders, the node behind [sesamclient]) is
    gathered in a record [world]; the script itself is a function of
    that record.  Its effects are a log of [event]s and one of three
    outcomes: normal return, a Python exception, or [SystemExit]. *)

From Stdlib Require Import String Ascii List ZArith Bool Arith Lia.
From stdpp Require Import base gmap strings.
Import ListNotations.

Set Warnings "-register-all".

Local Open Scope string_scope.
Local Open Scope list_scope.

(** ** Python [str] methods

    A string is a sequence of code points below 256. *)

Module Str.

Definition code (c : ascii) : nat := nat_of_ascii c.

(** [str.lower] on one character: [A-Z] and the upper-case letters of
    Latin-1 move 32 places up. *)
Definition is_upper (c : ascii) : bool :=
  (Nat.leb 65 (code c) && Nat.leb (code c) 90)
  || (Nat.leb 192 (code c) && Nat.leb (code c) 222 && negb (Nat.eqb (code c) 215)).

Definition lower_char (c : ascii) : ascii :=
  if is_upper c then ascii_of_nat (code c + 32) else c.

Fixpoint lower (s : string) : string :=
  match s with
  | EmptyString => EmptyString
  | String c s' => String (lower_char c) (lower s')
  end.

(** [str.isspace] on one character. *)
Definition isspace (c : ascii) : bool :=
  (Nat.leb 9 (code c) && Nat.leb (code c) 13)
  || (Nat.leb 28 (code c) && Nat.leb (code c) 32)
  || Nat.eqb (code c) 133 || Nat.eqb (code c) 160.

Fixpoint lstrip (s : string) : string :=
  match s with
  | EmptyString => EmptyString
  | String c s' => if isspace c then lstrip s' else s
  end.

Fixpoint rstrip (s : string) : string :=
  match s with
  | EmptyString => EmptyString
  | String c s' =>
      match rstrip s' with
      | EmptyString => if isspace c then EmptyString else String c EmptyString
      | r => String c r
      end
  end.

(** [s.strip()] *)
Definition strip (s : string) : string := rstrip (lstrip s).

(** [s.startswith(p)] and [s.endswith(p)] *)
Definition startswith (s p : string) : bool := String.prefix p s.

Definition endswith (s p : string) : bool :=
  let n := String.length s in
  let k := String.length p in
  Nat.leb k n && String.eqb (String.substring (n - k) k s) p.

(** [s.split(sep)] for a separator of one character. *)
Fixpoint split (sep : ascii) (s : string) : list string :=
  match s with
  | EmptyString => [EmptyString]
  | String c s' =>
      if Ascii.eqb c sep then EmptyString :: split sep s'
      else match split sep s' with
           | [] => [String c EmptyString]
           | h :: t => String c h :: t
           end
  end.

(** The lines of a text file as iteration over the file object yields
    them (universal newlines), without their terminators; the caller
    strips each line, so the terminator is never observed. *)
Fixpoint readlines (s : string) : list string :=
  match s with
  | EmptyString => []
  | String c s' =>
      if Nat.eqb (code c) 10 then EmptyString :: readlines s'
      else if Nat.eqb (code c) 13 then
        match s' with
        | String c' s'' =>
            if Nat.eqb (code c') 10 then EmptyString :: readlines s''
            else EmptyString :: readlines s'
        | EmptyString => [EmptyString]
        end
      else match readlines s' with
           | [] => [String c EmptyString]
           | h :: t => String c h :: t
           end
  end.

(** [s[:n]] and [s[-n:]] *)
Definition take (n : nat) (s : string) : string := String.substring 0 n s.

Definition take_last (n : nat) (s : string) : string :=
  String.substring (String.length s - n) n s.

End Str.

(** ** [os.path] on POSIX *)

Module Path.

Definition sep : ascii := "/"%char.

(** [os.path.join(a, b)] *)
Definition join (a b : string) : string :=
  if Str.startswith b "/" then b
  else if String.eqb a "" || Str.endswith a "/" then a +:+ b
  else a +:+ "/" +:+ b.

(** [os.path.basename(p)]: what follows the last slash. *)
Definition basename (p : string) : string :=
  List.last (Str.split sep p) "".

(** [os.path.normpath] at work on the components of an absolute path,
    with the components kept so far: empty components and [.] are
    dropped, [..] drops the component kept last (and nothing at the
    root). *)
Definition normalise (kept comps : list string) : list string :=
  fold_left
    (fun kept c =>
       if String.eqb c "" || String.eqb c "." then kept
       else if String.eqb c ".." then removelast kept
       else kept ++ [c])
    comps kept.

(** The components of [os.path.abspath(path)] in a process whose
    working directory has the components [cwd]. *)
Definition abs_components (cwd : list string) (path : string) : list string :=
  normalise (if Str.startswith path "/" then [] else cwd) (Str.split sep path).

Fixpoint common_prefix (a b : list string) : list string :=
  match a, b with
  | x :: a', y :: b' => if String.eqb x y then x :: common_prefix a' b' else []
  | _, _ => []
  end.

(** [os.path.relpath(path, start)], for a path that is not empty. *)
Definition relpath (cwd : list string) (path start : string) : string :=
  let start_list := abs_components cwd start in
  let path_list := abs_components cwd path in
  let i := List.length (common_prefix start_list path_list) in
  let rel_list := repeat ".." (List.length start_list - i) ++ skipn i path_list in
  match rel_list with
  | [] => "."
  | _ => String.concat "/" rel_list
  end.

End Path.

(** ** Values exchanged with the outside *)

(** A decoded JSON document, as [json.load] returns it.  The script
    passes documents on and looks into objects only; numbers are kept
    as integers. *)
Inductive json : Type :=
| JNull
| JBool (b : bool)
| JNum (n : Z)
| JStr (s : string)
| JArr (items : list json)
| JObj (members : list (string * json)).

(** Python truthiness of a decoded document (the test [if jwt_data:]). *)
Definition truthy (j : json) : bool :=
  match j with
  | JNull => false
  | JBool b => b
  | JNum n => negb (Z.eqb n 0)
  | JStr s => negb (String.eqb s "")
  | JArr items => match items with [] => false | _ => true end
  | JObj members => match members with [] => false | _ => true end
  end.

Fixpoint assoc {A : Type} (k : string) (l : list (string * A)) : option A :=
  match l with
  | [] => None
  | (k', v) :: l' => if String.eqb k k' then Some v else assoc k l'
  end.

(** The exceptions the script can meet.  All of them derive from
    [Exception]; [SystemExit] does not and is an outcome of its own. *)
Inductive exn : Type :=
| ValueError (msg : string)
| JSONDecodeError (detail : string)
| Base64Error
| FileNotFoundError (msg : string)
| PermissionError (path : string)
| IsADirectoryError (path : string)
| NotADirectoryError (path : string)
| OtherOSError (detail : string)
| TypeError
| AttributeError
| UnboundLocalError (name : string)
| ApiError (detail : string).

(** The classes caught by
    [except (FileNotFoundError, PermissionError, IOError)]. *)
Definition is_os_error (e : exn) : bool :=
  match e with
  | FileNotFoundError _ | PermissionError _ | IsADirectoryError _
  | NotADirectoryError _ | OtherOSError _ => true
  | _ => false
  end.

(** ** The file system *)

(** What a path names once symbolic links are followed: a file,
    readable by the process or not, with its text, or a directory with
    its entries in the order the operating system lists them.  Every
    directory can be searched; whether it can be listed, and whether a
    path is itself a symbolic link, is told by the [world]. *)
Inductive node : Type :=
| File (readable : bool) (data : string)
| Dir (entries : list (string * node)).

(** One member of a zip archive: [zipf.write(path, arcname)]. *)
Record zip_entry : Type := ZipEntry { arcname : string; content : string }.

(** ** The world a run executes in *)

Record world : Type := World {
  (** [os.environ] *)
  environ : gmap string string;
  (** the file system: the directory [/] and, as components below it,
      the working directory of the process *)
  fs_root : node;
  cwd : list string;
  (** whether [zipfile.ZipFile(output_zip, 'w')] can create the archive;
      [inl] is the [OSError] it raises otherwise *)
  zip_create : string -> exn + unit;
  (** whether [os.scandir(path)] may list the directory that [path]
      names *)
  can_list : string -> bool;
  (** [os.path.islink(path)] *)
  os_path_islink : string -> bool;
  (** what [zipf.write(path, ...)] raises for a path that [os.stat]
      finds, if anything: [ValueError] for a time stamp before 1980, an
      [OSError] when the archive cannot be written *)
  zip_write_raises : string -> option exn;
  (** [json.load] / [json.loads]: the document, or the detail of the
      [JSONDecodeError] *)
  json_loads : string -> string + json;
  (** [base64.b64decode]; [None] when it raises *)
  b64decode : string -> option string;
  (** [sesamclient.Connection(...)]: the exception it raises, if any *)
  connect : string -> string -> option exn;
  (** the five operations of the connection: a response or an exception *)
  api_get_health : exn + json;
  api_put_env_vars : json -> exn + json;
  api_post_secrets : json -> exn + json;
  api_put_secrets : json -> exn + json;
  api_upload_config : list zip_entry -> bool -> exn + json
}.

(** ** Effects *)

Inductive level : Type := INFO | ERROR.

(** The log records of the script, one constructor per logging call. *)
Inductive message : Type :=
| Connecting (node_url safe_jwt : string)
| JwtPrincipals (principals : json)
| GetHealthFrom (node_url : string)
| PutEnvTo (node_url : string)
| PostSecretsTo (node_url : string)
| PutSecretsTo (node_url : string)
| PutConfigTo (node_url : string)
| RequiredMissing (var : string)
| CreatingConfigUsing (whitelist_path : string)
| AddedFile (path : string)
| FilesAdded (count : nat)
| ZipFailed (e : exn)
| DeployingSecrets (secrets_file : string)
| DeployingVariables (variables_file : string)
| DeployingConfig (config_folder : string)
| DryRunIs (dry_run : bool)
| ReplaceSecretsIs (replace_secrets : bool)
| UseWhitelistIs (use_whitelist : bool)
| ForceConfigIs (force_config : bool)
| DryRunNoSecrets
| DryRunNoVariables
| DryRunNoConfig
| Result (response : json)
| NodeStatus (status : string) (uptime : option json)
| NodeHealthNotOk
| AnErrorOccurred (e : exn).

(** The requests sent to the node through [sesamclient]. *)
Inductive request : Type :=
| GetHealth
| PutEnvVars (env_vars : json)
| PostSecrets (secrets : json)
| PutSecrets (secrets : json)
| UploadConfig (config : list zip_entry) (force : bool).

Inductive event : Type :=
| Log (lvl : level) (msg : message)
| Call (req : request).

Inductive outcome (A : Type) : Type :=
| Ok (a : A)
| Raise (e : exn)
| Exit (status : Z).

Arguments Ok {A} a.
Arguments Raise {A} e.
Arguments Exit {A} status.

(** A computation: its outcome and the events it produced, in order. *)
Definition M (A : Type) : Type := outcome A * list event.

Definition ret {A : Type} (a : A) : M A := (Ok a, []).

Definition bind {A B : Type} (m : M A) (f : A -> M B) : M B :=
  match m with
  | (Ok a, t) => let '(o, t') := f a in (o, t ++ t')
  | (Raise e, t) => (Raise e, t)
  | (Exit c, t) => (Exit c, t)
  end.

Definition raise {A : Type} (e : exn) : M A := (Raise e, []).

(** [sys.exit(status)] and the builtin [exit(status)] *)
Definition sys_exit {A : Type} (status : Z) : M A := (Exit status, []).

Definition emit (ev : event) : M unit := (Ok tt, [ev]).

Definition logger_info (msg : message) : M unit := emit (Log INFO msg).

(** [logger.error]; [logger.exception] logs at the same level. *)
Definition logger_error (msg : message) : M unit := emit (Log ERROR msg).

(** [try: body  except ...: handler]; the handler decides which
    exceptions it takes and re-raises the others.  [SystemExit] passes
    through. *)
Definition try_except {A : Type} (body : M A) (handler : exn -> M A) : M A :=
  match body with
  | (Raise e, t) => let '(o, t') := handler e in (o, t ++ t')
  | r => r
  end.

(** The result of a library call that may raise. *)
Definition lift {A : Type} (r : exn + A) : M A :=
  match r with
  | inl e => raise e
  | inr a => ret a
  end.

Declare Scope py_scope.
Delimit Scope py_scope with py.
Notation "x <- m ;; k" := (bind m (fun x => k))
  (at level 100, m at next level, right associativity) : py_scope.
Notation "m ;; k" := (bind m (fun _ => k))
  (at level 100, right associativity) : py_scope.
Local Open Scope py_scope.

(** A [for] loop that threads the variables it updates. *)
Fixpoint for_each {A B : Type} (l : list A) (acc : B) (body : B -> A -> M B) : M B :=
  match l with
  | [] => ret acc
  | x :: l' => acc' <- body acc x ;; for_each l' acc' body
  end.

Definition outcome_of {A : Type} (m : M A) : outcome A := fst m.
Definition trace {A : Type} (m : M A) : list event := snd m.

(** ** The script *)

(** Names of the environment variables (lines 12-21). *)
Definition INPUT_NODE : string := "INPUT_NODE".
Definition INPUT_JWT : string := "INPUT_JWT".
Definition INPUT_DRY_RUN : string := "INPUT_DRY_RUN".
Definition INPUT_FORCE_CONFIG : string := "INPUT_FORCE_CONFIG".
Definition INPUT_REPLACE_SECRETS : string := "INPUT_REPLACE_SECRETS".
Definition INPUT_SECRETS_FILE : string := "INPUT_SECRETS_FILE".
Definition INPUT_VARIABLES_FILE : string := "INPUT_VARIABLES_FILE".
Definition INPUT_USE_WHITELIST : string := "INPUT_USE_WHITELIST".
Definition INPUT_CONFIG_FOLDER : string := "INPUT_CONFIG_FOLDER".
Definition INPUT_WRITE_SUMMARY : string := "INPUT_WRITE_SUMMARY".

Definition NODE_METADATA : string := "node-metadata.conf.json".
Definition CONF_SUFFIX : string := "conf.json".

(** [parse_bool_env] (lines 112-119) *)
Definition parse_bool_env (env_value : option string) (default : bool) : bool :=
  match env_value with
  | Some v =>
      let v := Str.lower v in
      if existsb (String.eqb v) ["true"; "1"; "yes"] then true
      else if existsb (String.eqb v) ["false"; "0"; "no"] then false
      else default
  | None => default
  end.

(** The value an [if x:] test lets through when [x] is a string or
    [None]: a string that is not empty. *)
Definition present (o : option string) : option string :=
  match o with
  | Some s => if String.eqb s "" then None else Some s
  | None => None
  end.

(** [str(x)] inside an f-string, for a string or [None]. *)
Definition format_opt (o : option string) : string :=
  match o with
  | Some s => s
  | None => "None"
  end.

(** [d.get(key)] and [d.keys()]; on a document that is no object they
    raise [AttributeError]. *)
Definition dict_get (d : json) (key : string) : M (option json) :=
  match d with
  | JObj members => ret (assoc key members)
  | _ => raise AttributeError
  end.

Definition dict_keys (d : json) : M (list string) :=
  match d with
  | JObj members => ret (map fst members)
  | _ => raise AttributeError
  end.

(** The test [node_health.get('status') == 'ok']. *)
Definition status_is_ok (status : option json) : bool :=
  match status with
  | Some (JStr s) => String.eqb s "ok"
  | _ => false
  end.

(** The directory tree below a folder. *)

Definition is_dir (n : node) : bool :=
  match n with Dir _ => true | File _ _ => false end.

(** What [os.walk] yields for one directory: its path, the names of
    its sub-directories and the names of its other entries. *)
Record walk_item : Type := WalkItem {
  wi_root : string;
  wi_dirs : list string;
  wi_files : list string
}.

(** [os.walk(top)], top down, from the node that [top] names, with
    [onerror] and [followlinks] left at their defaults.  A path that
    names no directory, or a directory that cannot be listed, yields
    nothing: the error of [os.scandir] is dropped.  A sub-directory is
    named among the directories of its parent, but the walk does not
    go into one that is a symbolic link. *)
Fixpoint walk_node (w : world) (root : string) (n : node) : list walk_item :=
  match n with
  | File _ _ => []
  | Dir entries =>
      if can_list w root then
        WalkItem root
          (map fst (List.filter (fun e => is_dir (snd e)) entries))
          (map fst (List.filter (fun e => negb (is_dir (snd e))) entries))
        :: (fix below (es : list (string * node)) : list walk_item :=
              match es with
              | [] => []
              | (name, child) :: es' =>
                  (if is_dir child && negb (os_path_islink w (Path.join root name))
                   then walk_node w (Path.join root name) child
                   else [])
                  ++ below es'
              end) entries
      else []
  end.

(** Path resolution, one component at a time.  The position is the
    node reached, followed by the directories above it up to the
    root.  A component below a file, or one that names no entry,
    leads nowhere; [..] at the root stays at the root. *)
Definition descend (position : list node) (c : string) : option (list node) :=
  match position with
  | [] => None
  | File _ _ :: _ => None
  | Dir entries :: above =>
      if String.eqb c "" || String.eqb c "." then Some position
      else if String.eqb c ".." then
        match above with
        | [] => Some position
        | _ => Some above
        end
      else match assoc c entries with
           | Some child => Some (child :: position)
           | None => None
           end
  end.

Definition resolve (start : option (list node)) (comps : list string)
    : option (list node) :=
  fold_left
    (fun reached c =>
       match reached with
       | Some position => descend position c
       | None => None
       end)
    comps start.

(** Whether the resolution stops at a file that a further component
    takes for a directory ([ENOTDIR]), rather than at a name without
    an entry ([ENOENT]). *)
Fixpoint stops_at_file (reached : option (list node)) (comps : list string) : bool :=
  match comps, reached with
  | _ :: _, Some (File _ _ :: _) => true
  | c :: comps', Some position => stops_at_file (descend position c) comps'
  | _, _ => false
  end.

Section Deployer.

Variable w : world.

(** Where a path leads: from the root when it starts with a slash,
    else from the working directory.  The empty path leads nowhere. *)
Definition locate (path : string) : option (list node) :=
  if String.eqb path "" then None
  else
    resolve
      (if Str.startswith path "/" then Some [fs_root w]
       else resolve (Some [fs_root w]) (cwd w))
      (Str.split Path.sep path).

(** What a path names. *)
Definition os_stat (path : string) : option node :=
  match locate path with
  | Some (n :: _) => Some n
  | _ => None
  end.

(** [os.path.exists(path)] *)
Definition os_path_exists (path : string) : bool :=
  match os_stat path with Some _ => true | None => false end.

(** [os.path.relpath(path, start)] in this process. *)
Definition os_path_relpath (path start : string) : string :=
  Path.relpath (cwd w) path start.

Definition os_walk (top : string) : list walk_item :=
  match os_stat top with
  | Some n => walk_node w top n
  | None => []
  end.

(** The error of the operating system for a path that names nothing:
    [NotADirectoryError] when the path runs through a regular file,
    else [FileNotFoundError]. *)
Definition stat_error (path : string) : exn :=
  if negb (String.eqb path "")
     && stops_at_file
          (if Str.startswith path "/" then Some [fs_root w]
           else resolve (Some [fs_root w]) (cwd w))
          (Str.split Path.sep path)
  then NotADirectoryError path
  else FileNotFoundError path.

(** [open(path)] for reading, then reading it whole. *)
Definition open_read (path : string) : M string :=
  match os_stat path with
  | None => raise (stat_error path)
  | Some (Dir _) => raise (IsADirectoryError path)
  | Some (File false _) => raise (PermissionError path)
  | Some (File true data) => ret data
  end.

(** [zipf.write(path, arcname)]: [os.stat] first, then the header of
    the entry and the copy of the file; a directory becomes an entry
    whose name ends in a slash. *)
Definition zip_write (zipf : list zip_entry) (path arc : string) : M (list zip_entry) :=
  match os_stat path with
  | None => raise (stat_error path)
  | Some target =>
      match zip_write_raises w path with
      | Some e => raise e
      | None =>
          match target with
          | Dir _ => ret (zipf ++ [ZipEntry (arc +:+ "/") ""])
          | File false _ => raise (PermissionError path)
          | File true data => ret (zipf ++ [ZipEntry arc data])
          end
      end
  end.

(** The class [SesamNode] (lines 50-98). *)
Record SesamNode : Type := {
  node_url : string;
  jwt_token : string;
  subscription_id : option string
}.

Definition SesamNode_init (url : string) (token : option string) : M SesamNode :=
  match token with
  | None => raise AttributeError
  | Some jwt =>
      match Str.split "."%char jwt with
      | [_; payload; _] =>
          decoded <- match b64decode w (payload +:+ "==") with
                     | Some d => ret d
                     | None => raise Base64Error
                     end ;;
          jwt_data <- match json_loads w decoded with
                      | inr j => ret j
                      | inl detail => raise (JSONDecodeError detail)
                      end ;;
          found <- (if truthy jwt_data then
                      principals <- dict_get jwt_data "principals" ;;
                      let principals := default (JObj []) principals in
                      subscriptions <- dict_keys principals ;;
                      ret (Some principals, head subscriptions)
                    else ret (None, None)) ;;
          let safe_jwt := Str.take 10 jwt +:+ "*********" +:+ Str.take_last 10 jwt in
          logger_info (Connecting url safe_jwt) ;;
          principals <- match fst found with
                        | Some p => ret p
                        | None => raise (UnboundLocalError "principals")
                        end ;;
          logger_info (JwtPrincipals principals) ;;
          match connect w url jwt with
          | Some e => raise e
          | None => ret tt
          end ;;
          ret {| node_url := url; jwt_token := jwt; subscription_id := snd found |}
      | [_] => raise (ValueError "not enough values to unpack (expected 3, got 1)")
      | [_; _] => raise (ValueError "not enough values to unpack (expected 3, got 2)")
      | _ => raise (ValueError "too many values to unpack (expected 3)")
      end
  end.

Definition get_health (self : SesamNode) : M json :=
  logger_info (GetHealthFrom (node_url self)) ;;
  emit (Call GetHealth) ;;
  lift (api_get_health w).

Definition put_env (self : SesamNode) (env_vars : json) : M json :=
  logger_info (PutEnvTo (node_url self)) ;;
  emit (Call (PutEnvVars env_vars)) ;;
  lift (api_put_env_vars w env_vars).

Definition post_secrets (self : SesamNode) (secrets : json) : M json :=
  logger_info (PostSecretsTo (node_url self)) ;;
  emit (Call (PostSecrets secrets)) ;;
  lift (api_post_secrets w secrets).

Definition put_secrets (self : SesamNode) (secrets : json) : M json :=
  logger_info (PutSecretsTo (node_url self)) ;;
  emit (Call (PutSecrets secrets)) ;;
  lift (api_put_secrets w secrets).

Definition put_config (self : SesamNode) (config : list zip_entry) (force : bool) : M json :=
  logger_info (PutConfigTo (node_url self)) ;;
  emit (Call (UploadConfig config force)) ;;
  lift (api_upload_config w config force).

(** [check_required_env_vars] (lines 101-109) *)
Definition check_required_env_vars (required_vars : list string) : M bool :=
  let missing_vars :=
    List.filter (fun var => match environ w !! var with None => true | Some _ => false end)
           required_vars in
  match missing_vars with
  | [] => ret true
  | _ =>
      for_each missing_vars tt
        (fun _ var => logger_error (RequiredMissing var)) ;;
      ret false
  end.

(** The loop over the lines of the whitelist file (lines 132-135):
    a stripped line is kept when it names something below the folder. *)
Definition collect_whitelist (input_folder : string) (lines : list string) : gset string :=
  fold_left
    (fun (whitelist_files : gset string) line =>
       let line := Str.strip line in
       if os_path_exists (Path.join input_folder line)
       then {[ line ]} ∪ whitelist_files
       else whitelist_files)
    lines ∅.

(** The whitelist of [create_zipped_config] (lines 126-135); empty when
    the file is absent or the mode is off. *)
Definition read_whitelist (input_folder : string) (whitelist : bool) : M (gset string) :=
  if whitelist then
    let whitelist_path :=
      Path.join (Path.join input_folder "deployment") "whitelist.txt" in
    logger_info (CreatingConfigUsing whitelist_path) ;;
    if os_path_exists whitelist_path then
      text <- open_read whitelist_path ;;
      ret (collect_whitelist input_folder (Str.readlines text))
    else ret ∅
  else ret ∅.

(** The body of the inner loop (lines 150-158), for one file of one
    directory; it threads the archive and the counter. *)
Definition add_conf_file (input_folder : string) (whitelist : bool)
    (whitelist_files : gset string) (root : string)
    (st : list zip_entry * nat) (file : string) : M (list zip_entry * nat) :=
  let file_path := Path.join root file in
  let rel_file_path := os_path_relpath file_path input_folder in
  if whitelist && negb (bool_decide (rel_file_path ∈ whitelist_files)) then ret st
  else if Str.endswith file CONF_SUFFIX then
    zipf <- zip_write (fst st) file_path (os_path_relpath file_path input_folder) ;;
    logger_info (AddedFile file_path) ;;
    ret (zipf, snd st + 1)
  else ret st.

(** The test on a directory (line 148). *)
Definition config_dir (root : string) : bool :=
  existsb (String.eqb (Path.basename root)) ["pipes"; "systems"].

(** [create_zipped_config] (lines 122-166).  It returns [None] after an
    I/O error and else the path of the archive, given here with the
    entries the archive then holds. *)
Definition create_zipped_config (input_folder output_zip : string) (whitelist : bool)
    : M (option (string * list zip_entry)) :=
  try_except
    (lift (zip_create w output_zip) ;;
     let zipf : list zip_entry := [] in
     whitelist_files <- read_whitelist input_folder whitelist ;;
     let node_metadata_path := Path.join input_folder NODE_METADATA in
     zipf <- (if os_path_exists node_metadata_path
                 && (negb whitelist || bool_decide (NODE_METADATA ∈ whitelist_files))
              then
                zipf <- zip_write zipf node_metadata_path NODE_METADATA ;;
                logger_info (AddedFile node_metadata_path) ;;
                ret zipf
              else ret zipf) ;;
     st <- for_each (os_walk input_folder) (zipf, 0)
             (fun st item =>
                if config_dir (wi_root item)
                then for_each (wi_files item) st
                       (add_conf_file input_folder whitelist whitelist_files
                          (wi_root item))
                else ret st) ;;
     logger_info (FilesAdded (snd st)) ;;
     ret (Some (output_zip, fst st)))
    (fun e =>
       if is_os_error e then logger_error (ZipFailed e) ;; ret None
       else raise e).

(** [read_json_file] (lines 169-177) *)
Definition read_json_file (file_path : string) : M json :=
  try_except
    (text <- open_read file_path ;;
     match json_loads w text with
     | inr data => ret data
     | inl detail => raise (JSONDecodeError detail)
     end)
    (fun e =>
       match e with
       | FileNotFoundError _ =>
           raise (FileNotFoundError ("File '" +:+ file_path +:+ "' not found."))
       | JSONDecodeError detail =>
           raise (ValueError ("Error decoding JSON in file '" +:+ file_path
                              +:+ "': " +:+ detail))
       | _ => raise e
       end).

(** [deploy_secrets] (lines 180-196) *)
Definition deploy_secrets (sesam_node : SesamNode) (secrets_file : option string)
    (dry_run replace_secrets : bool) : M unit :=
  match present secrets_file with
  | Some secrets_file =>
      logger_info (DeployingSecrets secrets_file) ;;
      logger_info (DryRunIs dry_run) ;;
      logger_info (ReplaceSecretsIs replace_secrets) ;;
      secrets_json <- read_json_file secrets_file ;;
      if dry_run then logger_info DryRunNoSecrets
      else
        response <- (if replace_secrets
                     then put_secrets sesam_node secrets_json
                     else post_secrets sesam_node secrets_json) ;;
        logger_info (Result response)
  | None => ret tt
  end.

(** [deploy_variables] (lines 198-209) *)
Definition deploy_variables (sesam_node : SesamNode) (variables_file : option string)
    (dry_run : bool) : M unit :=
  match present variables_file with
  | Some variables_file =>
      logger_info (DeployingVariables variables_file) ;;
      logger_info (DryRunIs dry_run) ;;
      variables_json <- read_json_file variables_file ;;
      if dry_run then logger_info DryRunNoVariables
      else
        response <- put_env sesam_node variables_json ;;
        logger_info (Result response)
  | None => ret tt
  end.

(** [deploy_config] (lines 211-229).  [open(zip_path, 'rb')] raises
    [TypeError] when [zip_path] is [None]. *)
Definition deploy_config (sesam_node : SesamNode) (config_folder : option string)
    (dry_run use_whitelist force_config : bool) : M unit :=
  match present config_folder with
  | Some config_folder =>
      logger_info (DeployingConfig config_folder) ;;
      logger_info (DryRunIs dry_run) ;;
      logger_info (UseWhitelistIs use_whitelist) ;;
      logger_info (ForceConfigIs force_config) ;;
      let output_zip := "config.zip" in
      zip_path <- create_zipped_config config_folder output_zip use_whitelist ;;
      if dry_run then logger_info DryRunNoConfig
      else
        zip_content <- match zip_path with
                       | Some (_, entries) => ret entries
                       | None => raise TypeError
                       end ;;
        response <- put_config sesam_node zip_content force_config ;;
        logger_info (Result response)
  | None => ret tt
  end.

(** [os.environ.get(name, fallback)] *)
Definition environ_get (name fallback : string) : option string :=
  Some (default fallback (environ w !! name)).

(** [main] (lines 231-277).  [parse_bool_env] is called without its
    second argument, which then is [False].  The summary handler that
    [write_summary] installs copies log records to a file and swallows
    its own errors; it does not change the run and is left out. *)
Definition main : M unit :=
  try_except
    (let required_env_vars := [INPUT_NODE; INPUT_JWT; INPUT_CONFIG_FOLDER] in
     ok <- check_required_env_vars required_env_vars ;;
     (if ok then ret tt else sys_exit 1) ;;
     let node := environ w !! INPUT_NODE in
     let jwt_token := environ w !! INPUT_JWT in
     let config_folder := environ w !! INPUT_CONFIG_FOLDER in
     let force_config := parse_bool_env (environ_get INPUT_FORCE_CONFIG "False") false in
     let secrets_file := environ w !! INPUT_SECRETS_FILE in
     let replace_secrets := parse_bool_env (environ_get INPUT_REPLACE_SECRETS "False") false in
     let variables_file := environ w !! INPUT_VARIABLES_FILE in
     let use_whitelist := parse_bool_env (environ_get INPUT_USE_WHITELIST "False") false in
     let dry_run := parse_bool_env (environ_get INPUT_DRY_RUN "True") false in
     let write_summary := parse_bool_env (environ_get INPUT_WRITE_SUMMARY "False") false in
     let sesam_node_url := "https://" +:+ format_opt node +:+ "/api" in
     sesam_node <- SesamNode_init sesam_node_url jwt_token ;;
     node_health <- get_health sesam_node ;;
     status <- dict_get node_health "status" ;;
     (if status_is_ok status then
        uptime <- dict_get node_health "node_uptime" ;;
        logger_info (NodeStatus "OK" uptime)
      else
        logger_error NodeHealthNotOk ;;
        sys_exit 1) ;;
     deploy_secrets sesam_node secrets_file dry_run replace_secrets ;;
     deploy_variables sesam_node variables_file dry_run ;;
     deploy_config sesam_node config_folder dry_run use_whitelist force_config)
    (fun e => logger_error (AnErrorOccurred e) ;; sys_exit 1).

End Deployer.

(** The exit status of the process after [main]. *)
Definition exit_code (w : world) : Z :=
  match outcome_of (main w) with
  | Ok _ => 0
  | Exit status => status
  | Raise _ => 1
  end.

(** ** The run, in parts

    [main] is one function in the source; the statements below speak
    about its parts: the start (pre-flight check, construction of the
    client, health check), the three deployment steps, and the handler
    around them.  [main_parts] shows that they compose to [main]. *)

(** The settings [main] reads from the environment (lines 240-249). *)
Definition config_folder_of (w : world) : option string := environ w !! INPUT_CONFIG_FOLDER.
Definition secrets_file_of (w : world) : option string := environ w !! INPUT_SECRETS_FILE.
Definition variables_file_of (w : world) : option string := environ w !! INPUT_VARIABLES_FILE.
Definition force_config_of (w : world) : bool :=
  parse_bool_env (environ_get w INPUT_FORCE_CONFIG "False") false.
Definition replace_secrets_of (w : world) : bool :=
  parse_bool_env (environ_get w INPUT_REPLACE_SECRETS "False") false.
Definition use_whitelist_of (w : world) : bool :=
  parse_bool_env (environ_get w INPUT_USE_WHITELIST "False") false.
Definition dry_run_of (w : world) : bool :=
  parse_bool_env (environ_get w INPUT_DRY_RUN "True") false.
Definition sesam_node_url_of (w : world) : string :=
  "https://" +:+ format_opt (environ w !! INPUT_NODE) +:+ "/api".

Definition required_env_vars : list string :=
  [INPUT_NODE; INPUT_JWT; INPUT_CONFIG_FOLDER].

(** The pre-flight check of the inputs (lines 234-237). *)
Definition preflight (w : world) : M unit :=
  (ok <- check_required_env_vars w required_env_vars ;;
   if ok then ret tt else sys_exit 1)%py.

(** The construction of the client (line 260). *)
Definition construct (w : world) : M SesamNode :=
  SesamNode_init w (sesam_node_url_of w) (environ w !! INPUT_JWT).

(** The health check (lines 263-268). *)
Definition health_check (w : world) (sesam_node : SesamNode) : M unit :=
  (node_health <- get_health w sesam_node ;;
   status <- dict_get node_health "status" ;;
   if status_is_ok status then
     uptime <- dict_get node_health "node_uptime" ;;
     logger_info (NodeStatus "OK" uptime)
   else
     logger_error NodeHealthNotOk ;;
     sys_exit 1)%py.

(** Everything before the first deployment step (lines 233-268). *)
Definition startup (w : world) : M SesamNode :=
  (preflight w ;;
   sesam_node <- construct w ;;
   health_check w sesam_node ;;
   ret sesam_node)%py.

(** The three steps as [main] calls them (lines 271-273). *)
Definition secrets_step (w : world) (sesam_node : SesamNode) : M unit :=
  deploy_secrets w sesam_node (secrets_file_of w) (dry_run_of w) (replace_secrets_of w).

Definition variables_step (w : world) (sesam_node : SesamNode) : M unit :=
  deploy_variables w sesam_node (variables_file_of w) (dry_run_of w).

Definition config_step (w : world) (sesam_node : SesamNode) : M unit :=
  deploy_config w sesam_node (config_folder_of w) (dry_run_of w)
    (use_whitelist_of w) (force_config_of w).

Definition deployment (w : world) (sesam_node : SesamNode) : M unit :=
  (secrets_step w sesam_node ;;
   variables_step w sesam_node ;;
   config_step w sesam_node)%py.

(** The handler around the whole of [main] (lines 275-277). *)
Definition report_failure (body : M unit) : M unit :=
  try_except body (fun e => logger_error (AnErrorOccurred e) ;; sys_exit 1)%py.

(** ** What a trace shows *)

Definition calls (t : list event) : list request :=
  flat_map (fun ev => match ev with Call r => [r] | Log _ _ => [] end) t.

(** The requests that change the node. *)
Definition is_mutating (r : request) : bool :=
  match r with
  | GetHealth => false
  | PutEnvVars _ | PostSecrets _ | PutSecrets _ | UploadConfig _ _ => true
  end.

Definition is_post_secrets (r : request) : bool :=
  match r with PostSecrets _ => true | _ => false end.
Definition is_put_secrets (r : request) : bool :=
  match r with PutSecrets _ => true | _ => false end.

(** How many requests of a kind a trace holds. *)
Definition count_calls (kind : request -> bool) (t : list event) : nat :=
  List.length (List.filter kind (calls t)).

Inductive step : Type := Secrets | Variables | Config.

(** The first thing a step does is to log that it starts. *)
Definition begins (s : step) (ev : event) : bool :=
  match s, ev with
  | Secrets, Log INFO (DeployingSecrets _) => true
  | Variables, Log INFO (DeployingVariables _) => true
  | Config, Log INFO (DeployingConfig _) => true
  | _, _ => false
  end.

Definition attempted (s : step) (t : list event) : bool := existsb (begins s) t.

(** Every event of a computation satisfies [P]. *)
Definition emits {A : Type} (P : event -> Prop) (m : M A) : Prop :=
  Forall P (trace m).

Definition not_mutating (ev : event) : Prop :=
  match ev with
  | Call r => is_mutating r = false
  | Log _ _ => True
  end.

Definition no_call (ev : event) : Prop :=
  match ev with
  | Call _ => False
  | Log _ _ => True
  end.

Definition not_secrets_call (ev : event) : Prop :=
  match ev with
  | Call r => is_post_secrets r = false /\ is_put_secrets r = false
  | Log _ _ => True
  end.

Definition not_begin (s : step) (ev : event) : Prop := begins s ev = false.

(** A source file that holds malformed JSON: the path is given, names a
    readable file, and [json.load] rejects its text. *)
Definition malformed_source (w : world) (source : option string) : Prop :=
  exists path data detail,
    present source = Some path /\
    os_stat w path = Some (File true data) /\
    json_loads w data = inl detail.

(** A source file that holds the document [j]. *)
Definition wellformed_source (w : world) (source : option string) (j : json) : Prop :=
  exists path data,
    present source = Some path /\
    os_stat w path = Some (File true data) /\
    json_loads w data = inr j.

(** ** The configuration tree *)

(** [dir_at t rel entries]: descending from [t] through the
    directories [rel] leads to a directory with these entries. *)
Inductive dir_at : node -> list string -> list (string * node) -> Prop :=
| dir_at_top entries :
    dir_at (Dir entries) [] entries
| dir_at_sub entries name child rel entries' :
    In (name, child) entries ->
    dir_at child rel entries' ->
    dir_at (Dir entries) (name :: rel) entries'.

(** The file [file] lies directly in the directory [rel] of the tree
    that [top] names. *)
Definition file_at (w : world) (top : string) (rel : list string) (file : string) : Prop :=
  exists t entries readable data,
    os_stat w top = Some t /\
    dir_at t rel entries /\
    In (file, File readable data) entries.

(** The path of that directory, as [os.walk] builds it. *)
Definition dir_path (top : string) (rel : list string) : string :=
  fold_left Path.join rel top.

(** The walk from [root] reaches the directory [rel] below it: [root]
    and every directory on the way can be listed, and none of those
    below [root] is a symbolic link. *)
Fixpoint walked (w : world) (root : string) (rel : list string) : bool :=
  can_list w root
  && match rel with
     | [] => true
     | name :: rel' =>
         negb (os_path_islink w (Path.join root name))
         && walked w (Path.join root name) rel'
     end.

(** The path of that file relative to the top: the names of the
    directories on the way and its own name, with slashes between. *)
Definition rel_name (rel : list string) (file : string) : string :=
  String.concat "/" (rel ++ [file]).

(** The names in a directory: not empty, not [.] or [..], without a
    slash, and different from each other. *)
Definition valid_name (name : string) : bool :=
  negb (String.eqb name "")
  && negb (String.eqb name ".")
  && negb (String.eqb name "..")
  && forallb (fun c => negb (Ascii.eqb c Path.sep)) (list_ascii_of_string name).

Fixpoint distinct (names : list string) : bool :=
  match names with
  | [] => true
  | name :: names' => negb (existsb (String.eqb name) names') && distinct names'
  end.

Fixpoint wf_node (n : node) : bool :=
  match n with
  | File _ _ => true
  | Dir entries =>
      distinct (map fst entries)
      && forallb (fun e => valid_name (fst e)) entries
      && (fix all (es : list (string * node)) : bool :=
            match es with
            | [] => true
            | (_, child) :: es' => wf_node child && all es'
            end) entries
  end.

Definition wf_tree (w : world) (top : string) : bool :=
  match os_stat w top with
  | Some t => wf_node t
  | None => true
  end.

(** The whitelist that packaging works with: the set it collects when
    the whitelist file can be read, the empty set when there is none. *)
Definition whitelist_set (w : world) (input_folder : string) : gset string :=
  match os_stat w (Path.join (Path.join input_folder "deployment") "whitelist.txt") with
  | Some (File true text) => collect_whitelist w input_folder (Str.readlines text)
  | _ => ∅
  end.

(** The root metadata file exists as a file. *)
Definition metadata_file_exists (w : world) (input_folder : string) : Prop :=
  exists readable data,
    os_stat w (Path.join input_folder NODE_METADATA) = Some (File readable data).

(** Packaging succeeded and left these entries in the archive. *)
Definition packaged (w : world) (input_folder : string) (whitelist : bool)
    (bundle : list zip_entry) : Prop :=
  exists output_zip,
    outcome_of (create_zipped_config w input_folder output_zip whitelist)
    = Ok (Some (output_zip, bundle)).

Definition in_bundle (path : string) (bundle : list zip_entry) : Prop :=
  In path (map arcname bundle).

(** ** Sample worlds

    A node that answers, a configuration folder, and a few source
    files; the statements below are tried on variations of it. *)

Module Sample.

Definition q : string := String (ascii_of_nat 34) EmptyString.
Definition nl : string := String (ascii_of_nat 10) EmptyString.

(** The claims inside the token, a secrets file, a variables file and a
    file that is no JSON. *)
Definition claims_text : string :=
  "{" +:+ q +:+ "principals" +:+ q +:+ ": {" +:+ q +:+ "sub-1" +:+ q +:+ ": []}}".
Definition claims_doc : json := JObj [("principals", JObj [("sub-1", JArr [])])].

Definition secrets_text : string :=
  "{" +:+ q +:+ "db-password" +:+ q +:+ ": " +:+ q +:+ "hunter2" +:+ q +:+ "}".
Definition secrets_doc : json := JObj [("db-password", JStr "hunter2")].

Definition variables_text : string := "{}".
Definition variables_doc : json := JObj [].

Definition broken_text : string := "{not json".

(** A decoder that knows these documents. *)
Definition decode (text : string) : string + json :=
  if String.eqb text claims_text then inr claims_doc
  else if String.eqb text secrets_text then inr secrets_doc
  else if String.eqb text variables_text then inr variables_doc
  else inl "Expecting property name enclosed in double quotes".

Definition jwt : string :=
  "eyJhbGciOiJub25lIn0.eyJwcmluY2lwYWxzIjogeyJzdWItMSI6IFtdfX0.c2ln".

Definition b64 (s : string) : option string :=
  if String.eqb s "eyJwcmluY2lwYWxzIjogeyJzdWItMSI6IFtdfX0==" then Some claims_text
  else None.

(** The configuration folder [cfg]. *)
Definition whitelist_text : string :=
  "pipes/a.conf.json" +:+ nl +:+ "other/pipes/d.conf.json  " +:+ nl
  +:+ "gone/x.conf.json" +:+ nl.

Definition tree : node :=
  Dir [("node-metadata.conf.json", File true "metadata");
       ("pipes", Dir [("a.conf.json", File true "pipe a");
                      ("notes.txt", File true "notes")]);
       ("systems", Dir [("b.conf.json", File true "system b")]);
       ("other", Dir [("c.conf.json", File true "pipe c");
                      ("pipes", Dir [("d.conf.json", File true "pipe d")])]);
       ("deployment", Dir [("whitelist.txt", File true whitelist_text)])].

(** The same folder after the process has lost the right to read one
    pipe. *)
Definition locked_tree : node :=
  Dir [("pipes", Dir [("a.conf.json", File false "pipe a")])].

(** The file system: the working directory [/work] holds the two
    folders and the source files. *)
Definition disk : node :=
  Dir [("work",
        Dir [("cfg", tree);
             ("locked", locked_tree);
             ("secrets.json", File true secrets_text);
             ("variables.json", File true variables_text);
             ("broken.json", File true broken_text)])].

Definition healthy : exn + json :=
  inr (JObj [("status", JStr "ok"); ("node_uptime", JStr "3 days")]).

Definition unhealthy : exn + json :=
  inr (JObj [("status", JStr "starting")]).

Definition accept {A : Type} (_ : A) : exn + json := inr (JObj []).

Definition reject {A : Type} (_ : A) : exn + json :=
  inl (ApiError "409 Conflict").

Definition base_env : gmap string string :=
  list_to_map [(INPUT_NODE, "node.example.org"); (INPUT_JWT, jwt);
               (INPUT_CONFIG_FOLDER, "cfg")].

(** A world with the given environment and answers of the node to the
    health check, to new secrets, to variables and to a configuration;
    everything else works. *)
Definition make_node (env : gmap string string) (health : exn + json)
    (post put_env : json -> exn + json)
    (upload : list zip_entry -> bool -> exn + json) : world :=
  {| environ := env;
     fs_root := disk;
     cwd := ["work"];
     zip_create := fun _ => inr tt;
     can_list := fun _ => true;
     os_path_islink := fun _ => false;
     zip_write_raises := fun _ => None;
     json_loads := decode;
     b64decode := b64;
     connect := fun _ _ => None;
     api_get_health := health;
     api_put_env_vars := put_env;
     api_post_secrets := post;
     api_put_secrets := accept;
     api_upload_config := upload |}.

Definition make (env : gmap string string) (health : exn + json)
    (post : json -> exn + json) : world :=
  make_node env health post accept (fun _ => accept).

(** The client these worlds construct. *)
Definition client : SesamNode :=
  {| node_url := "https://node.example.org/api";
     jwt_token := jwt;
     subscription_id := Some "sub-1" |}.

(** A plain run without secrets or variables. *)
Definition plain : world := make base_env healthy accept.

(** Secrets, variables and configuration, really deployed. *)
Definition full_env : gmap string string :=
  <[INPUT_SECRETS_FILE := "secrets.json"]>
    (<[INPUT_VARIABLES_FILE := "variables.json"]>
       (<[INPUT_DRY_RUN := "false"]> base_env)).

Definition full : world := make full_env healthy accept.

(** The same, but the node refuses the secrets. *)
Definition secrets_refused : world := make full_env healthy reject.



(** The same, with secrets to be replaced. *)
Definition replacing : world :=
  make (<[INPUT_REPLACE_SECRETS := "true"]> full_env) healthy accept.

(** The same, but the node is not up. *)
Definition replacing_unhealthy : world :=
  make (<[INPUT_REPLACE_SECRETS := "true"]> full_env) unhealthy accept.

(** A secrets file that is no JSON, dry run off and on. *)
Definition broken_secrets : world :=
  make (<[INPUT_SECRETS_FILE := "broken.json"]> full_env) healthy accept.

Definition broken_secrets_unhealthy : world :=
  make (<[INPUT_SECRETS_FILE := "broken.json"]> full_env) unhealthy accept.

Definition broken_secrets_dry : world :=
  make (<[INPUT_SECRETS_FILE := "broken.json"]> base_env) healthy accept.

Definition broken_variables_dry : world :=
  make (<[INPUT_VARIABLES_FILE := "broken.json"]> base_env) healthy accept.

(** A dry run whose token is the empty string. *)
Definition empty_token : world :=
  make (<[INPUT_JWT := ""]> base_env) healthy accept.

(** No configuration folder given at all, and given as the empty
    string. *)
Definition no_config_folder : world :=
  make (delete INPUT_CONFIG_FOLDER base_env) healthy accept.

Definition empty_config_folder : world :=
  make (<[INPUT_CONFIG_FOLDER := ""]> base_env) healthy accept.

(** A configuration folder with a file that cannot be read, dry run on
    and off. *)
Definition locked_dry : world :=
  make (<[INPUT_CONFIG_FOLDER := "locked"]> base_env) healthy accept.

Definition locked_live : world :=
  make (<[INPUT_DRY_RUN := "false"]> (<[INPUT_CONFIG_FOLDER := "locked"]> base_env))
       healthy accept.

(** A dry-run flag that is no boolean word. *)
Definition odd_dry_run : world :=
  make (<[INPUT_DRY_RUN := "on"]> base_env) healthy accept.

End Sample.

(** The log records with which a step announces itself. *)
Definition is_step_start (msg : message) : bool :=
  match msg with
  | DeployingSecrets _ | DeployingVariables _ | DeployingConfig _ => true
  | _ => false
  end.

(** [P] holds of every other log record. *)
Definition allows_logs (P : event -> Prop) : Prop :=
  forall lvl msg, is_step_start msg = false -> P (Log lvl msg).

(** A computation that ends the process does so with a status in [Q]. *)
Definition exits_in {A : Type} (Q : Z -> Prop) (m : M A) : Prop :=
  forall c, outcome_of m = Exit c -> Q c.

(** No status at all: the computation returns or raises. *)
Definition never : Z -> Prop := fun _ => False.

(** ** What packaging writes *)

(** The entry that [zipf.write] makes of what a path names, when it
    makes one; a file that cannot be read makes none. *)
Definition entry_for (arc : string) (target : option node) : option zip_entry :=
  match target with
  | Some (File true data) => Some (ZipEntry arc data)
  | Some (Dir _) => Some (ZipEntry (arc +:+ "/") "")
  | Some (File false _) | None => None
  end.

(** A relative path passes the whitelist: the mode is off or the path
    is listed (lines 151-154). *)
Definition passes_whitelist (whitelist : bool) (whitelist_files : gset string) (path : string) : bool :=
  negb whitelist || bool_decide (path ∈ whitelist_files).

(** The test of the inner loop on one file (lines 151-155). *)
Definition picks (w : world) (input_folder : string) (whitelist : bool)
    (whitelist_files : gset string) (root file : string) : bool :=
  passes_whitelist whitelist whitelist_files
    (os_path_relpath w (Path.join root file) input_folder)
  && Str.endswith file CONF_SUFFIX.

(** The files of one directory that the loops hand to [zipf.write]:
    the path of each and its name in the archive. *)
Definition chosen (w : world) (input_folder : string) (whitelist : bool)
    (whitelist_files : gset string) (item : walk_item) : list (string * string) :=
  if config_dir (wi_root item) then
    map (fun file =>
           (Path.join (wi_root item) file,
            os_path_relpath w (Path.join (wi_root item) file) input_folder))
      (List.filter (picks w input_folder whitelist whitelist_files (wi_root item))
         (wi_files item))
  else [].

(** [e] is the entry that [zipf.write(path, arcname)] makes when it
    raises nothing. *)
Definition written (w : world) (c : string * string) (e : zip_entry) : Prop :=
  entry_for (snd c) (os_stat w (fst c)) = Some e.

(** No character of the string is a slash. *)
Definition no_sep (s : string) : bool :=
  forallb (fun c => negb (Ascii.eqb c Path.sep)) (list_ascii_of_string s).

(** The item that [os.walk] yields for a directory. *)
Definition item_of (root : string) (entries : list (string * node)) : walk_item :=
  WalkItem root
    (map fst (List.filter (fun e => is_dir (snd e)) entries))
    (map fst (List.filter (fun e => negb (is_dir (snd e))) entries)).

(** The root metadata file, as packaging writes it first. *)
Definition metadata_entries (w : world) (input_folder : string) (whitelist : bool)
    (whitelist_files : gset string) (meta : list zip_entry) : Prop :=
  if os_path_exists w (Path.join input_folder NODE_METADATA)
     && passes_whitelist whitelist whitelist_files NODE_METADATA
  then exists e,
         entry_for NODE_METADATA (os_stat w (Path.join input_folder NODE_METADATA))
         = Some e /\
         meta = [e]
  else meta = [].

(** ** Further notions

    What the statements about the single functions speak of. *)

(** The variables of a list that are not set, in the order of the list
    (line 102), and the error records that report them. *)
Definition unset_vars (w : world) (required_vars : list string) : list string :=
  List.filter (fun var => bool_decide (environ w !! var = None)) required_vars.

Definition missing_reports (w : world) (required_vars : list string) : list event :=
  map (fun var => Log ERROR (RequiredMissing var)) (unset_vars w required_vars).

(** The token as the constructor logs it (line 71). *)
Definition safe_jwt (jwt : string) : string :=
  Str.take 10 jwt +:+ "*********" +:+ Str.take_last 10 jwt.

(** The principals that the constructor reads from the claims of a
    token (line 66). *)
Definition principals_of (members : list (string * json)) : json :=
  default (JObj []) (assoc "principals" members).

(** The place of a request in a run: health check, secrets, variables,
    configuration. *)
Definition request_rank (r : request) : nat :=
  match r with
  | GetHealth => 0
  | PostSecrets _ | PutSecrets _ => 1
  | PutEnvVars _ => 2
  | UploadConfig _ _ => 3
  end.

(** The node answered the health check with status [ok]. *)
Definition reported_ok (w : world) : Prop :=
  exists members,
    api_get_health w = inr (JObj members) /\
    assoc "status" members = Some (JStr "ok").

(** A list of requests that holds at most one request, of the given
    rank. *)
Definition at_most_one_of_rank (k : nat) (l : list request) : Prop :=
  l = [] \/ exists r, l = [r] /\ request_rank r = k.

(** ** More sample worlds *)

Module Edge.

(** A world like [Sample.plain] but with another decoder and another
    file system. *)
Definition variant (loads : string -> string + json) (root : node) : world :=
  {| environ := Sample.base_env;
     fs_root := root;
     cwd := ["work"];
     zip_create := fun _ => inr tt;
     can_list := fun _ => true;
     os_path_islink := fun _ => false;
     zip_write_raises := fun _ => None;
     json_loads := loads;
     b64decode := Sample.b64;
     connect := fun _ _ => None;
     api_get_health := Sample.healthy;
     api_put_env_vars := Sample.accept;
     api_post_secrets := Sample.accept;
     api_put_secrets := Sample.accept;
     api_upload_config := fun _ => Sample.accept |}.

(** The claims of every token decode to the empty object. *)
Definition hollow : world := variant (fun _ => inr (JObj [])) Sample.disk.

(** Another working directory: a folder that is itself called [pipes]
    and holds a metadata file, a folder [bare] without a whitelist, and
    a plain file. *)
Definition odd_disk : node :=
  Dir [("work",
        Dir [("pipes", Dir [("node-metadata.conf.json", File true "metadata");
                            ("a.conf.json", File true "pipe a")]);
             ("bare", Dir [("pipes", Dir [("a.conf.json", File true "pipe a")])]);
             ("notes.txt", File true "notes")])].

Definition odd : world := variant Sample.decode odd_disk.

(** A node that does not answer the health check. *)
Definition unreachable : world :=
  Sample.make Sample.base_env (inl (ApiError "503 Service Unavailable")) Sample.accept.

(** A world like [Sample.plain] in which some directories cannot be
    listed, some paths are symbolic links and [zipf.write] refuses
    some files. *)
Definition restricted (listed linked : string -> bool)
    (refused : string -> option exn) : world :=
  {| environ := Sample.base_env;
     fs_root := Sample.disk;
     cwd := ["work"];
     zip_create := fun _ => inr tt;
     can_list := listed;
     os_path_islink := linked;
     zip_write_raises := refused;
     json_loads := Sample.decode;
     b64decode := Sample.b64;
     connect := fun _ _ => None;
     api_get_health := Sample.healthy;
     api_put_env_vars := Sample.accept;
     api_post_secrets := Sample.accept;
     api_put_secrets := Sample.accept;
     api_upload_config := fun _ => Sample.accept |}.

(** The process may search [cfg/pipes] but not list it. *)
Definition unlisted : world :=
  restricted (fun path => negb (String.eqb path "cfg/pipes"))
             (fun _ => false) (fun _ => None).

(** [cfg/systems] is a symbolic link to a directory. *)
Definition linked_systems : world :=
  restricted (fun _ => true) (String.eqb "cfg/systems") (fun _ => None).

(** The folder [cfg] itself is a symbolic link to a directory. *)
Definition linked_folder : world :=
  restricted (fun _ => true) (String.eqb "cfg") (fun _ => None).

(** One pipe was last modified before 1980. *)
Definition old_pipe : world :=
  restricted (fun _ => true) (fun _ => false)
    (fun path =>
       if String.eqb path "cfg/pipes/a.conf.json"
       then Some (ValueError "ZIP does not support timestamps before 1980")
       else None).

End Edge.

(** ** Packaging, in parts

    [create_zipped_config] is one function in the source; the
    statements about it speak of its parts: the metadata file (lines
    137-141), the walk (lines 143-158), and the whole body of the [try]
    (lines 124-161) with its handler (lines 162-164).
    [create_zipped_config_parts] shows that they compose to it. *)

Definition add_metadata (w : world) (input_folder : string) (whitelist : bool)
    (whitelist_files : gset string) : M (list zip_entry) :=
  (let node_metadata_path := Path.join input_folder NODE_METADATA in
   if os_path_exists w node_metadata_path
      && (negb whitelist || bool_decide (NODE_METADATA ∈ whitelist_files))
   then
     zipf <- zip_write w [] node_metadata_path NODE_METADATA ;;
     logger_info (AddedFile node_metadata_path) ;;
     ret zipf
   else ret [])%py.

Definition add_conf_files (w : world) (input_folder : string) (whitelist : bool)
    (whitelist_files : gset string) (zipf : list zip_entry) : M (list zip_entry * nat) :=
  for_each (os_walk w input_folder) (zipf, 0)
    (fun st item =>
       if config_dir (wi_root item)
       then for_each (wi_files item) st
              (add_conf_file w input_folder whitelist whitelist_files (wi_root item))
       else ret st).

Definition zip_body (w : world) (input_folder output_zip : string) (whitelist : bool)
    : M (option (string * list zip_entry)) :=
  (lift (zip_create w output_zip) ;;
   whitelist_files <- read_whitelist w input_folder whitelist ;;
   zipf <- add_metadata w input_folder whitelist whitelist_files ;;
   st <- add_conf_files w input_folder whitelist whitelist_files zipf ;;
   logger_info (FilesAdded (snd st)) ;;
   ret (Some (output_zip, fst st)))%py.

Definition zip_failed (e : exn) : M (option (string * list zip_entry)) :=
  (if is_os_error e then logger_error (ZipFailed e) ;; ret None
   else raise e)%py.

(** ** What a computation returns *)

(** A computation that returns, returns a value in [P]. *)
Definition returns_in {A : Type} (P : A -> Prop) (m : M A) : Prop :=
  forall a, outcome_of m = Ok a -> P a.

(** The path names no directory. *)
Definition no_directory (w : world) (path : string) : Prop :=
  forall entries, os_stat w path <> Some (Dir entries).

(** The directories of a tree, parents before children and in the
    order of the entries, each with the names that lead to it and with
    its entries. *)
Fixpoint dirs_of (n : node) : list (list string * list (string * node)) :=
  match n with
  | File _ _ => []
  | Dir entries =>
      ([], entries)
      :: (fix below (es : list (string * node)) :=
            match es with
            | [] => []
            | (name, child) :: es' =>
                map (fun p => (name :: fst p, snd p)) (dirs_of child) ++ below es'
            end) entries
  end.

(** ** Requests and the records that announce them *)

(** The record with which a method of the client announces its
    request (lines 80-98): it names the kind of request and the
    address of the node. *)
Definition announces (url : string) (msg : message) (r : request) : Prop :=
  match msg, r with
  | GetHealthFrom u, GetHealth => u = url
  | PutEnvTo u, PutEnvVars _ => u = url
  | PostSecretsTo u, PostSecrets _ => u = url
  | PutSecretsTo u, PutSecrets _ => u = url
  | PutConfigTo u, UploadConfig _ _ => u = url
  | _, _ => False
  end.

(** A trace in which every request comes right after the record that
    announces it. *)
Inductive announced (url : string) : list event -> Prop :=
| announced_nil : announced url []
| announced_log lvl msg t : announced url t -> announced url (Log lvl msg :: t)
| announced_call msg r t :
    announces url msg r -> announced url t ->
    announced url (Log INFO msg :: Call r :: t).

(** * Properties *)

(** ** Computations and their traces *)

Section Computations.

Context {A B : Type}.

Lemma outcome_bind (m : M A) (f : A -> M B) :
  outcome_of (bind m f) =
  match outcome_of m with
  | Ok a => outcome_of (f a)
  | Raise e => Raise e
  | Exit c => Exit c
  end.
Proof.
  destruct m as [[a | e | c] t]; simpl; try reflexivity.
  destruct (f a); reflexivity.
Qed.

Lemma trace_bind (m : M A) (f : A -> M B) :
  trace (bind m f) =
  trace m ++ match outcome_of m with
             | Ok a => trace (f a)
             | _ => []
             end.
Proof.
  destruct m as [[a | e | c] t]; simpl; try (rewrite app_nil_r; reflexivity).
  destruct (f a); reflexivity.
Qed.

Lemma bind_ok (m : M A) (f : A -> M B) a t :
  m = (Ok a, t) -> bind m f = (outcome_of (f a), t ++ trace (f a)).
Proof. intros ->. simpl. destruct (f a); reflexivity. Qed.

Lemma bind_raise (m : M A) (f : A -> M B) e t :
  m = (Raise e, t) -> bind m f = (Raise e, t).
Proof. intros ->. reflexivity. Qed.

Lemma bind_exit (m : M A) (f : A -> M B) c t :
  m = (Exit c, t) -> bind m f = (Exit c, t).
Proof. intros ->. reflexivity. Qed.

Lemma bind_ext (m : M A) (f g : A -> M B) :
  (forall a, f a = g a) -> bind m f = bind m g.
Proof.
  intros E. destruct m as [[a | e | c] t]; simpl; try reflexivity.
  rewrite E. reflexivity.
Qed.

Lemma bind_ret_l (a : A) (f : A -> M B) : bind (ret a) f = f a.
Proof. unfold ret, bind. destruct (f a). reflexivity. Qed.

End Computations.

Lemma bind_ret_r {A : Type} (m : M A) : bind m ret = m.
Proof.
  destruct m as [[a | e | c] t]; simpl; try reflexivity.
  rewrite app_nil_r. reflexivity.
Qed.

Lemma bind_assoc {A B C : Type} (m : M A) (f : A -> M B) (g : B -> M C) :
  bind (bind m f) g = bind m (fun a => bind (f a) g).
Proof.
  destruct m as [[a | e | c] t]; simpl; try reflexivity.
  destruct (f a) as [[b | e | c] t']; simpl; try reflexivity.
  destruct (g b) as [o t'']. rewrite app_assoc. reflexivity.
Qed.

Lemma as_pair {A : Type} (m : M A) : m = (outcome_of m, trace m).
Proof. destruct m; reflexivity. Qed.

Lemma outcome_try_except {A : Type} (body : M A) (handler : exn -> M A) :
  outcome_of (try_except body handler) =
  match outcome_of body with
  | Raise e => outcome_of (handler e)
  | o => o
  end.
Proof.
  destruct body as [[a | e | c] t]; simpl; try reflexivity.
  destruct (handler e); reflexivity.
Qed.

Lemma trace_try_except {A : Type} (body : M A) (handler : exn -> M A) :
  trace (try_except body handler) =
  trace body ++ match outcome_of body with
                | Raise e => trace (handler e)
                | _ => []
                end.
Proof.
  destruct body as [[a | e | c] t]; simpl; try (rewrite app_nil_r; reflexivity).
  destruct (handler e); reflexivity.
Qed.

(** What the handler of [main] makes of a body. *)
Lemma outcome_report_failure (body : M unit) :
  outcome_of (report_failure body) =
  match outcome_of body with
  | Ok a => Ok a
  | Raise _ => Exit 1
  | Exit c => Exit c
  end.
Proof.
  unfold report_failure. rewrite outcome_try_except.
  destruct (outcome_of body); reflexivity.
Qed.

Lemma trace_report_failure (body : M unit) :
  trace (report_failure body) =
  trace body ++ match outcome_of body with
                | Raise e => [Log ERROR (AnErrorOccurred e)]
                | _ => []
                end.
Proof.
  unfold report_failure. rewrite trace_try_except.
  destruct (outcome_of body); reflexivity.
Qed.

(** [main] is its three parts in a row, under the handler. *)
Lemma main_parts (w : world) :
  main w =
  report_failure (sesam_node <- startup w ;; deployment w sesam_node)%py.
Proof.
  unfold main, startup, preflight, health_check, construct, deployment.
  unfold report_failure. f_equal.
  rewrite ?bind_assoc. apply bind_ext. intros ok.
  rewrite ?bind_assoc. apply bind_ext. intros _.
  apply bind_ext. intros sesam_node.
  rewrite ?bind_assoc. apply bind_ext. intros node_health.
  rewrite ?bind_assoc. apply bind_ext. intros status.
  rewrite ?bind_assoc. apply bind_ext. intros _.
  rewrite bind_ret_l. reflexivity.
Qed.

(** ** What a computation emits *)

Section Emits.

Context (P : event -> Prop).

Lemma emits_ret {A : Type} (a : A) : emits P (ret a).
Proof. constructor. Qed.

Lemma emits_raise {A : Type} (e : exn) : emits P (@raise A e).
Proof. constructor. Qed.

Lemma emits_exit {A : Type} (c : Z) : emits P (@sys_exit A c).
Proof. constructor. Qed.

Lemma emits_lift {A : Type} (r : exn + A) : emits P (lift r).
Proof. destruct r; constructor. Qed.

Lemma emits_emit (ev : event) : P ev -> emits P (emit ev).
Proof. intros H. repeat constructor. exact H. Qed.

Lemma emits_bind {A B : Type} (m : M A) (f : A -> M B) :
  emits P m -> (forall a, emits P (f a)) -> emits P (bind m f).
Proof.
  unfold emits. intros Hm Hf. rewrite trace_bind.
  apply Forall_app. split; [exact Hm |].
  destruct (outcome_of m); [apply Hf | constructor | constructor].
Qed.

Lemma emits_try_except {A : Type} (body : M A) (handler : exn -> M A) :
  emits P body -> (forall e, emits P (handler e)) -> emits P (try_except body handler).
Proof.
  unfold emits. intros Hb Hh. rewrite trace_try_except.
  apply Forall_app. split; [exact Hb |].
  destruct (outcome_of body); [constructor | apply Hh | constructor].
Qed.

Lemma emits_for_each {A B : Type} (l : list A) (acc : B) (body : B -> A -> M B) :
  (forall acc x, emits P (body acc x)) -> emits P (for_each l acc body).
Proof.
  intros Hbody. revert acc.
  induction l as [| x l IH]; intros acc; simpl.
  - apply emits_ret.
  - apply emits_bind; [apply Hbody | intros acc'; apply IH].
Qed.

End Emits.

(** One step of the proof that a computation emits only what [P]
    allows: split the computation, or decide a test in it. *)
Ltac emits_step :=
  match goal with
  | |- emits _ (bind _ _) => apply emits_bind; [| intros ?]
  | |- emits _ (ret _) => apply emits_ret
  | |- emits _ (raise _) => apply emits_raise
  | |- emits _ (sys_exit _) => apply emits_exit
  | |- emits _ (lift _) => apply emits_lift
  | |- emits _ (logger_info _) => apply emits_emit
  | |- emits _ (logger_error _) => apply emits_emit
  | |- emits _ (emit _) => apply emits_emit
  | |- emits _ (try_except _ _) => apply emits_try_except; [| intros ?]
  | |- emits _ (for_each _ _ _) => apply emits_for_each; intros ? ?
  | |- emits _ (if ?b then _ else _) => destruct b
  | |- emits _ (match ?x with _ => _ end) => destruct x
  end.

Ltac emits_tac := repeat emits_step; try (simpl; auto; fail).

Lemma not_mutating_logs : allows_logs not_mutating.
Proof. intros lvl msg _. exact I. Qed.

Lemma not_secrets_call_logs : allows_logs not_secrets_call.
Proof. intros lvl msg _. exact I. Qed.

Lemma no_call_logs : allows_logs no_call.
Proof. intros lvl msg _. exact I. Qed.

Lemma not_begin_logs s : allows_logs (not_begin s).
Proof.
  intros lvl msg H. unfold not_begin.
  destruct s, lvl, msg; try reflexivity; discriminate H.
Qed.

Lemma not_mutating_health : not_mutating (Call GetHealth).
Proof. reflexivity. Qed.

Lemma not_secrets_call_health : not_secrets_call (Call GetHealth).
Proof. split; reflexivity. Qed.

Lemma not_begin_call s r : not_begin s (Call r).
Proof. destruct s; reflexivity. Qed.

(** What the tests on events allow, for [auto]. *)
Create HintDb traces.
#[export] Hint Resolve not_mutating_logs not_secrets_call_logs no_call_logs
  not_begin_logs not_mutating_health not_secrets_call_health not_begin_call : traces.

Ltac logs_ok HP := apply HP; reflexivity.

Section OnlyLogs.

Context (w : world) (P : event -> Prop) (HP : allows_logs P).

Lemma emits_preflight : emits P (preflight w).
Proof.
  unfold preflight, check_required_env_vars.
  emits_tac; logs_ok HP.
Qed.

Lemma emits_construct : emits P (construct w).
Proof.
  unfold construct, SesamNode_init, dict_get, dict_keys.
  emits_tac; logs_ok HP.
Qed.

Lemma emits_read_json_file path : emits P (read_json_file w path).
Proof.
  unfold read_json_file, open_read.
  emits_tac.
Qed.

Lemma emits_create_zipped_config input_folder output_zip whitelist :
  emits P (create_zipped_config w input_folder output_zip whitelist).
Proof.
  unfold create_zipped_config, read_whitelist, add_conf_file, zip_write, open_read.
  emits_tac; logs_ok HP.
Qed.

Lemma emits_health_check sesam_node :
  P (Call GetHealth) -> emits P (health_check w sesam_node).
Proof.
  intros HC. unfold health_check, get_health, dict_get.
  emits_tac; try logs_ok HP; exact HC.
Qed.

Lemma emits_startup : P (Call GetHealth) -> emits P (startup w).
Proof.
  intros HC. unfold startup.
  apply emits_bind; [apply emits_preflight | intros _].
  apply emits_bind; [apply emits_construct | intros sesam_node].
  apply emits_bind; [apply emits_health_check, HC | intros _].
  apply emits_ret.
Qed.

(** A step whose announcement and whose requests [P] allows. *)
Lemma emits_deploy_secrets sesam_node secrets_file dry_run replace_secrets :
  (forall f, P (Log INFO (DeployingSecrets f))) ->
  (dry_run = false ->
   forall j, P (Call (PostSecrets j)) /\ P (Call (PutSecrets j))) ->
  emits P (deploy_secrets w sesam_node secrets_file dry_run replace_secrets).
Proof.
  intros HS HC. unfold deploy_secrets, put_secrets, post_secrets.
  destruct (present secrets_file) as [f |]; [| apply emits_ret].
  repeat (apply emits_bind; [apply emits_emit; first [apply HS | logs_ok HP] | intros _]).
  apply emits_bind; [apply emits_read_json_file | intros j].
  destruct dry_run.
  - apply emits_emit. logs_ok HP.
  - destruct (HC eq_refl j) as [Hpost Hput].
    emits_tac; try logs_ok HP; assumption.
Qed.

Lemma emits_deploy_variables sesam_node variables_file dry_run :
  (forall f, P (Log INFO (DeployingVariables f))) ->
  (dry_run = false -> forall j, P (Call (PutEnvVars j))) ->
  emits P (deploy_variables w sesam_node variables_file dry_run).
Proof.
  intros HS HC. unfold deploy_variables, put_env.
  destruct (present variables_file) as [f |]; [| apply emits_ret].
  repeat (apply emits_bind; [apply emits_emit; first [apply HS | logs_ok HP] | intros _]).
  apply emits_bind; [apply emits_read_json_file | intros j].
  destruct dry_run.
  - apply emits_emit. logs_ok HP.
  - pose proof (HC eq_refl j).
    emits_tac; try logs_ok HP; assumption.
Qed.

Lemma emits_deploy_config sesam_node config_folder dry_run use_whitelist force_config :
  (forall f, P (Log INFO (DeployingConfig f))) ->
  (dry_run = false -> forall z force, P (Call (UploadConfig z force))) ->
  emits P (deploy_config w sesam_node config_folder dry_run use_whitelist force_config).
Proof.
  intros HS HC. unfold deploy_config, put_config.
  destruct (present config_folder) as [f |]; [| apply emits_ret].
  repeat (apply emits_bind; [apply emits_emit; first [apply HS | logs_ok HP] | intros _]).
  apply emits_bind; [apply emits_create_zipped_config | intros zip_path].
  destruct dry_run.
  - apply emits_emit. logs_ok HP.
  - apply emits_bind; [destruct zip_path as [[? ?] |]; emits_tac | intros zip_content].
    pose proof (HC eq_refl zip_content force_config).
    emits_tac; try logs_ok HP; assumption.
Qed.

End OnlyLogs.

(** ** How a computation can end the process *)

Section Exits.

Context (Q : Z -> Prop).

Lemma exits_ret {A : Type} (a : A) : exits_in Q (ret a).
Proof. intros c H. discriminate H. Qed.

Lemma exits_raise {A : Type} (e : exn) : exits_in Q (@raise A e).
Proof. intros c H. discriminate H. Qed.

Lemma exits_sys_exit {A : Type} (c : Z) : Q c -> exits_in Q (@sys_exit A c).
Proof. intros H c' E. injection E as <-. exact H. Qed.

Lemma exits_lift {A : Type} (r : exn + A) : exits_in Q (lift r).
Proof. destruct r; intros c H; discriminate H. Qed.

Lemma exits_emit (ev : event) : exits_in Q (emit ev).
Proof. intros c H. discriminate H. Qed.

Lemma exits_bind {A B : Type} (m : M A) (f : A -> M B) :
  exits_in Q m -> (forall a, exits_in Q (f a)) -> exits_in Q (bind m f).
Proof.
  intros Hm Hf c. rewrite outcome_bind.
  destruct (outcome_of m) as [a | e | c'] eqn:E.
  - apply Hf.
  - discriminate.
  - intros H. injection H as <-. apply Hm. exact E.
Qed.

Lemma exits_try_except {A : Type} (body : M A) (handler : exn -> M A) :
  exits_in Q body -> (forall e, exits_in Q (handler e)) ->
  exits_in Q (try_except body handler).
Proof.
  intros Hb Hh c. rewrite outcome_try_except.
  destruct (outcome_of body) as [a | e | c'] eqn:E.
  - discriminate.
  - apply Hh.
  - intros H. injection H as <-. apply Hb. exact E.
Qed.

Lemma exits_for_each {A B : Type} (l : list A) (acc : B) (body : B -> A -> M B) :
  (forall acc x, exits_in Q (body acc x)) -> exits_in Q (for_each l acc body).
Proof.
  intros Hbody. revert acc.
  induction l as [| x l IH]; intros acc; simpl.
  - apply exits_ret.
  - apply exits_bind; [apply Hbody | intros acc'; apply IH].
Qed.

End Exits.

Ltac exits_step :=
  match goal with
  | |- exits_in _ (bind _ _) => apply exits_bind; [| intros ?]
  | |- exits_in _ (ret _) => apply exits_ret
  | |- exits_in _ (raise _) => apply exits_raise
  | |- exits_in _ (lift _) => apply exits_lift
  | |- exits_in _ (logger_info _) => apply exits_emit
  | |- exits_in _ (logger_error _) => apply exits_emit
  | |- exits_in _ (emit _) => apply exits_emit
  | |- exits_in _ (sys_exit _) => apply exits_sys_exit
  | |- exits_in _ (try_except _ _) => apply exits_try_except; [| intros ?]
  | |- exits_in _ (for_each _ _ _) => apply exits_for_each; intros ? ?
  | |- exits_in _ (if ?b then _ else _) => destruct b
  | |- exits_in _ (match ?x with _ => _ end) => destruct x
  end.

Ltac exits_tac := repeat exits_step; try reflexivity.

Section StepsReturnOrRaise.

Context (w : world) (Q : Z -> Prop).

Lemma exits_read_json_file path : exits_in Q (read_json_file w path).
Proof. unfold read_json_file, open_read. exits_tac. Qed.

Lemma exits_create_zipped_config input_folder output_zip whitelist :
  exits_in Q (create_zipped_config w input_folder output_zip whitelist).
Proof.
  unfold create_zipped_config, read_whitelist, add_conf_file, zip_write, open_read.
  exits_tac.
Qed.

Lemma exits_deploy_secrets sesam_node secrets_file dry_run replace_secrets :
  exits_in Q (deploy_secrets w sesam_node secrets_file dry_run replace_secrets).
Proof.
  unfold deploy_secrets, put_secrets, post_secrets.
  destruct (present secrets_file); [| apply exits_ret].
  do 3 (apply exits_bind; [apply exits_emit | intros _]).
  apply exits_bind; [apply exits_read_json_file | intros j].
  exits_tac.
Qed.

Lemma exits_deploy_variables sesam_node variables_file dry_run :
  exits_in Q (deploy_variables w sesam_node variables_file dry_run).
Proof.
  unfold deploy_variables, put_env.
  destruct (present variables_file); [| apply exits_ret].
  do 2 (apply exits_bind; [apply exits_emit | intros _]).
  apply exits_bind; [apply exits_read_json_file | intros j].
  exits_tac.
Qed.

Lemma exits_deploy_config sesam_node config_folder dry_run use_whitelist force_config :
  exits_in Q (deploy_config w sesam_node config_folder dry_run use_whitelist force_config).
Proof.
  unfold deploy_config, put_config.
  destruct (present config_folder); [| apply exits_ret].
  do 4 (apply exits_bind; [apply exits_emit | intros _]).
  apply exits_bind; [apply exits_create_zipped_config | intros zip_path].
  exits_tac.
Qed.

Lemma exits_deployment sesam_node : exits_in Q (deployment w sesam_node).
Proof.
  unfold deployment, secrets_step, variables_step, config_step.
  apply exits_bind; [apply exits_deploy_secrets | intros _].
  apply exits_bind; [apply exits_deploy_variables | intros _].
  apply exits_deploy_config.
Qed.

End StepsReturnOrRaise.

(** Before the first step the process ends with status 1 or not at
    all. *)
Lemma exits_startup (w : world) : exits_in (fun c => c = 1%Z) (startup w).
Proof.
  unfold startup, preflight, check_required_env_vars, construct, SesamNode_init,
    health_check, get_health, dict_get, dict_keys.
  exits_tac.
Qed.

(** ** Reading a trace *)

Lemma calls_app (t1 t2 : list event) : calls (t1 ++ t2) = calls t1 ++ calls t2.
Proof. unfold calls. apply flat_map_app. Qed.

Lemma count_calls_app kind (t1 t2 : list event) :
  count_calls kind (t1 ++ t2) = count_calls kind t1 + count_calls kind t2.
Proof.
  unfold count_calls. rewrite calls_app, List.filter_app, List.length_app.
  reflexivity.
Qed.

Lemma attempted_app s (t1 t2 : list event) :
  attempted s (t1 ++ t2) = attempted s t1 || attempted s t2.
Proof. unfold attempted. apply existsb_app. Qed.

Lemma calls_nil (t : list event) : Forall no_call t -> calls t = [].
Proof.
  induction 1 as [| ev t Hev _ IH]; [reflexivity |].
  destruct ev as [lvl msg | r]; [exact IH | destruct Hev].
Qed.

Lemma count_calls_zero kind (P : event -> Prop) (t : list event) :
  (forall r, P (Call r) -> kind r = false) ->
  Forall P t -> count_calls kind t = 0.
Proof.
  intros HP. induction 1 as [| ev t Hev _ IH]; [reflexivity |].
  destruct ev as [lvl msg | r]; [exact IH |].
  unfold count_calls in *. simpl. rewrite (HP r Hev). exact IH.
Qed.

Lemma attempted_false s (t : list event) :
  Forall (not_begin s) t -> attempted s t = false.
Proof.
  induction 1 as [| ev t Hev _ IH]; [reflexivity |].
  unfold attempted in *. simpl. rewrite Hev, IH. reflexivity.
Qed.

Lemma not_mutating_calls (t : list event) :
  Forall not_mutating t <-> forallb (fun r => negb (is_mutating r)) (calls t) = true.
Proof.
  induction t as [| ev t IH]; simpl.
  - split; [reflexivity | constructor].
  - destruct ev as [lvl msg | r]; simpl.
    + rewrite <- IH. split; [intros H; inversion H; assumption |].
      intros H. constructor; [exact I | exact H].
    + rewrite andb_true_iff, <- IH, negb_true_iff. split.
      * intros H. inversion H. split; assumption.
      * intros [H1 H2]. constructor; assumption.
Qed.

(** ** The run as a whole *)

Lemma outcome_main (w : world) :
  outcome_of (main w) =
  match outcome_of (startup w) with
  | Ok sesam_node => outcome_of (report_failure (deployment w sesam_node))
  | Raise _ => Exit 1
  | Exit c => Exit c
  end.
Proof.
  rewrite main_parts, outcome_report_failure, outcome_bind.
  destruct (outcome_of (startup w)); try reflexivity.
  rewrite outcome_report_failure. reflexivity.
Qed.

Lemma trace_main (w : world) :
  trace (main w) =
  trace (startup w)
  ++ match outcome_of (startup w) with
     | Ok sesam_node => trace (report_failure (deployment w sesam_node))
     | Raise e => [Log ERROR (AnErrorOccurred e)]
     | Exit _ => []
     end.
Proof.
  rewrite main_parts, trace_report_failure, trace_bind, outcome_bind.
  destruct (outcome_of (startup w)); rewrite <- ?app_assoc; try reflexivity.
  rewrite trace_report_failure. reflexivity.
Qed.

(** The process ends with status 0 or 1. *)
Lemma outcome_main_cases (w : world) :
  outcome_of (main w) = Ok tt \/ outcome_of (main w) = Exit 1.
Proof.
  rewrite outcome_main.
  destruct (outcome_of (startup w)) as [sesam_node | e | c] eqn:E.
  - rewrite outcome_report_failure.
    destruct (outcome_of (deployment w sesam_node)) as [[] | e | c] eqn:D; auto.
    destruct (exits_deployment w never sesam_node c D).
  - auto.
  - right. f_equal. apply (exits_startup w c E).
Qed.

Lemma exit_code_one (w : world) :
  outcome_of (main w) <> Ok tt -> exit_code w = 1%Z.
Proof.
  intros H. unfold exit_code.
  destruct (outcome_main_cases w) as [E | E]; [contradiction | rewrite E; reflexivity].
Qed.

(** A run that does not get through its start fails. *)
Lemma startup_failure (w : world) :
  (forall sesam_node, outcome_of (startup w) <> Ok sesam_node) -> exit_code w = 1%Z.
Proof.
  intros H. apply exit_code_one. rewrite outcome_main.
  destruct (outcome_of (startup w)) as [sesam_node | e | c] eqn:E; try discriminate.
  destruct (H sesam_node). reflexivity.
Qed.


(** What [main] emits, from what its parts emit. *)
Lemma emits_main (w : world) (P : event -> Prop) :
  allows_logs P ->
  emits P (startup w) ->
  (forall sesam_node, emits P (deployment w sesam_node)) ->
  emits P (main w).
Proof.
  intros HP HS HD. rewrite main_parts. unfold report_failure.
  apply emits_try_except.
  - apply emits_bind; [exact HS | exact HD].
  - intros e. emits_tac; apply HP; reflexivity.
Qed.

Lemma emits_deployment (w : world) (P : event -> Prop) sesam_node :
  emits P (secrets_step w sesam_node) ->
  emits P (variables_step w sesam_node) ->
  emits P (config_step w sesam_node) ->
  emits P (deployment w sesam_node).
Proof.
  intros H1 H2 H3. unfold deployment.
  apply emits_bind; [exact H1 | intros _].
  apply emits_bind; [exact H2 | intros _; exact H3].
Qed.

(** ** Dry run *)

Lemma no_call_preflight (w : world) : calls (trace (preflight w)) = [].
Proof. apply calls_nil, emits_preflight, no_call_logs. Qed.

Lemma no_call_construct (w : world) : calls (trace (construct w)) = [].
Proof. apply calls_nil, emits_construct, no_call_logs. Qed.

(** The health check sends its request whatever the answer is. *)
Lemma calls_health_check (w : world) sesam_node :
  calls (trace (health_check w sesam_node)) = [GetHealth].
Proof.
  unfold health_check, get_health.
  rewrite !trace_bind, !calls_app. simpl.
  destruct (api_get_health w) as [e | node_health]; simpl; [reflexivity |].
  rewrite trace_bind, calls_app.
  destruct node_health; simpl; try reflexivity.
  destruct (status_is_ok (assoc "status" members)); reflexivity.
Qed.

Lemma calls_startup (w : world) sesam_node :
  outcome_of (preflight w) = Ok tt ->
  outcome_of (construct w) = Ok sesam_node ->
  calls (trace (startup w)) = [GetHealth].
Proof.
  intros Hpre Hcon. unfold startup.
  rewrite trace_bind, Hpre, trace_bind, Hcon, trace_bind.
  rewrite !calls_app, no_call_preflight, no_call_construct, calls_health_check.
  destruct (outcome_of (health_check w sesam_node)); reflexivity.
Qed.

(** In a dry run the three steps send nothing. *)
Lemma dry_deployment (w : world) (P : event -> Prop) sesam_node :
  (forall lvl msg, P (Log lvl msg)) ->
  dry_run_of w = true ->
  emits P (deployment w sesam_node).
Proof.
  intros HL Hdry.
  assert (HP : allows_logs P) by (intros lvl msg _; apply HL).
  apply emits_deployment; unfold secrets_step, variables_step, config_step;
    rewrite Hdry.
  - apply emits_deploy_secrets; [exact HP | intros; apply HL | discriminate].
  - apply emits_deploy_variables; [exact HP | intros; apply HL | discriminate].
  - apply emits_deploy_config; [exact HP | intros; apply HL | discriminate].
Qed.

(** C4, as the code has it.  In a run with the dry-run flag on that
    passes the pre-flight check of the inputs, no request that changes
    the node is ever sent; and when the client can be constructed from
    the token, the health check is the one request the run sends.
    (When the constructor raises, the run ends before the health
    check.) *)
Theorem dry_run_sends_only_health_check (w : world) :
  dry_run_of w = true ->
  outcome_of (preflight w) = Ok tt ->
  emits not_mutating (main w) /\
  (forall sesam_node,
     outcome_of (construct w) = Ok sesam_node ->
     calls (trace (main w)) = [GetHealth]).
Proof.
  intros Hdry Hpre. split.
  - apply emits_main.
    + auto with traces.
    + apply emits_startup; auto with traces.
    + intros sesam_node. apply dry_deployment; [intros; exact I | exact Hdry].
  - intros sesam_node Hcon.
    rewrite trace_main, calls_app, (calls_startup w sesam_node Hpre Hcon).
    assert (Hnone : forall n, calls (trace (report_failure (deployment w n))) = []).
    { intros n. apply calls_nil. unfold report_failure.
      apply emits_try_except.
      - apply dry_deployment; [intros; exact I | exact Hdry].
      - intros e. emits_tac; exact I. }
    destruct (outcome_of (startup w)); simpl; [rewrite Hnone | |]; reflexivity.
Qed.

Lemma dry_run_sends_only_health_check_witness :
  emits not_mutating (main Sample.plain) /\
  calls (trace (main Sample.plain)) = [GetHealth].
Proof.
  destruct (dry_run_sends_only_health_check Sample.plain eq_refl eq_refl) as [H1 H2].
  split; [exact H1 |].
  eapply H2. vm_compute. reflexivity.
Defined.

(** C4 as stated fails: with the token set to the empty string the
    inputs pass the pre-flight check and the dry-run flag is on, but
    the constructor of the client raises when it splits the token, and
    the run ends with status 1 before any request, the health check
    included. *)
Lemma empty_token_skips_health_check :
  dry_run_of Sample.empty_token = true /\
  outcome_of (preflight Sample.empty_token) = Ok tt /\
  calls (trace (main Sample.empty_token)) = [] /\
  main Sample.empty_token =
    (Exit 1, [Log ERROR (AnErrorOccurred
                (ValueError "not enough values to unpack (expected 3, got 1)"))]).
Proof. repeat split; vm_compute; reflexivity. Qed.

(** ** The order of the steps *)

Lemma outcome_deployment (w : world) sesam_node :
  outcome_of (deployment w sesam_node) =
  match outcome_of (secrets_step w sesam_node) with
  | Ok _ =>
      match outcome_of (variables_step w sesam_node) with
      | Ok _ => outcome_of (config_step w sesam_node)
      | Raise e => Raise e
      | Exit c => Exit c
      end
  | Raise e => Raise e
  | Exit c => Exit c
  end.
Proof.
  unfold deployment. rewrite outcome_bind.
  destruct (outcome_of (secrets_step w sesam_node)); try reflexivity.
  apply outcome_bind.
Qed.

Lemma trace_deployment (w : world) sesam_node :
  trace (deployment w sesam_node) =
  trace (secrets_step w sesam_node)
  ++ match outcome_of (secrets_step w sesam_node) with
     | Ok _ =>
         trace (variables_step w sesam_node)
         ++ match outcome_of (variables_step w sesam_node) with
            | Ok _ => trace (config_step w sesam_node)
            | _ => []
            end
     | _ => []
     end.
Proof.
  unfold deployment. rewrite trace_bind.
  destruct (outcome_of (secrets_step w sesam_node)); try reflexivity.
  rewrite trace_bind. reflexivity.
Qed.

Lemma not_begin_error s msg : attempted s [Log ERROR msg] = false.
Proof. destruct s; reflexivity. Qed.

(** Nothing before the first step announces a step. *)
Lemma startup_begins_nothing (w : world) s : emits (not_begin s) (startup w).
Proof. apply emits_startup; auto with traces. Qed.

(** Each step announces itself only. *)
Lemma secrets_step_begins (w : world) sesam_node s :
  s <> Secrets -> emits (not_begin s) (secrets_step w sesam_node).
Proof.
  intros Hs. apply emits_deploy_secrets.
  - auto with traces.
  - intros f. destruct s; [contradiction | reflexivity | reflexivity].
  - intros _ j. split; auto with traces.
Qed.

Lemma variables_step_begins (w : world) sesam_node s :
  s <> Variables -> emits (not_begin s) (variables_step w sesam_node).
Proof.
  intros Hs. apply emits_deploy_variables.
  - auto with traces.
  - intros f. destruct s; [reflexivity | contradiction | reflexivity].
  - intros _ j. auto with traces.
Qed.

(** The trace of a run whose start succeeded. *)
Lemma trace_started (w : world) sesam_node :
  outcome_of (startup w) = Ok sesam_node ->
  trace (main w) =
  trace (startup w) ++ trace (deployment w sesam_node)
  ++ match outcome_of (deployment w sesam_node) with
     | Raise e => [Log ERROR (AnErrorOccurred e)]
     | _ => []
     end.
Proof.
  intros S. rewrite trace_main, S, trace_report_failure. reflexivity.
Qed.

(** When the secrets step raises, the run ends there. *)
Lemma secrets_failure_ends_run (w : world) sesam_node e :
  outcome_of (startup w) = Ok sesam_node ->
  outcome_of (secrets_step w sesam_node) = Raise e ->
  main w = (Exit 1, trace (startup w) ++ trace (secrets_step w sesam_node)
                    ++ [Log ERROR (AnErrorOccurred e)]).
Proof.
  intros S F. rewrite (as_pair (main w)). f_equal.
  - rewrite outcome_main, S, outcome_report_failure, outcome_deployment, F.
    reflexivity.
  - rewrite (trace_started w sesam_node S), trace_deployment, outcome_deployment, F.
    rewrite app_nil_r. reflexivity.
Qed.





(** ** A step runs only after the steps before it returned *)

Lemma unit_outcome (o : outcome unit) :
  o <> Ok tt -> match o with Ok _ => False | _ => True end.
Proof. destruct o as [[] | e | c]; [intros H; apply H; reflexivity | |]; intros _; exact I. Qed.

Lemma unstarted_run (w : world) s :
  (forall sesam_node, outcome_of (startup w) <> Ok sesam_node) ->
  attempted s (trace (main w)) = false.
Proof.
  intros H. rewrite trace_main, attempted_app.
  rewrite (attempted_false s _ (startup_begins_nothing w s)). simpl.
  destruct (outcome_of (startup w)) as [sesam_node | e | c].
  - destruct (H sesam_node). reflexivity.
  - apply not_begin_error.
  - reflexivity.
Qed.

Lemma variables_only_after_secrets (w : world) :
  attempted Variables (trace (main w)) = true ->
  exists sesam_node,
    outcome_of (startup w) = Ok sesam_node /\
    outcome_of (secrets_step w sesam_node) = Ok tt.
Proof.
  intros H.
  destruct (outcome_of (startup w)) as [sesam_node | e | c] eqn:S.
  2, 3: rewrite unstarted_run in H; [discriminate | intros n; rewrite S; discriminate].
  exists sesam_node. split; [reflexivity |].
  rewrite (trace_started w sesam_node S), trace_deployment, outcome_deployment in H.
  rewrite !attempted_app in H.
  rewrite (attempted_false _ _ (startup_begins_nothing w Variables)) in H.
  rewrite (attempted_false _ _ (secrets_step_begins w sesam_node Variables
                                   ltac:(discriminate))) in H.
  destruct (outcome_of (secrets_step w sesam_node)) as [[] | e | c]; simpl in H;
    [reflexivity | discriminate | discriminate].
Qed.

Lemma config_only_after_variables (w : world) :
  attempted Config (trace (main w)) = true ->
  exists sesam_node,
    outcome_of (startup w) = Ok sesam_node /\
    outcome_of (secrets_step w sesam_node) = Ok tt /\
    outcome_of (variables_step w sesam_node) = Ok tt.
Proof.
  intros H.
  destruct (outcome_of (startup w)) as [sesam_node | e | c] eqn:S.
  2, 3: rewrite unstarted_run in H; [discriminate | intros n; rewrite S; discriminate].
  exists sesam_node. split; [reflexivity |].
  rewrite (trace_started w sesam_node S), trace_deployment, outcome_deployment in H.
  rewrite !attempted_app in H.
  rewrite (attempted_false _ _ (startup_begins_nothing w Config)) in H.
  rewrite (attempted_false _ _ (secrets_step_begins w sesam_node Config
                                   ltac:(discriminate))) in H.
  destruct (outcome_of (secrets_step w sesam_node)) as [[] | e | c]; simpl in H;
    [| discriminate | discriminate].
  split; [reflexivity |].
  rewrite !attempted_app in H.
  rewrite (attempted_false _ _ (variables_step_begins w sesam_node Config
                                   ltac:(discriminate))) in H.
  destruct (outcome_of (variables_step w sesam_node)) as [[] | e | c]; simpl in H;
    [reflexivity | discriminate | discriminate].
Qed.

(** The run succeeds only if it started and every step returned. *)
Lemma success_only_after_all (w : world) :
  outcome_of (main w) = Ok tt ->
  exists sesam_node,
    outcome_of (startup w) = Ok sesam_node /\
    outcome_of (secrets_step w sesam_node) = Ok tt /\
    outcome_of (variables_step w sesam_node) = Ok tt /\
    outcome_of (config_step w sesam_node) = Ok tt.
Proof.
  rewrite outcome_main.
  destruct (outcome_of (startup w)) as [sesam_node | e | c] eqn:S.
  - rewrite outcome_report_failure, outcome_deployment. intros H.
    exists sesam_node. split; [reflexivity |].
    destruct (outcome_of (secrets_step w sesam_node)) as [[] | e | c];
      [| discriminate | discriminate ].
    destruct (outcome_of (variables_step w sesam_node)) as [[] | e | c];
      [| discriminate | discriminate ].
    destruct (outcome_of (config_step w sesam_node)) as [[] | e | c];
      [| discriminate | discriminate ].
    repeat split.
  - discriminate.
  - discriminate.
Qed.

(** ** Reading a source file *)

Lemma read_json_file_wellformed (w : world) path data j :
  os_stat w path = Some (File true data) ->
  json_loads w data = inr j ->
  read_json_file w path = (Ok j, []).
Proof.
  intros Hfile Hjson. unfold read_json_file, open_read.
  rewrite Hfile. simpl. rewrite Hjson. reflexivity.
Qed.

Lemma read_json_file_malformed (w : world) path data detail :
  os_stat w path = Some (File true data) ->
  json_loads w data = inl detail ->
  read_json_file w path =
  (Raise (ValueError ("Error decoding JSON in file '" +:+ path +:+ "': " +:+ detail)),
   []).
Proof.
  intros Hfile Hjson. unfold read_json_file, open_read.
  rewrite Hfile. simpl. rewrite Hjson. reflexivity.
Qed.

(** The secrets step and the variables step parse their source before
    they look at the dry-run flag. *)
Lemma deploy_secrets_malformed (w : world) sesam_node source path data detail
    dry_run replace_secrets :
  present source = Some path ->
  os_stat w path = Some (File true data) ->
  json_loads w data = inl detail ->
  deploy_secrets w sesam_node source dry_run replace_secrets =
  (Raise (ValueError ("Error decoding JSON in file '" +:+ path +:+ "': " +:+ detail)),
   [Log INFO (DeployingSecrets path); Log INFO (DryRunIs dry_run);
    Log INFO (ReplaceSecretsIs replace_secrets)]).
Proof.
  intros Hp Hfile Hjson. unfold deploy_secrets. rewrite Hp.
  rewrite (read_json_file_malformed w path data detail Hfile Hjson).
  reflexivity.
Qed.

Lemma deploy_variables_malformed (w : world) sesam_node source path data detail dry_run :
  present source = Some path ->
  os_stat w path = Some (File true data) ->
  json_loads w data = inl detail ->
  deploy_variables w sesam_node source dry_run =
  (Raise (ValueError ("Error decoding JSON in file '" +:+ path +:+ "': " +:+ detail)),
   [Log INFO (DeployingVariables path); Log INFO (DryRunIs dry_run)]).
Proof.
  intros Hp Hfile Hjson. unfold deploy_variables. rewrite Hp.
  rewrite (read_json_file_malformed w path data detail Hfile Hjson).
  reflexivity.
Qed.

Lemma not_true_false (b : bool) : (b = true -> False) -> b = false.
Proof. destruct b; [intros H; destruct H; reflexivity | reflexivity]. Qed.

(** A run whose secrets file is malformed. *)
Lemma malformed_secrets_run (w : world) :
  malformed_source w (secrets_file_of w) ->
  exit_code w = 1%Z /\
  attempted Variables (trace (main w)) = false /\
  attempted Config (trace (main w)) = false.
Proof.
  intros (path & data & detail & Hp & Hfile & Hjson).
  assert (F : forall n, outcome_of (secrets_step w n) <> Ok tt).
  { intros n. unfold secrets_step.
    rewrite (deploy_secrets_malformed w n _ path data detail _ _ Hp Hfile Hjson).
    discriminate. }
  split; [| split].
  - apply exit_code_one. intros H.
    destruct (success_only_after_all w H) as (n & _ & H1 & _).
    exact (F n H1).
  - apply not_true_false. intros H.
    destruct (variables_only_after_secrets w H) as (n & _ & H1).
    exact (F n H1).
  - apply not_true_false. intros H.
    destruct (config_only_after_variables w H) as (n & _ & H1 & _).
    exact (F n H1).
Qed.

(** A run whose variables file is malformed. *)
Lemma malformed_variables_run (w : world) :
  malformed_source w (variables_file_of w) ->
  exit_code w = 1%Z /\
  attempted Config (trace (main w)) = false.
Proof.
  intros (path & data & detail & Hp & Hfile & Hjson).
  assert (F : forall n, outcome_of (variables_step w n) <> Ok tt).
  { intros n. unfold variables_step.
    rewrite (deploy_variables_malformed w n _ path data detail _ Hp Hfile Hjson).
    discriminate. }
  split.
  - apply exit_code_one. intros H.
    destruct (success_only_after_all w H) as (n & _ & _ & H1 & _).
    exact (F n H1).
  - apply not_true_false. intros H.
    destruct (config_only_after_variables w H) as (n & _ & _ & H1).
    exact (F n H1).
Qed.

(** C7, as the code has it.  In a run with a secrets source whose
    content is malformed JSON and with the dry-run flag off, the
    process exits with status 1 and neither the variables step nor the
    config step is attempted; and when the run gets as far as the
    secrets step (its start succeeded), what ends it is the parse
    error: the last record of the trace is the [ValueError] that
    [read_json_file] raised for that file. *)
Theorem malformed_secrets_abort_run (w : world) path data detail :
  present (secrets_file_of w) = Some path ->
  os_stat w path = Some (File true data) ->
  json_loads w data = inl detail ->
  dry_run_of w = false ->
  exit_code w = 1%Z /\
  attempted Variables (trace (main w)) = false /\
  attempted Config (trace (main w)) = false /\
  (forall sesam_node,
     outcome_of (startup w) = Ok sesam_node ->
     main w =
     (Exit 1,
      trace (startup w)
      ++ [Log INFO (DeployingSecrets path);
          Log INFO (DryRunIs false);
          Log INFO (ReplaceSecretsIs (replace_secrets_of w));
          Log ERROR (AnErrorOccurred
            (ValueError ("Error decoding JSON in file '" +:+ path +:+ "': "
                         +:+ detail)))])).
Proof.
  intros Hp Hfile Hjson Hdry.
  destruct (malformed_secrets_run w) as (H1 & H2 & H3).
  { exists path, data, detail. repeat split; assumption. }
  repeat split; try assumption.
  intros sesam_node S.
  pose proof (deploy_secrets_malformed w sesam_node _ path data detail
                (dry_run_of w) (replace_secrets_of w) Hp Hfile Hjson) as F.
  fold (secrets_step w sesam_node) in F.
  rewrite (secrets_failure_ends_run w sesam_node _ S (f_equal fst F)).
  rewrite F, Hdry. reflexivity.
Qed.

Lemma malformed_secrets_abort_run_witness :
  exit_code Sample.broken_secrets = 1%Z /\
  attempted Variables (trace (main Sample.broken_secrets)) = false /\
  attempted Config (trace (main Sample.broken_secrets)) = false /\
  main Sample.broken_secrets =
    (Exit 1,
     trace (startup Sample.broken_secrets)
     ++ [Log INFO (DeployingSecrets "broken.json");
         Log INFO (DryRunIs false);
         Log INFO (ReplaceSecretsIs false);
         Log ERROR (AnErrorOccurred
           (ValueError ("Error decoding JSON in file 'broken.json': "
                        +:+ "Expecting property name enclosed in double quotes")))]).
Proof.
  destruct (malformed_secrets_abort_run Sample.broken_secrets
              "broken.json" Sample.broken_text
              "Expecting property name enclosed in double quotes"
              eq_refl eq_refl eq_refl eq_refl) as (H1 & H2 & H3 & H4).
  split; [exact H1 | split; [exact H2 | split; [exact H3 |]]].
  exact (H4 Sample.client eq_refl).
Defined.

(** C7 as stated fails: the secrets file is malformed and the dry-run
    flag is off, but the node is not healthy.  The run ends at the
    health check; the secrets file is never parsed and no parse error
    is raised or logged. *)
Lemma unhealthy_node_hides_parse_error :
  malformed_source Sample.broken_secrets_unhealthy
    (secrets_file_of Sample.broken_secrets_unhealthy) /\
  dry_run_of Sample.broken_secrets_unhealthy = false /\
  attempted Secrets (trace (main Sample.broken_secrets_unhealthy)) = false /\
  main Sample.broken_secrets_unhealthy =
    (Exit 1,
     [Log INFO (Connecting "https://node.example.org/api"
                  "eyJhbGciOi*********tdfX0.c2ln");
      Log INFO (JwtPrincipals (JObj [("sub-1", JArr [])]));
      Log INFO (GetHealthFrom "https://node.example.org/api");
      Call GetHealth;
      Log ERROR NodeHealthNotOk]).
Proof.
  split.
  - exists "broken.json", Sample.broken_text,
      "Expecting property name enclosed in double quotes".
    repeat split.
  - repeat split.
Qed.

(** C9.  A secrets or variables source with malformed JSON makes the
    run fail also when the dry-run flag is on: the process exits with
    status 1 and the config step is not attempted (nor the variables
    step, when it is the secrets file).  The reason is in the steps:
    each parses its source and raises, whatever the flag. *)
Theorem malformed_source_fails_dry_run (w : world) :
  dry_run_of w = true ->
  malformed_source w (secrets_file_of w) \/ malformed_source w (variables_file_of w) ->
  exit_code w = 1%Z /\
  attempted Config (trace (main w)) = false /\
  (malformed_source w (secrets_file_of w) ->
   attempted Variables (trace (main w)) = false /\
   forall sesam_node dry_run replace_secrets, exists msg,
     outcome_of (deploy_secrets w sesam_node (secrets_file_of w) dry_run replace_secrets)
     = Raise (ValueError msg)) /\
  (malformed_source w (variables_file_of w) ->
   forall sesam_node dry_run, exists msg,
     outcome_of (deploy_variables w sesam_node (variables_file_of w) dry_run)
     = Raise (ValueError msg)).
Proof.
  intros _ H.
  assert (Hrun : exit_code w = 1%Z /\ attempted Config (trace (main w)) = false).
  { destruct H as [H | H].
    - destruct (malformed_secrets_run w H) as (H1 & _ & H3). split; assumption.
    - apply (malformed_variables_run w H). }
  destruct Hrun as [H1 H2].
  split; [exact H1 | split; [exact H2 | split]].
  - intros Hs. split; [apply (malformed_secrets_run w Hs) |].
    intros sesam_node dry_run replace_secrets.
    destruct Hs as (path & data & detail & Hp & Hfile & Hjson).
    eexists.
    rewrite (deploy_secrets_malformed w sesam_node _ path data detail _ _ Hp Hfile Hjson).
    reflexivity.
  - intros Hv sesam_node dry_run.
    destruct Hv as (path & data & detail & Hp & Hfile & Hjson).
    eexists.
    rewrite (deploy_variables_malformed w sesam_node _ path data detail _ Hp Hfile Hjson).
    reflexivity.
Qed.

Lemma broken_secrets_dry_malformed :
  malformed_source Sample.broken_secrets_dry (secrets_file_of Sample.broken_secrets_dry).
Proof.
  exists "broken.json", Sample.broken_text,
    "Expecting property name enclosed in double quotes".
  repeat split.
Defined.

Lemma broken_variables_dry_malformed :
  malformed_source Sample.broken_variables_dry
    (variables_file_of Sample.broken_variables_dry).
Proof.
  exists "broken.json", Sample.broken_text,
    "Expecting property name enclosed in double quotes".
  repeat split.
Defined.

Lemma malformed_source_fails_dry_run_witness :
  (exit_code Sample.broken_secrets_dry = 1%Z /\
   attempted Config (trace (main Sample.broken_secrets_dry)) = false /\
   attempted Variables (trace (main Sample.broken_secrets_dry)) = false) /\
  (exit_code Sample.broken_variables_dry = 1%Z /\
   attempted Config (trace (main Sample.broken_variables_dry)) = false).
Proof.
  split.
  - destruct (malformed_source_fails_dry_run Sample.broken_secrets_dry eq_refl
                (or_introl broken_secrets_dry_malformed)) as (H1 & H2 & H3 & _).
    destruct (H3 broken_secrets_dry_malformed) as [H4 _].
    repeat split; assumption.
  - destruct (malformed_source_fails_dry_run Sample.broken_variables_dry eq_refl
                (or_intror broken_variables_dry_malformed)) as (H1 & H2 & _).
    split; assumption.
Defined.

(** ** The secrets step *)

Lemma count_secrets_zero kind (t : list event) :
  (kind = is_post_secrets \/ kind = is_put_secrets) ->
  Forall not_secrets_call t -> count_calls kind t = 0.
Proof.
  intros Hk. apply count_calls_zero. intros r [H1 H2].
  destruct Hk as [-> | ->]; assumption.
Qed.

(** The other parts of the run send no secrets. *)
Lemma startup_sends_no_secrets (w : world) : emits not_secrets_call (startup w).
Proof.
  apply emits_startup; auto with traces.
Qed.

Lemma variables_step_sends_no_secrets (w : world) sesam_node :
  emits not_secrets_call (variables_step w sesam_node).
Proof.
  apply emits_deploy_variables.
  - auto with traces.
  - intros f. exact I.
  - intros _ j. split; reflexivity.
Qed.

Lemma config_step_sends_no_secrets (w : world) sesam_node :
  emits not_secrets_call (config_step w sesam_node).
Proof.
  apply emits_deploy_config.
  - auto with traces.
  - intros f. exact I.
  - intros _ z force. split; reflexivity.
Qed.

(** The requests of the secrets step when it has a document to send. *)
Lemma calls_deploy_secrets (w : world) sesam_node source j replace_secrets :
  wellformed_source w source j ->
  calls (trace (deploy_secrets w sesam_node source false replace_secrets)) =
  [if replace_secrets then PutSecrets j else PostSecrets j].
Proof.
  intros (path & data & Hp & Hfile & Hjson).
  unfold deploy_secrets. rewrite Hp.
  rewrite !trace_bind, !calls_app. simpl.
  rewrite (read_json_file_wellformed w path data j Hfile Hjson). simpl.
  destruct replace_secrets; unfold put_secrets, post_secrets;
    rewrite !trace_bind, !calls_app, !outcome_bind; simpl.
  - destruct (api_put_secrets w j); reflexivity.
  - destruct (api_post_secrets w j); reflexivity.
Qed.

(** The secrets requests of a whole run are those of its secrets
    step. *)
Lemma count_secrets_main (w : world) sesam_node kind :
  (kind = is_post_secrets \/ kind = is_put_secrets) ->
  outcome_of (startup w) = Ok sesam_node ->
  count_calls kind (trace (main w)) = count_calls kind (trace (secrets_step w sesam_node)).
Proof.
  intros Hk S.
  rewrite (trace_started w sesam_node S), trace_deployment.
  rewrite !count_calls_app.
  rewrite (count_secrets_zero kind _ Hk (startup_sends_no_secrets w)).
  assert (Hrest : count_calls kind
            match outcome_of (secrets_step w sesam_node) with
            | Ok _ =>
                trace (variables_step w sesam_node)
                ++ match outcome_of (variables_step w sesam_node) with
                   | Ok _ => trace (config_step w sesam_node)
                   | _ => []
                   end
            | _ => []
            end = 0).
  { destruct (outcome_of (secrets_step w sesam_node)); try reflexivity.
    rewrite count_calls_app.
    rewrite (count_secrets_zero kind _ Hk (variables_step_sends_no_secrets w sesam_node)).
    destruct (outcome_of (variables_step w sesam_node)); try reflexivity.
    apply (count_secrets_zero kind _ Hk (config_step_sends_no_secrets w sesam_node)). }
  rewrite Hrest.
  destruct (outcome_of (deployment w sesam_node)); unfold count_calls; simpl; lia.
Qed.

(** C6, as the code has it.  In a run that gets as far as the secrets
    step (its start succeeded: inputs present, client constructed,
    node healthy), with a secrets source that holds well-formed JSON
    and with the dry-run flag off: when secrets are to be replaced, the
    run sends exactly one replace request and no create request; when
    not, exactly one create request and no replace request. *)
Theorem secrets_sent_once (w : world) sesam_node j :
  outcome_of (startup w) = Ok sesam_node ->
  wellformed_source w (secrets_file_of w) j ->
  dry_run_of w = false ->
  (replace_secrets_of w = true ->
   count_calls is_put_secrets (trace (main w)) = 1 /\
   count_calls is_post_secrets (trace (main w)) = 0) /\
  (replace_secrets_of w = false ->
   count_calls is_post_secrets (trace (main w)) = 1 /\
   count_calls is_put_secrets (trace (main w)) = 0).
Proof.
  intros S Hj Hdry.
  rewrite !(count_secrets_main w sesam_node _ (or_introl eq_refl) S).
  rewrite !(count_secrets_main w sesam_node _ (or_intror eq_refl) S).
  unfold count_calls, secrets_step. rewrite Hdry.
  rewrite (calls_deploy_secrets w sesam_node _ j _ Hj).
  split; intros ->; split; reflexivity.
Qed.

Lemma full_secrets_wellformed (w : world) :
  secrets_file_of w = Some "secrets.json" ->
  fs_root w = Sample.disk ->
  cwd w = ["work"] ->
  json_loads w = Sample.decode ->
  wellformed_source w (secrets_file_of w) Sample.secrets_doc.
Proof.
  intros Hs Hf Hc Hd. exists "secrets.json", Sample.secrets_text.
  rewrite Hs. unfold os_stat, locate. rewrite Hf, Hc, Hd. repeat split.
Defined.

Lemma secrets_sent_once_witness :
  (count_calls is_put_secrets (trace (main Sample.replacing)) = 1 /\
   count_calls is_post_secrets (trace (main Sample.replacing)) = 0) /\
  (count_calls is_post_secrets (trace (main Sample.full)) = 1 /\
   count_calls is_put_secrets (trace (main Sample.full)) = 0).
Proof.
  split.
  - exact (proj1 (secrets_sent_once Sample.replacing Sample.client Sample.secrets_doc
                    eq_refl
                    (full_secrets_wellformed Sample.replacing eq_refl eq_refl eq_refl
                       eq_refl)
                    eq_refl) eq_refl).
  - exact (proj2 (secrets_sent_once Sample.full Sample.client Sample.secrets_doc
                    eq_refl
                    (full_secrets_wellformed Sample.full eq_refl eq_refl eq_refl eq_refl)
                    eq_refl) eq_refl).
Defined.

(** C6 as stated fails: a secrets source with well-formed JSON, the
    dry-run flag off and secrets to be replaced, but the node is not
    healthy.  The run ends at the health check and sends no replace
    request. *)
Lemma unhealthy_node_gets_no_secrets :
  wellformed_source Sample.replacing_unhealthy
    (secrets_file_of Sample.replacing_unhealthy) Sample.secrets_doc /\
  dry_run_of Sample.replacing_unhealthy = false /\
  replace_secrets_of Sample.replacing_unhealthy = true /\
  count_calls is_put_secrets (trace (main Sample.replacing_unhealthy)) = 0 /\
  calls (trace (main Sample.replacing_unhealthy)) = [GetHealth] /\
  exit_code Sample.replacing_unhealthy = 1%Z.
Proof.
  split; [apply full_secrets_wellformed; reflexivity |].
  repeat split.
Qed.

(** ** Which payloads a run has *)

Lemma for_each_log (f : string -> message) (l : list string) :
  for_each l tt (fun _ var => logger_error (f var)) =
  (Ok tt, map (fun var => Log ERROR (f var)) l).
Proof.
  induction l as [| var l IH]; [reflexivity |].
  simpl. rewrite IH. reflexivity.
Qed.

(** The variables the pre-flight check misses. *)
Lemma preflight_missing (w : world) :
  let missing_vars :=
    List.filter (fun var => match environ w !! var with None => true | Some _ => false end)
      required_env_vars in
  missing_vars <> [] ->
  preflight w = (Exit 1, map (fun var => Log ERROR (RequiredMissing var)) missing_vars).
Proof.
  intros missing_vars H. unfold preflight, check_required_env_vars.
  fold missing_vars. destruct missing_vars as [| var l] eqn:E; [contradiction |].
  rewrite for_each_log. simpl. rewrite !app_nil_r. reflexivity.
Qed.

Lemma bind_ret_tt (m : M unit) : bind m (fun _ => ret tt) = m.
Proof.
  destruct m as [[[] | e | c] t]; simpl; try reflexivity.
  rewrite app_nil_r. reflexivity.
Qed.

Lemma skipped_secrets (w : world) sesam_node source dry_run replace_secrets :
  present source = None ->
  deploy_secrets w sesam_node source dry_run replace_secrets = ret tt.
Proof. intros H. unfold deploy_secrets. rewrite H. reflexivity. Qed.

Lemma skipped_variables (w : world) sesam_node source dry_run :
  present source = None ->
  deploy_variables w sesam_node source dry_run = ret tt.
Proof. intros H. unfold deploy_variables. rewrite H. reflexivity. Qed.

Lemma skipped_config (w : world) sesam_node source dry_run use_whitelist force_config :
  present source = None ->
  deploy_config w sesam_node source dry_run use_whitelist force_config = ret tt.
Proof. intros H. unfold deploy_config. rewrite H. reflexivity. Qed.

(** A pre-flight check that passes has found the folder variable. *)
Lemma preflight_config_folder (w : world) :
  outcome_of (preflight w) = Ok tt -> config_folder_of w <> None.
Proof.
  intros P H. rewrite preflight_missing in P; [discriminate P |].
  unfold config_folder_of in H. unfold required_env_vars. simpl. rewrite H.
  destruct (environ w !! INPUT_NODE), (environ w !! INPUT_JWT); discriminate.
Qed.

Lemma present_none (source : option string) :
  present source = None <-> source = None \/ source = Some "".
Proof.
  unfold present. destruct source as [s |]; [| split; auto].
  destruct (String.eqb_spec s "") as [-> | N]; split; auto; try discriminate.
  intros [H | H]; [discriminate H | injection H as ->; contradiction].
Qed.

(** A step with a source announces itself first; one without does
    nothing. *)
Lemma secrets_step_skipped (w : world) sesam_node :
  secrets_step w sesam_node = ret tt <-> present (secrets_file_of w) = None.
Proof.
  split; [| apply skipped_secrets].
  unfold secrets_step, deploy_secrets.
  destruct (present (secrets_file_of w)) as [path |]; [| reflexivity].
  intros H. apply (f_equal trace) in H. rewrite trace_bind in H. discriminate H.
Qed.

Lemma variables_step_skipped (w : world) sesam_node :
  variables_step w sesam_node = ret tt <-> present (variables_file_of w) = None.
Proof.
  split; [| apply skipped_variables].
  unfold variables_step, deploy_variables.
  destruct (present (variables_file_of w)) as [path |]; [| reflexivity].
  intros H. apply (f_equal trace) in H. rewrite trace_bind in H. discriminate H.
Qed.

Lemma config_step_skipped (w : world) sesam_node :
  config_step w sesam_node = ret tt <-> present (config_folder_of w) = None.
Proof.
  split; [| apply skipped_config].
  unfold config_step, deploy_config.
  destruct (present (config_folder_of w)) as [path |]; [| reflexivity].
  intros H. apply (f_equal trace) in H. rewrite trace_bind in H. discriminate H.
Qed.

Lemma config_step_starts (w : world) sesam_node folder :
  present (config_folder_of w) = Some folder ->
  attempted Config (trace (config_step w sesam_node)) = true.
Proof.
  intros H. unfold config_step, deploy_config. rewrite H, trace_bind. reflexivity.
Qed.

(** C5, as the code has it.  The secrets step and the variables step
    do nothing exactly when their source is not given (the variable
    unset or empty), each on its own.  The configuration folder is a
    required input: when its variable is unset the run fails the
    pre-flight check and exits with status 1, having logged the
    missing variables and nothing else (no client, no request).  With
    the variable set to the empty string the run is the run without a
    config step; and in a run that has passed the pre-flight check the
    config step does nothing exactly when the variable is the empty
    string: with any other value the step is attempted once the
    secrets step and the variables step have returned. *)
Theorem payloads_optional_config_variable_required (w : world) :
  (forall sesam_node,
     secrets_step w sesam_node = ret tt <-> present (secrets_file_of w) = None) /\
  (forall sesam_node,
     variables_step w sesam_node = ret tt <-> present (variables_file_of w) = None) /\
  (forall sesam_node,
     outcome_of (preflight w) = Ok tt ->
     (config_step w sesam_node = ret tt <-> config_folder_of w = Some "")) /\
  (forall sesam_node folder,
     config_folder_of w = Some folder ->
     folder <> "" ->
     outcome_of (startup w) = Ok sesam_node ->
     outcome_of (secrets_step w sesam_node) = Ok tt ->
     outcome_of (variables_step w sesam_node) = Ok tt ->
     attempted Config (trace (main w)) = true) /\
  (config_folder_of w = None ->
   main w =
   (Exit 1,
    map (fun var => Log ERROR (RequiredMissing var))
      (List.filter
         (fun var => match environ w !! var with None => true | Some _ => false end)
         required_env_vars))) /\
  (config_folder_of w = Some "" ->
   main w =
   report_failure
     (sesam_node <- startup w ;;
      secrets_step w sesam_node ;;
      variables_step w sesam_node)%py).
Proof.
  split; [| split; [| split; [| split; [| split]]]].
  - intros sesam_node. apply secrets_step_skipped.
  - intros sesam_node. apply variables_step_skipped.
  - intros sesam_node P. rewrite config_step_skipped, present_none.
    split; [| intros H; right; exact H].
    intros [H | H]; [| exact H].
    destruct (preflight_config_folder w P H).
  - intros sesam_node folder Hf Hne S F1 F2.
    rewrite (trace_started w sesam_node S), trace_deployment, F1, F2.
    rewrite !attempted_app.
    rewrite (config_step_starts w sesam_node folder).
    + rewrite !orb_true_r. reflexivity.
    + rewrite Hf. unfold present.
      destruct (String.eqb_spec folder "") as [E | _]; [contradiction | reflexivity].
  - intros H. rewrite main_parts. unfold startup.
    rewrite preflight_missing.
    + reflexivity.
    + unfold config_folder_of in H. unfold required_env_vars. simpl.
      rewrite H.
      destruct (environ w !! INPUT_NODE), (environ w !! INPUT_JWT); discriminate.
  - intros H. rewrite main_parts. f_equal. apply bind_ext. intros sesam_node.
    unfold deployment. apply bind_ext. intros _.
    unfold config_step. rewrite skipped_config; [apply bind_ret_tt |].
    rewrite H. reflexivity.
Qed.

Lemma payloads_optional_config_variable_required_witness :
  secrets_step Sample.plain Sample.client = ret tt /\
  variables_step Sample.plain Sample.client = ret tt /\
  config_step Sample.empty_config_folder Sample.client = ret tt /\
  attempted Config (trace (main Sample.plain)) = true /\
  main Sample.no_config_folder =
    (Exit 1, [Log ERROR (RequiredMissing "INPUT_CONFIG_FOLDER")]) /\
  main Sample.empty_config_folder =
    report_failure
      (sesam_node <- startup Sample.empty_config_folder ;;
       secrets_step Sample.empty_config_folder sesam_node ;;
       variables_step Sample.empty_config_folder sesam_node)%py.
Proof.
  split; [| split; [| split; [| split; [| split]]]].
  - exact (proj2 (proj1 (payloads_optional_config_variable_required Sample.plain)
                    Sample.client) eq_refl).
  - exact (proj2 (proj1 (proj2 (payloads_optional_config_variable_required Sample.plain))
                    Sample.client) eq_refl).
  - exact (proj2 (proj1 (proj2 (proj2
                    (payloads_optional_config_variable_required
                       Sample.empty_config_folder)))
                    Sample.client eq_refl) eq_refl).
  - refine (proj1 (proj2 (proj2 (proj2
                    (payloads_optional_config_variable_required Sample.plain))))
              Sample.client "cfg" eq_refl _ eq_refl eq_refl eq_refl).
    discriminate.
  - exact (proj1 (proj2 (proj2 (proj2 (proj2
             (payloads_optional_config_variable_required Sample.no_config_folder)))))
             eq_refl).
  - exact (proj2 (proj2 (proj2 (proj2 (proj2
             (payloads_optional_config_variable_required Sample.empty_config_folder)))))
             eq_refl).
Defined.

(** C5 as stated fails: with the node, the token and everything else
    in order but no configuration folder given, the run does not go on
    without a config step; it exits with status 1 in the pre-flight
    check and never contacts the node.  (With the variable set to the
    empty string the same run succeeds.) *)
Lemma missing_config_folder_fails_run :
  config_folder_of Sample.no_config_folder = None /\
  main Sample.no_config_folder =
    (Exit 1, [Log ERROR (RequiredMissing "INPUT_CONFIG_FOLDER")]) /\
  exit_code Sample.no_config_folder = 1%Z /\
  calls (trace (main Sample.no_config_folder)) = [] /\
  exit_code Sample.empty_config_folder = 0%Z.
Proof. repeat split. Qed.

(** ** Boolean flags *)

Lemma existsb_eqb_In (v : string) (l : list string) :
  existsb (String.eqb v) l = true <-> In v l.
Proof.
  rewrite existsb_exists. split.
  - intros (x & Hx & E). apply String.eqb_eq in E. subst x. exact Hx.
  - intros H. exists v. split; [exact H | apply String.eqb_refl].
Qed.

Lemma existsb_eqb_not_In (v : string) (l : list string) :
  existsb (String.eqb v) l = false <-> ~ In v l.
Proof.
  rewrite <- existsb_eqb_In. symmetry. apply not_true_iff_false.
Qed.

(** C10.  A flag value is read without regard to case: the words
    [true], [1] and [yes] give true and the words [false], [0] and [no]
    give false, whatever the default; every other value gives the
    default, which is false for each flag that [main] reads.  So a
    dry-run variable that is set to something else turns the dry run
    off, although the dry run is on when the variable is unset. *)
Theorem parse_bool_env_words (w : world) (v : string) :
  (In (Str.lower v) ["true"; "1"; "yes"] ->
   forall default, parse_bool_env (Some v) default = true) /\
  (In (Str.lower v) ["false"; "0"; "no"] ->
   forall default, parse_bool_env (Some v) default = false) /\
  (~ In (Str.lower v) ["true"; "1"; "yes"; "false"; "0"; "no"] ->
   (forall default, parse_bool_env (Some v) default = default) /\
   (forall name fallback,
      environ w !! name = Some v ->
      parse_bool_env (environ_get w name fallback) false = false) /\
   (environ w !! INPUT_DRY_RUN = Some v -> dry_run_of w = false)) /\
  (environ w !! INPUT_DRY_RUN = None -> dry_run_of w = true).
Proof.
  split; [| split; [| split]].
  - intros H default. unfold parse_bool_env.
    apply existsb_eqb_In in H. rewrite H. reflexivity.
  - intros H default. unfold parse_bool_env.
    assert (N : ~ In (Str.lower v) ["true"; "1"; "yes"]).
    { intros N. simpl in H, N.
      repeat match goal with
             | H : _ \/ _ |- _ => destruct H
             | H : False |- _ => destruct H
             end; congruence. }
    apply existsb_eqb_not_In in N. apply existsb_eqb_In in H.
    rewrite N, H. reflexivity.
  - intros H.
    assert (Hd : forall default, parse_bool_env (Some v) default = default).
    { intros default. unfold parse_bool_env.
      assert (N1 : ~ In (Str.lower v) ["true"; "1"; "yes"])
        by (intros N; apply H; simpl in *; tauto).
      assert (N2 : ~ In (Str.lower v) ["false"; "0"; "no"])
        by (intros N; apply H; simpl in *; tauto).
      apply existsb_eqb_not_In in N1, N2. rewrite N1, N2. reflexivity. }
    split; [exact Hd | split].
    + intros name fallback E. unfold environ_get. rewrite E. apply Hd.
    + intros E. unfold dry_run_of, environ_get. rewrite E. apply Hd.
  - intros E. unfold dry_run_of, environ_get. rewrite E. reflexivity.
Qed.

Lemma odd_word_not_boolean :
  ~ In (Str.lower "on") ["true"; "1"; "yes"; "false"; "0"; "no"].
Proof.
  simpl. intros H.
  repeat match goal with
         | H : _ \/ _ |- _ => destruct H
         | H : False |- _ => destruct H
         | H : _ = _ |- _ => discriminate H
         end.
Defined.

Lemma parse_bool_env_words_witness :
  parse_bool_env (Some "YES") false = true /\
  parse_bool_env (Some "No") true = false /\
  parse_bool_env (Some "on") true = true /\
  dry_run_of Sample.odd_dry_run = false /\
  dry_run_of Sample.plain = true.
Proof.
  split; [| split; [| split; [| split]]].
  - apply (proj1 (parse_bool_env_words Sample.plain "YES")).
    simpl. right. right. left. reflexivity.
  - apply (proj1 (proj2 (parse_bool_env_words Sample.plain "No"))).
    simpl. right. right. left. reflexivity.
  - apply (proj1 (proj2 (proj2 (parse_bool_env_words Sample.plain "on")))
             odd_word_not_boolean).
  - apply (proj1 (proj2 (proj2 (parse_bool_env_words Sample.odd_dry_run "on")))
             odd_word_not_boolean).
    reflexivity.
  - apply (proj2 (proj2 (proj2 (parse_bool_env_words Sample.plain "")))).
    reflexivity.
Defined.

(** ** Packaging that fails *)

(** What [deploy_config] does after [create_zipped_config] has
    returned [None]: in a dry run it goes on and returns; otherwise it
    opens the path [None] and raises [TypeError]. *)
Lemma deploy_config_after_failed_packaging (w : world) sesam_node folder
    dry_run use_whitelist force_config :
  folder <> "" ->
  outcome_of (create_zipped_config w folder "config.zip" use_whitelist) = Ok None ->
  outcome_of (deploy_config w sesam_node (Some folder) dry_run use_whitelist force_config)
  = if dry_run then Ok tt else Raise TypeError.
Proof.
  intros Hf Hzip. unfold deploy_config, present.
  destruct (String.eqb_spec folder "") as [E | _]; [contradiction |].
  rewrite !outcome_bind. simpl. rewrite Hzip.
  destruct dry_run; reflexivity.
Qed.

(** C2 fails on the code.  The folder [locked] holds a pipe that the
    process may not read, so packaging fails and returns [None].  In a
    dry run the config step logs the error of the archive, then reports
    the dry run like a step that went well, and the process exits with
    status 0.  With the dry run off the step passes [None] to [open],
    which raises [TypeError]; that, not a packaging failure, is what
    ends the run. *)
Theorem failed_packaging_is_used_as_bundle :
  create_zipped_config Sample.locked_dry "locked" "config.zip" false =
    (Ok None, [Log ERROR (ZipFailed (PermissionError "locked/pipes/a.conf.json"))]) /\
  config_step Sample.locked_dry Sample.client =
    (Ok tt,
     [Log INFO (DeployingConfig "locked"); Log INFO (DryRunIs true);
      Log INFO (UseWhitelistIs false); Log INFO (ForceConfigIs false);
      Log ERROR (ZipFailed (PermissionError "locked/pipes/a.conf.json"));
      Log INFO DryRunNoConfig]) /\
  exit_code Sample.locked_dry = 0%Z /\
  config_step Sample.locked_live Sample.client =
    (Raise TypeError,
     [Log INFO (DeployingConfig "locked"); Log INFO (DryRunIs false);
      Log INFO (UseWhitelistIs false); Log INFO (ForceConfigIs false);
      Log ERROR (ZipFailed (PermissionError "locked/pipes/a.conf.json"))]) /\
  exit_code Sample.locked_live = 1%Z.
Proof. repeat split. Qed.

(** ** Paths *)

Lemma valid_name_parts (name : string) :
  valid_name name = true ->
  name <> "" /\ name <> "." /\ name <> ".." /\ no_sep name = true.
Proof.
  unfold valid_name. rewrite !andb_true_iff, !negb_true_iff.
  intros [[[H1 H2] H3] H4]. repeat split; try assumption.
  all: intros ->; discriminate.
Qed.

Lemma valid_name_no_sep (name : string) : valid_name name = true -> no_sep name = true.
Proof. intros H. apply (valid_name_parts name H). Qed.

Lemma valid_name_not_empty (name : string) : valid_name name = true -> name <> "".
Proof. intros H. apply (valid_name_parts name H). Qed.

Lemma append_assoc (a b c : string) : (a +:+ b) +:+ c = a +:+ (b +:+ c).
Proof.
  induction a as [| x a IH]; [reflexivity |].
  change (String x ((a +:+ b) +:+ c) = String x (a +:+ (b +:+ c))).
  rewrite IH. reflexivity.
Qed.

Lemma split_not_nil (sep : ascii) (s : string) : Str.split sep s <> [].
Proof.
  destruct s as [| c s]; simpl; [discriminate |].
  destruct (Ascii.eqb c sep); [discriminate |].
  destruct (Str.split sep s); discriminate.
Qed.

Lemma split_no_sep (a : string) :
  no_sep a = true -> Str.split Path.sep a = [a].
Proof.
  induction a as [| c a IH]; [reflexivity |].
  unfold no_sep. simpl. intros H. apply andb_true_iff in H as [Hc Ha].
  apply negb_true_iff in Hc. rewrite Hc.
  unfold no_sep in IH. rewrite (IH Ha). reflexivity.
Qed.

Lemma split_app_sep (x y : string) :
  Str.split Path.sep (x +:+ String Path.sep y) =
  Str.split Path.sep x ++ Str.split Path.sep y.
Proof.
  induction x as [| c x IH]; [reflexivity |].
  simpl. destruct (Ascii.eqb c Path.sep).
  - rewrite IH. reflexivity.
  - rewrite IH. pose proof (split_not_nil Path.sep x) as N.
    destruct (Str.split Path.sep x); [contradiction | reflexivity].
Qed.

(** Splitting a joined path gives back its components. *)
Lemma split_concat (l : list string) :
  l <> [] ->
  Forall (fun name => valid_name name = true) l ->
  Str.split Path.sep (String.concat "/" l) = l.
Proof.
  induction l as [| a l IH]; [contradiction |].
  intros _ H. inversion H as [| ? ? Ha Hl]; subst.
  destruct l as [| b l].
  - simpl. apply split_no_sep, valid_name_no_sep, Ha.
  - change (String.concat "/" (a :: b :: l))
      with (a +:+ String Path.sep (String.concat "/" (b :: l))).
    rewrite split_app_sep, (split_no_sep a (valid_name_no_sep a Ha)).
    rewrite IH; [reflexivity | discriminate | exact Hl].
Qed.

(** Two files with the same relative path are the same file of the
    same directory. *)
Lemma rel_name_inj (rel rel' : list string) (file file' : string) :
  Forall (fun name => valid_name name = true) (rel ++ [file]) ->
  Forall (fun name => valid_name name = true) (rel' ++ [file']) ->
  rel_name rel file = rel_name rel' file' ->
  rel = rel' /\ file = file'.
Proof.
  intros H H' E. unfold rel_name in E.
  apply (f_equal (Str.split Path.sep)) in E.
  rewrite !split_concat in E; try assumption.
  - apply app_inj_tail in E. exact E.
  - destruct rel'; discriminate.
  - destruct rel; discriminate.
Qed.

(** The relative path of a file is not the name of a directory entry
    of the archive. *)
Lemma rel_name_not_dir_entry (rel : list string) (file name : string) :
  Forall (fun name => valid_name name = true) (rel ++ [file]) ->
  valid_name name = true ->
  rel_name rel file <> name +:+ "/".
Proof.
  intros H Hn E. unfold rel_name in E.
  apply (f_equal (Str.split Path.sep)) in E.
  rewrite split_concat in E; [| destruct rel; discriminate | exact H].
  change (name +:+ "/") with (name +:+ String Path.sep "") in E.
  rewrite split_app_sep, (split_no_sep name (valid_name_no_sep name Hn)) in E.
  apply app_inj_tail in E as [_ E].
  apply Forall_app in H as [_ H]. inversion H as [| ? ? Hf _]; subst.
  discriminate Hf.
Qed.

(** A string that ends in a slash is some string and then the slash. *)
Lemma endswith_sep (a : string) :
  Str.endswith a "/" = true -> exists a', a = a' +:+ String Path.sep "".
Proof.
  unfold Str.endswith. simpl String.length.
  induction a as [| c a IH]; [discriminate |].
  destruct a as [| c' a].
  - simpl. destruct (Ascii.eqb_spec c "/"%char) as [-> | N].
    + intros _. exists "". reflexivity.
    + intros H. discriminate H.
  - intros H.
    destruct IH as (a' & E).
    { simpl in *. rewrite Nat.sub_0_r in *. exact H. }
    exists (String c a'). rewrite E. reflexivity.
Qed.

Lemma startswith_valid_name (name : string) :
  valid_name name = true -> Str.startswith name "/" = false.
Proof.
  intros H. destruct (valid_name_parts name H) as (Hne & _ & _ & Hsep).
  destruct name as [| c name]; [contradiction |].
  unfold no_sep in Hsep. simpl in Hsep.
  apply andb_true_iff in Hsep as [Hc _]. apply negb_true_iff in Hc.
  unfold Str.startswith.
  change (match Ascii.ascii_dec "/"%char c with
          | left _ => String.prefix "" name
          | right _ => false
          end = false).
  destruct (Ascii.ascii_dec "/"%char c) as [E | _]; [| reflexivity].
  subst c. discriminate Hc.
Qed.

Lemma startswith_app (a b : string) :
  a <> "" -> Str.startswith (a +:+ b) "/" = Str.startswith a "/".
Proof.
  destruct a as [| c a]; [contradiction |]. intros _.
  unfold Str.startswith.
  change (match Ascii.ascii_dec "/"%char c with
          | left _ => String.prefix "" (a +:+ b)
          | right _ => false
          end =
          match Ascii.ascii_dec "/"%char c with
          | left _ => String.prefix "" a
          | right _ => false
          end).
  destruct (Ascii.ascii_dec "/"%char c); [| reflexivity].
  destruct a, b; reflexivity.
Qed.

(** Joining a plain name to a path that is not empty: the result
    starts like the path, and its components are those of the path
    (less an empty last one) and then the name. *)
Lemma join_valid_name (a name : string) :
  a <> "" ->
  valid_name name = true ->
  Path.join a name <> "" /\
  Str.startswith (Path.join a name) "/" = Str.startswith a "/" /\
  exists comps,
    Str.split Path.sep (Path.join a name) = comps ++ [name] /\
    (Str.split Path.sep a = comps \/ Str.split Path.sep a = comps ++ [""]).
Proof.
  intros Ha H. pose proof (valid_name_no_sep name H) as Hsep.
  unfold Path.join. rewrite (startswith_valid_name name H).
  destruct (String.eqb_spec a "") as [E | _]; [contradiction |].
  change (false || Str.endswith a "/") with (Str.endswith a "/").
  destruct (Str.endswith a "/") eqn:E.
  - destruct (endswith_sep a E) as (a' & ->). repeat split.
    + destruct a'; discriminate.
    + apply startswith_app. destruct a'; discriminate.
    + exists (Str.split Path.sep a'). split.
      * rewrite append_assoc.
        change (String Path.sep "" +:+ name) with (String Path.sep name).
        rewrite split_app_sep, (split_no_sep name Hsep). reflexivity.
      * right. apply split_app_sep.
  - repeat split.
    + destruct a; [contradiction | discriminate].
    + apply startswith_app, Ha.
    + exists (Str.split Path.sep a). split; [| left; reflexivity].
      change ("/" +:+ name) with (String Path.sep name).
      rewrite split_app_sep, (split_no_sep name Hsep). reflexivity.
Qed.

(** Below the top, the base name that packaging tests is the name of
    the directory itself. *)
Lemma basename_join (a name : string) :
  valid_name name = true -> Path.basename (Path.join a name) = name.
Proof.
  intros H. destruct (String.eqb_spec a "") as [-> | Ha].
  - unfold Path.join. rewrite (startswith_valid_name name H).
    change (Path.basename name = name). unfold Path.basename.
    rewrite (split_no_sep name (valid_name_no_sep name H)). reflexivity.
  - destruct (join_valid_name a name Ha H) as (_ & _ & comps & E & _).
    unfold Path.basename. rewrite E. apply last_last.
Qed.

Lemma basename_dir_path (top : string) (rel : list string) (name : string) :
  valid_name name = true ->
  Path.basename (dir_path top (rel ++ [name])) = name.
Proof.
  intros H. unfold dir_path. rewrite fold_left_app. simpl.
  apply basename_join, H.
Qed.

Lemma dir_path_not_empty (top : string) (rel : list string) :
  top <> "" ->
  Forall (fun name => valid_name name = true) rel ->
  dir_path top rel <> "".
Proof.
  intros Ht H. revert top Ht. unfold dir_path.
  induction H as [| name rel Hn _ IH]; intros top Ht; [exact Ht |].
  simpl. apply IH. apply (join_valid_name top name Ht Hn).
Qed.

(** ** Relative paths *)

Lemma normalise_app (kept l1 l2 : list string) :
  Path.normalise kept (l1 ++ l2) = Path.normalise (Path.normalise kept l1) l2.
Proof. unfold Path.normalise. apply fold_left_app. Qed.

Lemma normalise_valid_name (kept : list string) (name : string) :
  valid_name name = true -> Path.normalise kept [name] = kept ++ [name].
Proof.
  intros H. destruct (valid_name_parts name H) as (H1 & H2 & H3 & _).
  unfold Path.normalise. simpl.
  destruct (String.eqb_spec name "") as [E | _]; [contradiction |].
  destruct (String.eqb_spec name ".") as [E | _]; [contradiction |].
  destruct (String.eqb_spec name "..") as [E | _]; [contradiction |].
  reflexivity.
Qed.

(** The absolute path of a directory of the walk: that of the top and
    then the names on the way. *)
Lemma abs_components_join (cwd : list string) (a name : string) :
  a <> "" ->
  valid_name name = true ->
  Path.abs_components cwd (Path.join a name) = Path.abs_components cwd a ++ [name].
Proof.
  intros Ha H. unfold Path.abs_components.
  destruct (join_valid_name a name Ha H) as (_ & -> & comps & -> & [-> | ->]).
  - rewrite normalise_app. apply normalise_valid_name, H.
  - rewrite !normalise_app. rewrite (normalise_valid_name _ name H). reflexivity.
Qed.

Lemma abs_components_dir_path (cwd : list string) (top : string) (rel : list string) :
  top <> "" ->
  Forall (fun name => valid_name name = true) rel ->
  Path.abs_components cwd (dir_path top rel) = Path.abs_components cwd top ++ rel.
Proof.
  intros Ht H. revert top Ht. unfold dir_path.
  induction H as [| name rel Hn _ IH]; intros top Ht; simpl.
  - rewrite app_nil_r. reflexivity.
  - rewrite IH by apply (join_valid_name top name Ht Hn).
    rewrite (abs_components_join cwd top name Ht Hn), <- app_assoc. reflexivity.
Qed.

Lemma common_prefix_app (a b : list string) :
  Path.common_prefix a (a ++ b) = a.
Proof.
  induction a as [| x a IH]; [destruct b; reflexivity |].
  simpl. rewrite String.eqb_refl, IH. reflexivity.
Qed.

(** The relative path that packaging computes for a file of the walk
    is the path of the file below the top. *)
Lemma relpath_below (w : world) (top : string) (rel : list string) (file : string) :
  top <> "" ->
  Forall (fun name => valid_name name = true) (rel ++ [file]) ->
  os_path_relpath w (Path.join (dir_path top rel) file) top = rel_name rel file.
Proof.
  intros Ht H. unfold os_path_relpath, Path.relpath.
  replace (Path.join (dir_path top rel) file) with (dir_path top (rel ++ [file]))
    by (unfold dir_path; rewrite fold_left_app; reflexivity).
  rewrite (abs_components_dir_path (cwd w) top (rel ++ [file]) Ht H).
  rewrite common_prefix_app, Nat.sub_diag. simpl repeat. simpl app at 1.
  rewrite skipn_app, skipn_all, Nat.sub_diag. simpl.
  unfold rel_name. destruct (rel ++ [file]) eqn:E; [| reflexivity].
  destruct rel; discriminate E.
Qed.

(** ** Resolving the paths of the walk *)

Lemma resolve_app (start : option (list node)) (l1 l2 : list string) :
  resolve start (l1 ++ l2) = resolve (resolve start l1) l2.
Proof. unfold resolve. apply fold_left_app. Qed.

Lemma descend_valid_name (position : list node) (name : string) :
  valid_name name = true ->
  descend position name =
  match position with
  | Dir entries :: _ =>
      match assoc name entries with
      | Some child => Some (child :: position)
      | None => None
      end
  | _ => None
  end.
Proof.
  intros H. destruct (valid_name_parts name H) as (H1 & H2 & H3 & _).
  destruct position as [| [readable data | entries] above]; try reflexivity.
  unfold descend.
  destruct (String.eqb_spec name "") as [E | _]; [contradiction |].
  destruct (String.eqb_spec name ".") as [E | _]; [contradiction |].
  destruct (String.eqb_spec name "..") as [E | _]; [contradiction |].
  reflexivity.
Qed.

(** What a path with one more name leads to: the entry of that name in
    the directory that the path names. *)
Lemma os_stat_join (w : world) (a name : string) :
  a <> "" ->
  valid_name name = true ->
  os_stat w (Path.join a name) =
  match os_stat w a with
  | Some (Dir entries) => assoc name entries
  | _ => None
  end.
Proof.
  intros Ha H. unfold os_stat, locate.
  destruct (join_valid_name a name Ha H) as (Hj & -> & comps & -> & Hsplit).
  destruct (String.eqb_spec (Path.join a name) "") as [E | _]; [contradiction |].
  destruct (String.eqb_spec a "") as [E | _]; [contradiction |].
  set (start := if Str.startswith a "/" then Some [fs_root w]
                else resolve (Some [fs_root w]) (cwd w)).
  rewrite resolve_app.
  assert (Hlast : forall r,
            resolve r [name] =
            match r with
            | Some (Dir entries :: above) =>
                match assoc name entries with
                | Some child => Some (child :: Dir entries :: above)
                | None => None
                end
            | _ => None
            end).
  { intros [position |]; [| reflexivity].
    change (resolve (Some position) [name]) with (descend position name).
    rewrite (descend_valid_name position name H).
    destruct position as [| [? ? | entries] above]; reflexivity. }
  rewrite Hlast.
  destruct Hsplit as [-> | ->].
  - destruct (resolve start comps) as [[| [readable data | entries] above] |];
      try reflexivity.
    destruct (assoc name entries); reflexivity.
  - rewrite resolve_app.
    destruct (resolve start comps) as [[| [readable data | entries] above] |];
      try reflexivity.
    change (resolve (Some (Dir entries :: above)) [""])
      with (Some (Dir entries :: above)).
    destruct (assoc name entries); reflexivity.
Qed.

Lemma os_stat_not_empty (w : world) (path : string) (n : node) :
  os_stat w path = Some n -> path <> "".
Proof. intros H ->. discriminate H. Qed.

(** ** Walking the tree *)

(** Induction over a tree, with the claim for every entry of a
    directory at hand. *)
Lemma node_induction (P : node -> Prop) :
  (forall readable data, P (File readable data)) ->
  (forall entries, Forall (fun e => P (snd e)) entries -> P (Dir entries)) ->
  forall n, P n.
Proof.
  intros HF HD.
  fix IH 1. intros [readable data | entries].
  - apply HF.
  - apply HD. induction entries as [| [name child] entries IHe].
    + constructor.
    + constructor; [apply IH | exact IHe].
Qed.

Lemma walk_node_Dir (w : world) (root : string) (entries : list (string * node)) :
  walk_node w root (Dir entries) =
  if can_list w root then
    item_of root entries
    :: flat_map (fun e =>
                   if is_dir (snd e) && negb (os_path_islink w (Path.join root (fst e)))
                   then walk_node w (Path.join root (fst e)) (snd e)
                   else [])
         entries
  else [].
Proof.
  simpl. destruct (can_list w root); [| reflexivity].
  unfold item_of. f_equal.
  induction entries as [| [name child] entries IH]; [reflexivity |].
  simpl. rewrite IH. reflexivity.
Qed.

Lemma dir_at_is_dir (n : node) (rel : list string) (entries : list (string * node)) :
  dir_at n rel entries -> is_dir n = true.
Proof. destruct 1; reflexivity. Qed.

Lemma wf_node_Dir (entries : list (string * node)) :
  wf_node (Dir entries) =
  distinct (map fst entries)
  && forallb (fun e => valid_name (fst e)) entries
  && forallb (fun e => wf_node (snd e)) entries.
Proof.
  simpl. f_equal.
  induction entries as [| [name child] entries IH]; [reflexivity |].
  simpl. rewrite IH. reflexivity.
Qed.

(** The walk visits directories of the tree, and only those it
    reaches. *)
Lemma walk_sound (w : world) (n : node) :
  forall root item,
    In item (walk_node w root n) ->
    exists rel entries,
      dir_at n rel entries /\ walked w root rel = true /\
      item = item_of (dir_path root rel) entries.
Proof.
  induction n as [readable data | entries IH] using node_induction;
    intros root item H.
  - destruct H.
  - rewrite walk_node_Dir in H.
    destruct (can_list w root) eqn:L; [| destruct H].
    destruct H as [H | H].
    + exists [], entries. split; [constructor |].
      split; [simpl; rewrite L; reflexivity |]. symmetry. exact H.
    + apply in_flat_map in H as ([name child] & Hin & H).
      cbn [fst snd] in H.
      destruct (is_dir child && negb (os_path_islink w (Path.join root name))) eqn:G;
        [| destruct H].
      apply andb_true_iff in G as [_ G].
      rewrite List.Forall_forall in IH.
      destruct (IH (name, child) Hin _ _ H) as (rel & entries' & Hd & Hw & ->).
      exists (name :: rel), entries'. split; [econstructor; eassumption |].
      split; [| reflexivity].
      simpl. rewrite L, G, Hw. reflexivity.
Qed.

(** Every directory that the walk reaches is visited. *)
Lemma walk_complete (w : world) (n : node) (rel : list string)
    (entries : list (string * node)) :
  dir_at n rel entries ->
  forall root,
    walked w root rel = true ->
    In (item_of (dir_path root rel) entries) (walk_node w root n).
Proof.
  induction 1 as [entries | entries0 name child rel entries Hin Hd IH];
    intros root Hw; rewrite walk_node_Dir; simpl in Hw;
    apply andb_true_iff in Hw as [L Hw]; rewrite L.
  - left. reflexivity.
  - apply andb_true_iff in Hw as [G Hw].
    right. apply in_flat_map. exists (name, child). split; [exact Hin |].
    cbn [fst snd]. rewrite (dir_at_is_dir _ _ _ Hd), G. simpl.
    apply IH, Hw.
Qed.

(** In a well-formed tree every directory has entries with valid,
    distinct names, and lies on a path of valid names. *)
Lemma wf_dir_at (n : node) (rel : list string) (entries : list (string * node)) :
  dir_at n rel entries ->
  wf_node n = true ->
  Forall (fun name => valid_name name = true) rel /\
  wf_node (Dir entries) = true.
Proof.
  induction 1 as [entries | entries0 name child rel entries Hin Hd IH]; intros Hwf.
  - split; [constructor | exact Hwf].
  - rewrite wf_node_Dir in Hwf.
    apply andb_true_iff in Hwf as [Hwf Hchildren].
    apply andb_true_iff in Hwf as [_ Hnames].
    rewrite forallb_forall in Hnames, Hchildren.
    destruct (IH (Hchildren _ Hin)) as [Hrel Hentries].
    split; [| exact Hentries].
    constructor; [apply (Hnames _ Hin) | exact Hrel].
Qed.

Lemma wf_entry_name (entries : list (string * node)) (name : string) (child : node) :
  wf_node (Dir entries) = true ->
  In (name, child) entries ->
  valid_name name = true.
Proof.
  rewrite wf_node_Dir. intros Hwf Hin.
  apply andb_true_iff in Hwf as [Hwf _].
  apply andb_true_iff in Hwf as [_ Hnames].
  rewrite forallb_forall in Hnames. apply (Hnames _ Hin).
Qed.

(** With distinct names, looking a name up finds the entry. *)
Lemma assoc_distinct (entries : list (string * node)) (name : string) (child : node) :
  distinct (map fst entries) = true ->
  In (name, child) entries ->
  assoc name entries = Some child.
Proof.
  induction entries as [| [name' child'] entries IH]; [intros _ [] |].
  simpl. intros Hd Hin. apply andb_true_iff in Hd as [Hfresh Hd].
  destruct Hin as [E | Hin].
  - injection E as -> ->. rewrite String.eqb_refl. reflexivity.
  - destruct (String.eqb_spec name name') as [-> | _]; [| apply IH; assumption].
    apply negb_true_iff in Hfresh.
    assert (Hx : existsb (String.eqb name') (map fst entries) = true).
    { apply existsb_exists. exists name'. split; [| apply String.eqb_refl].
      apply in_map_iff. exists (name', child). split; [reflexivity | exact Hin]. }
    rewrite Hx in Hfresh. discriminate.
Qed.

Lemma assoc_In {A : Type} (entries : list (string * A)) (name : string) (x : A) :
  assoc name entries = Some x -> In (name, x) entries.
Proof.
  induction entries as [| [name' x'] entries IH]; [discriminate |].
  simpl. destruct (String.eqb_spec name name') as [-> | _].
  - intros E. injection E as ->. left. reflexivity.
  - intros E. right. apply IH, E.
Qed.

Lemma wf_entry_stat (entries : list (string * node)) (name : string) (child : node) :
  wf_node (Dir entries) = true ->
  In (name, child) entries ->
  assoc name entries = Some child.
Proof.
  rewrite wf_node_Dir. intros Hwf Hin.
  apply andb_true_iff in Hwf as [Hwf _].
  apply andb_true_iff in Hwf as [Hd _].
  apply assoc_distinct; assumption.
Qed.

(** The path that the walk builds for a directory of a well-formed
    tree names that directory, and the path it builds for an entry
    names that entry. *)
Lemma os_stat_dir_at (w : world) (t : node) (rel : list string)
    (entries : list (string * node)) :
  dir_at t rel entries ->
  wf_node t = true ->
  forall top,
    os_stat w top = Some t ->
    os_stat w (dir_path top rel) = Some (Dir entries).
Proof.
  induction 1 as [entries | entries0 name child rel entries Hin Hd IH];
    intros Hwf top Ht; [exact Ht |].
  pose proof (wf_entry_name _ _ _ Hwf Hin) as Hname.
  pose proof (wf_entry_stat _ _ _ Hwf Hin) as Hassoc.
  rewrite wf_node_Dir in Hwf. apply andb_true_iff in Hwf as [_ Hchildren].
  rewrite forallb_forall in Hchildren.
  change (dir_path top (name :: rel)) with (dir_path (Path.join top name) rel).
  apply IH; [apply (Hchildren _ Hin) |].
  rewrite (os_stat_join w top name (os_stat_not_empty w top _ Ht) Hname), Ht.
  exact Hassoc.
Qed.

Lemma os_stat_entry (w : world) (top : string) (t : node) (rel : list string)
    (entries : list (string * node)) (name : string) (child : node) :
  os_stat w top = Some t ->
  wf_node t = true ->
  dir_at t rel entries ->
  In (name, child) entries ->
  os_stat w (Path.join (dir_path top rel) name) = Some child.
Proof.
  intros Ht Hwf Hd Hin.
  destruct (wf_dir_at t rel entries Hd Hwf) as [Hrel Hwf'].
  rewrite os_stat_join.
  - rewrite (os_stat_dir_at w t rel entries Hd Hwf top Ht).
    apply (wf_entry_stat _ _ _ Hwf' Hin).
  - apply dir_path_not_empty; [apply (os_stat_not_empty w top t Ht) | exact Hrel].
  - apply (wf_entry_name _ _ _ Hwf' Hin).
Qed.

(** ** What packaging writes, loop by loop *)

Section Packaging.

Context (w : world) (input_folder : string) (whitelist : bool)
  (whitelist_files : gset string).

Lemma zip_write_ok (zipf zipf' : list zip_entry) (path arc : string) :
  outcome_of (zip_write w zipf path arc) = Ok zipf' ->
  exists e, entry_for arc (os_stat w path) = Some e /\ zipf' = zipf ++ [e].
Proof.
  unfold zip_write.
  destruct (os_stat w path) as [target |]; [| discriminate].
  destruct (zip_write_raises w path); [discriminate |].
  destruct target as [[|] data | entries]; simpl; intros H;
    try discriminate; injection H as <-; eexists; split; reflexivity.
Qed.

(** One file: written when it passes the whitelist and the suffix
    test, left out otherwise. *)
Lemma add_conf_file_ok (root : string) (st st' : list zip_entry * nat) (file : string) :
  outcome_of (add_conf_file w input_folder whitelist whitelist_files root st file)
  = Ok st' ->
  if picks w input_folder whitelist whitelist_files root file
  then exists e,
         written w (Path.join root file,
                    os_path_relpath w (Path.join root file) input_folder) e /\
         st' = (fst st ++ [e], snd st + 1)
  else st' = st.
Proof.
  unfold add_conf_file, picks, passes_whitelist.
  set (listed := bool_decide
                   (os_path_relpath w (Path.join root file) input_folder
                    ∈ whitelist_files)).
  replace (negb whitelist || listed) with (negb (whitelist && negb listed))
    by (destruct whitelist, listed; reflexivity).
  destruct (whitelist && negb listed); simpl.
  - intros H. injection H as <-. reflexivity.
  - destruct (Str.endswith file CONF_SUFFIX).
    + rewrite !outcome_bind.
      match goal with
      | |- match outcome_of ?m with _ => _ end = _ -> _ =>
          destruct (outcome_of m) as [zipf | e | c] eqn:Z
      end; try discriminate.
      simpl. intros H. injection H as <-.
      destruct (zip_write_ok _ _ _ _ Z) as (e & He & ->).
      exists e. split; [exact He | reflexivity].
    + intros H. injection H as <-. reflexivity.
Qed.

(** The files of one directory. *)
Lemma inner_loop_ok (root : string) (files : list string) :
  forall st st',
    outcome_of (for_each files st
                  (add_conf_file w input_folder whitelist whitelist_files root))
    = Ok st' ->
    exists es,
      Forall2 (written w)
        (map (fun file =>
                (Path.join root file,
                 os_path_relpath w (Path.join root file) input_folder))
           (List.filter (picks w input_folder whitelist whitelist_files root) files))
        es /\
      st' = (fst st ++ es, snd st + List.length es).
Proof.
  induction files as [| f files IH]; intros st st'; simpl.
  - intros H. injection H as <-. exists []. split; [constructor |].
    rewrite app_nil_r, Nat.add_0_r. destruct st; reflexivity.
  - rewrite outcome_bind.
    destruct (outcome_of (add_conf_file w input_folder whitelist whitelist_files root st f))
      as [st1 | e | c] eqn:A; try discriminate.
    intros H. destruct (IH st1 st' H) as (es & Hes & ->).
    apply add_conf_file_ok in A.
    destruct (picks w input_folder whitelist whitelist_files root f).
    + destruct A as (e & He & ->). exists (e :: es). split.
      * constructor; assumption.
      * simpl. rewrite <- app_assoc. f_equal. simpl. lia.
    + subst st1. exists es. split; [exact Hes | reflexivity].
Qed.

(** All directories. *)
Lemma outer_loop_ok (items : list walk_item) :
  forall st st',
    outcome_of
      (for_each items st
         (fun st item =>
            if config_dir (wi_root item)
            then for_each (wi_files item) st
                   (add_conf_file w input_folder whitelist whitelist_files
                      (wi_root item))
            else ret st)) = Ok st' ->
    exists es,
      Forall2 (written w)
        (flat_map (chosen w input_folder whitelist whitelist_files) items) es /\
      st' = (fst st ++ es, snd st + List.length es).
Proof.
  induction items as [| item items IH]; intros st st'; simpl.
  - intros H. injection H as <-. exists []. split; [constructor |].
    rewrite app_nil_r, Nat.add_0_r. destruct st; reflexivity.
  - rewrite outcome_bind. unfold chosen at 1.
    destruct (config_dir (wi_root item)).
    + destruct (outcome_of (for_each (wi_files item) st _)) as [st1 | e | c] eqn:A;
        try discriminate.
      intros H. destruct (IH st1 st' H) as (es & Hes & ->).
      destruct (inner_loop_ok _ _ _ _ A) as (es1 & Hes1 & ->).
      exists (es1 ++ es). split.
      * apply Forall2_app; assumption.
      * simpl. rewrite <- app_assoc, List.length_app. f_equal. lia.
    + simpl. intros H. destruct (IH st st' H) as (es & Hes & ->).
      exists es. split; [exact Hes | reflexivity].
Qed.

End Packaging.

(** The whitelist that packaging reads. *)
Lemma read_whitelist_ok (w : world) (input_folder : string) (whitelist_files : gset string) :
  outcome_of (read_whitelist w input_folder true) = Ok whitelist_files ->
  whitelist_files = whitelist_set w input_folder.
Proof.
  unfold read_whitelist, whitelist_set, os_path_exists, open_read.
  rewrite outcome_bind. simpl.
  destruct (os_stat w (Path.join (Path.join input_folder "deployment") "whitelist.txt"))
    as [[[|] text | entries] |];
    simpl; intros H; try discriminate; injection H as <-; reflexivity.
Qed.

(** A bundle is the metadata entry, if any, and then the chosen files
    in the order of the walk. *)
Lemma packaged_bundle (w : world) (input_folder : string) (whitelist : bool)
    (bundle : list zip_entry) :
  packaged w input_folder whitelist bundle ->
  exists whitelist_files meta es,
    (whitelist = true -> whitelist_files = whitelist_set w input_folder) /\
    metadata_entries w input_folder whitelist whitelist_files meta /\
    Forall2 (written w)
      (flat_map (chosen w input_folder whitelist whitelist_files)
         (os_walk w input_folder)) es /\
    bundle = meta ++ es.
Proof.
  intros (output_zip & H). unfold create_zipped_config in H.
  rewrite outcome_try_except in H.
  match type of H with
  | match outcome_of ?b with _ => _ end = _ =>
      destruct (outcome_of b) as [r | e | c] eqn:B
  end.
  2: { destruct (is_os_error e); [rewrite outcome_bind in H |]; discriminate H. }
  2: discriminate H.
  injection H as ->.
  rewrite outcome_bind in B.
  destruct (outcome_of (lift (zip_create w output_zip))) as [[] | e | c]; try discriminate.
  rewrite outcome_bind in B.
  destruct (outcome_of (read_whitelist w input_folder whitelist))
    as [whitelist_files | e | c] eqn:W; try discriminate.
  rewrite outcome_bind in B.
  match type of B with
  | match outcome_of ?m with _ => _ end = _ =>
      destruct (outcome_of m) as [meta | e | c] eqn:Hmeta
  end; try discriminate.
  rewrite outcome_bind in B.
  match type of B with
  | match outcome_of ?m with _ => _ end = _ =>
      destruct (outcome_of m) as [st | e | c] eqn:L
  end; try discriminate.
  rewrite outcome_bind in B. simpl in B. injection B as <-.
  destruct (outer_loop_ok w input_folder whitelist whitelist_files _ _ _ L)
    as (es & Hes & ->).
  exists whitelist_files, meta, es. repeat split.
  - intros ->. apply read_whitelist_ok, W.
  - unfold metadata_entries.
    fold (passes_whitelist whitelist whitelist_files NODE_METADATA) in Hmeta.
    destruct (os_path_exists w (Path.join input_folder NODE_METADATA)
              && passes_whitelist whitelist whitelist_files NODE_METADATA).
    + rewrite !outcome_bind in Hmeta.
      destruct (outcome_of (zip_write w [] _ NODE_METADATA))
        as [zipf | e | c] eqn:Z; try discriminate.
      simpl in Hmeta. injection Hmeta as <-.
      destruct (zip_write_ok _ _ _ _ _ Z) as (e & He & ->).
      exists e. split; [exact He | reflexivity].
    + injection Hmeta as <-. reflexivity.
  - exact Hes.
Qed.

(** ** The files of a bundle *)

Lemma written_of_In_r (w : world) (cs : list (string * string)) (es : list zip_entry)
    (e : zip_entry) :
  Forall2 (written w) cs es -> In e es -> exists c, In c cs /\ written w c e.
Proof.
  induction 1 as [| c e' cs es Hc _ IH]; [intros [] |].
  intros [-> | Hin].
  - exists c. split; [left; reflexivity | exact Hc].
  - destruct (IH Hin) as (c' & Hc' & Hw). exists c'. split; [right |]; assumption.
Qed.

Lemma written_of_In_l (w : world) (cs : list (string * string)) (es : list zip_entry)
    (c : string * string) :
  Forall2 (written w) cs es -> In c cs -> exists e, In e es /\ written w c e.
Proof.
  induction 1 as [| c' e cs es Hc _ IH]; [intros [] |].
  intros [-> | Hin].
  - exists e. split; [left; reflexivity | exact Hc].
  - destruct (IH Hin) as (e' & He' & Hw). exists e'. split; [right |]; assumption.
Qed.

(** A file that is written is readable and keeps its name and text. *)
Lemma written_file (w : world) (path arc : string) (target : node) (e : zip_entry) :
  written w (path, arc) e ->
  os_stat w path = Some target ->
  is_dir target = false ->
  exists data, target = File true data /\ e = ZipEntry arc data.
Proof.
  unfold written. simpl. intros H S. rewrite S in H.
  destruct target as [[|] data | entries]; simpl in *; intros Hd; try discriminate.
  injection H as <-. exists data. split; reflexivity.
Qed.

(** The names on the way to a file of a well-formed tree. *)
Lemma valid_position (t : node) (rel : list string) (entries : list (string * node))
    (file : string) (target : node) :
  wf_node t = true ->
  dir_at t rel entries ->
  In (file, target) entries ->
  Forall (fun name => valid_name name = true) (rel ++ [file]).
Proof.
  intros Hwf Hd Hin. destruct (wf_dir_at t rel entries Hd Hwf) as [Hrel Hentries].
  apply Forall_app. split; [exact Hrel |].
  constructor; [| constructor]. apply (wf_entry_name entries file target Hentries Hin).
Qed.

(** What the loops choose are the files that pass the three tests, in
    the directories of the tree that the walk reaches; each is written
    under its path relative to the top. *)
Lemma in_chosen (w : world) (input_folder : string) (whitelist : bool)
    (whitelist_files : gset string) (c : string * string) :
  wf_tree w input_folder = true ->
  In c (flat_map (chosen w input_folder whitelist whitelist_files)
          (os_walk w input_folder)) <->
  exists t rel entries file target,
    os_stat w input_folder = Some t /\
    dir_at t rel entries /\
    walked w input_folder rel = true /\
    In (file, target) entries /\
    is_dir target = false /\
    c = (Path.join (dir_path input_folder rel) file, rel_name rel file) /\
    config_dir (dir_path input_folder rel) = true /\
    passes_whitelist whitelist whitelist_files (rel_name rel file) = true /\
    Str.endswith file CONF_SUFFIX = true.
Proof.
  unfold os_walk, wf_tree. intros Hwf. split.
  - intros H. apply in_flat_map in H as (item & Hitem & Hc).
    destruct (os_stat w input_folder) as [t |] eqn:T; [| destruct Hitem].
    destruct (walk_sound w t _ _ Hitem) as (rel & entries & Hd & Hw & ->).
    unfold chosen in Hc. simpl in Hc.
    destruct (config_dir (dir_path input_folder rel)) eqn:Hdir; [| destruct Hc].
    apply in_map_iff in Hc as (file & <- & Hf).
    apply filter_In in Hf as [Hf Hpick].
    apply in_map_iff in Hf as ([file' target] & E & Hf). simpl in E. subst file'.
    apply filter_In in Hf as [Hf Hnd]. simpl in Hnd. apply negb_true_iff in Hnd.
    pose proof (valid_position t rel entries file target Hwf Hd Hf) as Hvalid.
    pose proof (relpath_below w input_folder rel file
                  (os_stat_not_empty w input_folder t T) Hvalid) as R.
    unfold picks in Hpick. rewrite R in Hpick.
    apply andb_true_iff in Hpick as [Hadm Hsuf].
    exists t, rel, entries, file, target. rewrite R. repeat split; assumption.
  - intros (t & rel & entries & file & target
            & T & Hd & Hw & Hin & Hnd & -> & Hdir & Hadm & Hsuf).
    rewrite T in Hwf |- *.
    pose proof (valid_position t rel entries file target Hwf Hd Hin) as Hvalid.
    pose proof (relpath_below w input_folder rel file
                  (os_stat_not_empty w input_folder t T) Hvalid) as R.
    apply in_flat_map.
    exists (item_of (dir_path input_folder rel) entries). split.
    + apply (walk_complete w t rel entries Hd input_folder Hw).
    + unfold chosen. simpl. rewrite Hdir. apply in_map_iff.
      exists file. split; [rewrite R; reflexivity |].
      apply filter_In. split.
      * apply in_map_iff. exists (file, target). split; [reflexivity |].
        apply filter_In. split; [exact Hin | simpl; rewrite Hnd; reflexivity].
      * unfold picks. rewrite R, Hadm, Hsuf. reflexivity.
Qed.

Lemma config_dir_iff (root : string) :
  config_dir root = true <->
  Path.basename root = "pipes" \/ Path.basename root = "systems".
Proof.
  unfold config_dir. simpl. rewrite orb_false_r, orb_true_iff.
  rewrite !String.eqb_eq. reflexivity.
Qed.

Lemma passes_whitelist_iff (whitelist : bool) (whitelist_files : gset string) (path : string) :
  passes_whitelist whitelist whitelist_files path = true <->
  whitelist = false \/ path ∈ whitelist_files.
Proof.
  unfold passes_whitelist. rewrite orb_true_iff, negb_true_iff, bool_decide_eq_true.
  reflexivity.
Qed.

Lemma in_bundle_app (path : string) (meta es : list zip_entry) :
  in_bundle path (meta ++ es) <-> in_bundle path meta \/ in_bundle path es.
Proof. unfold in_bundle. rewrite map_app. apply in_app_iff. Qed.

(** An entry that the loops have written bears the relative path of a
    file that passes the three tests, in a directory that the walk
    reaches. *)
Lemma chosen_entry (w : world) (input_folder : string) (whitelist : bool)
    (whitelist_files : gset string) (es : list zip_entry) (path : string) :
  wf_tree w input_folder = true ->
  Forall2 (written w)
    (flat_map (chosen w input_folder whitelist whitelist_files)
       (os_walk w input_folder)) es ->
  in_bundle path es ->
  exists t rel entries file data,
    os_stat w input_folder = Some t /\
    dir_at t rel entries /\
    walked w input_folder rel = true /\
    In (file, File true data) entries /\
    path = rel_name rel file /\
    config_dir (dir_path input_folder rel) = true /\
    passes_whitelist whitelist whitelist_files (rel_name rel file) = true /\
    Str.endswith file CONF_SUFFIX = true.
Proof.
  intros Hwf Hes H. apply in_map_iff in H as (e & Harc & He).
  destruct (written_of_In_r w _ _ _ Hes He) as (c & Hc & Hw).
  apply (in_chosen w input_folder whitelist whitelist_files c Hwf) in Hc
    as (t & rel & entries & file & target
        & T & Hd & Hreach & Hin & Hnd & -> & Hdir & Hadm & Hsuf).
  unfold wf_tree in Hwf. rewrite T in Hwf.
  pose proof (os_stat_entry w input_folder t rel entries file target T Hwf Hd Hin) as S.
  destruct (written_file w _ _ _ _ Hw S Hnd) as (data & -> & ->).
  exists t, rel, entries, file, data. simpl in Harc.
  repeat split; try assumption. symmetry. exact Harc.
Qed.

(** The chosen files in a bundle, by their relative path. *)
Lemma chosen_in_bundle (w : world) (input_folder : string) (whitelist : bool)
    (whitelist_files : gset string) (es : list zip_entry) (rel : list string)
    (file : string) :
  wf_tree w input_folder = true ->
  Forall2 (written w)
    (flat_map (chosen w input_folder whitelist whitelist_files)
       (os_walk w input_folder)) es ->
  file_at w input_folder rel file ->
  in_bundle (rel_name rel file) es <->
  walked w input_folder rel = true /\
  config_dir (dir_path input_folder rel) = true /\
  passes_whitelist whitelist whitelist_files (rel_name rel file) = true /\
  Str.endswith file CONF_SUFFIX = true.
Proof.
  intros Hwf Hes (t & entries & readable & data & T & Hd & Hin).
  pose proof Hwf as Hwft. unfold wf_tree in Hwft. rewrite T in Hwft.
  pose proof (valid_position t rel entries file _ Hwft Hd Hin) as Hvalid.
  split.
  - intros H.
    destruct (chosen_entry w input_folder whitelist whitelist_files es _ Hwf Hes H)
      as (t' & rel' & entries' & file' & data'
          & T' & Hd' & Hreach & Hin' & E & Hdir & Hadm & Hsuf).
    rewrite T in T'. injection T' as <-.
    pose proof (valid_position t rel' entries' file' _ Hwft Hd' Hin') as Hvalid'.
    destruct (rel_name_inj _ _ _ _ Hvalid Hvalid' E) as [<- <-].
    repeat split; assumption.
  - intros (Hreach & Hdir & Hadm & Hsuf).
    assert (Hc : In (Path.join (dir_path input_folder rel) file, rel_name rel file)
                   (flat_map (chosen w input_folder whitelist whitelist_files)
                      (os_walk w input_folder))).
    { apply (in_chosen w input_folder whitelist whitelist_files _ Hwf).
      exists t, rel, entries, file, (File readable data).
      repeat split; assumption. }
    destruct (written_of_In_l w _ _ _ Hes Hc) as (e & He & Hw).
    pose proof (os_stat_entry w input_folder t rel entries file _ T Hwft Hd Hin) as S.
    destruct (written_file w _ _ _ _ Hw S eq_refl) as (data' & _ & ->).
    apply in_map_iff. exists (ZipEntry (rel_name rel file) data').
    split; [reflexivity | exact He].
Qed.

(** The metadata entry of a bundle. *)
Lemma metadata_in_bundle (w : world) (input_folder : string) (whitelist : bool)
    (whitelist_files : gset string) (meta : list zip_entry) :
  metadata_entries w input_folder whitelist whitelist_files meta ->
  (in_bundle NODE_METADATA meta <->
   metadata_file_exists w input_folder /\
   passes_whitelist whitelist whitelist_files NODE_METADATA = true) /\
  (forall path, in_bundle path meta ->
     path = NODE_METADATA \/ path = NODE_METADATA +:+ "/").
Proof.
  unfold metadata_entries, metadata_file_exists, os_path_exists. intros H.
  destruct (os_stat w (Path.join input_folder NODE_METADATA)) as [target |] eqn:T;
    simpl in H.
  2: { subst meta. split; [| intros path []].
       split; [intros [] | intros [(r & d & E) _]; discriminate E]. }
  destruct (passes_whitelist whitelist whitelist_files NODE_METADATA).
  2: { subst meta. split; [| intros path []].
       split; [intros [] | intros [_ E]; discriminate E]. }
  destruct H as (e & He & ->).
  destruct target as [[|] data | entries]; simpl in He; try discriminate;
    injection He as <-.
  - split.
    + split; [intros _ | intros _; left; reflexivity].
      split; [exists true, data; reflexivity | reflexivity].
    + intros path [<- | []]. left. reflexivity.
  - split.
    + split.
      * intros [E | []]. discriminate E.
      * intros [(r & d & E) _]. discriminate E.
    + intros path [<- | []]. right. reflexivity.
Qed.

(** C3, as the code has it.  For a configuration tree whose
    directories have valid, distinct names, and a bundle that
    packaging has produced: a file of the tree other than the root
    metadata file is in the bundle (an entry bears its path relative
    to the root) exactly when the walk reaches the directory it lies
    in (the folder and every directory on the way can be listed, and
    none of those below the folder is a symbolic link), that directory
    has the base name [pipes] or [systems] (for a directory below the
    top this is its own name, [basename_dir_path]), the name of the
    file ends in [conf.json], and the whitelist is off or lists its
    relative path; and the root metadata file
    [node-metadata.conf.json] is in the bundle exactly when it exists
    and the whitelist is off or lists it. *)
Theorem bundle_membership (w : world) (input_folder : string) (whitelist : bool)
    (bundle : list zip_entry) :
  wf_tree w input_folder = true ->
  packaged w input_folder whitelist bundle ->
  (forall rel file,
     file_at w input_folder rel file ->
     rel_name rel file <> NODE_METADATA ->
     (in_bundle (rel_name rel file) bundle <->
      walked w input_folder rel = true /\
      (Path.basename (dir_path input_folder rel) = "pipes" \/
       Path.basename (dir_path input_folder rel) = "systems") /\
      Str.endswith file CONF_SUFFIX = true /\
      (whitelist = false \/ rel_name rel file ∈ whitelist_set w input_folder))) /\
  (in_bundle NODE_METADATA bundle <->
   metadata_file_exists w input_folder /\
   (whitelist = false \/ NODE_METADATA ∈ whitelist_set w input_folder)).
Proof.
  intros Hwf Hpk.
  destruct (packaged_bundle w input_folder whitelist bundle Hpk)
    as (whitelist_files & meta & es & HWL & Hmeta & Hes & ->).
  assert (Hadm : forall path,
            passes_whitelist whitelist whitelist_files path = true <->
            whitelist = false \/ path ∈ whitelist_set w input_folder).
  { intros path. rewrite passes_whitelist_iff. destruct whitelist.
    - rewrite (HWL eq_refl). reflexivity.
    - split; intros _; left; reflexivity. }
  destruct (metadata_in_bundle w input_folder whitelist whitelist_files meta Hmeta)
    as [Hmeta_in Hmeta_names].
  split.
  - intros rel file Hfile Hnot.
    rewrite in_bundle_app, <- config_dir_iff, <- Hadm.
    rewrite (chosen_in_bundle w input_folder whitelist whitelist_files es rel file
               Hwf Hes Hfile).
    split; [| intros (H0 & H1 & H2 & H3); right; repeat split; assumption].
    intros [H | (H0 & H1 & H2 & H3)]; [| repeat split; assumption].
    exfalso. destruct (Hmeta_names _ H) as [E | E]; [exact (Hnot E) |].
    destruct Hfile as (t & entries & readable & data & T & Hd & Hin).
    unfold wf_tree in Hwf. rewrite T in Hwf.
    apply (rel_name_not_dir_entry rel file NODE_METADATA); [| reflexivity | exact E].
    apply (valid_position t rel entries file _ Hwf Hd Hin).
  - rewrite in_bundle_app, Hmeta_in, <- Hadm. split; [| intros H; left; exact H].
    intros [H | H]; [exact H |].
    destruct (chosen_entry w input_folder whitelist whitelist_files es _ Hwf Hes H)
      as (t & rel & entries & file & data
          & T & Hd & Hreach & Hin & E & Hdir & Hadm' & Hsuf).
    unfold wf_tree in Hwf. rewrite T in Hwf.
    pose proof (valid_position t rel entries file _ Hwf Hd Hin) as Hvalid.
    assert (Hroot : Forall (fun name => valid_name name = true) ([] ++ [NODE_METADATA]))
      by (repeat constructor).
    destruct (rel_name_inj [] rel NODE_METADATA file Hroot Hvalid E) as [<- <-].
    split; [| exact Hadm'].
    exists true, data.
    apply (os_stat_entry w input_folder t [] entries NODE_METADATA _ T Hwf Hd Hin).
Qed.

Lemma sample_cfg_packaged_whitelisted :
  packaged Sample.plain "cfg" true
    [ZipEntry "pipes/a.conf.json" "pipe a";
     ZipEntry "other/pipes/d.conf.json" "pipe d"].
Proof. exists "config.zip". vm_compute. reflexivity. Defined.

Lemma sample_cfg_packaged_all :
  packaged Sample.plain "cfg" false
    [ZipEntry "node-metadata.conf.json" "metadata";
     ZipEntry "pipes/a.conf.json" "pipe a";
     ZipEntry "systems/b.conf.json" "system b";
     ZipEntry "other/pipes/d.conf.json" "pipe d"].
Proof. exists "config.zip". vm_compute. reflexivity. Defined.

Lemma sample_pipe_a_at : file_at Sample.plain "cfg" ["pipes"] "a.conf.json".
Proof.
  exists Sample.tree,
    [("a.conf.json", File true "pipe a"); ("notes.txt", File true "notes")],
    true, "pipe a".
  split; [reflexivity | split].
  - eapply dir_at_sub; [right; left; reflexivity | constructor].
  - left. reflexivity.
Defined.

Lemma sample_pipe_a_not_metadata : rel_name ["pipes"] "a.conf.json" <> NODE_METADATA.
Proof. intros H. discriminate H. Defined.

Lemma bundle_membership_witness :
  (in_bundle (rel_name ["pipes"] "a.conf.json")
     [ZipEntry "pipes/a.conf.json" "pipe a";
      ZipEntry "other/pipes/d.conf.json" "pipe d"] <->
   walked Sample.plain "cfg" ["pipes"] = true /\
   (Path.basename (dir_path "cfg" ["pipes"]) = "pipes" \/
    Path.basename (dir_path "cfg" ["pipes"]) = "systems") /\
   Str.endswith "a.conf.json" CONF_SUFFIX = true /\
   (true = false \/
    rel_name ["pipes"] "a.conf.json" ∈ whitelist_set Sample.plain "cfg")) /\
  (in_bundle NODE_METADATA
     [ZipEntry "pipes/a.conf.json" "pipe a";
      ZipEntry "other/pipes/d.conf.json" "pipe d"] <->
   metadata_file_exists Sample.plain "cfg" /\
   (true = false \/ NODE_METADATA ∈ whitelist_set Sample.plain "cfg")).
Proof.
  destruct (bundle_membership Sample.plain "cfg" true _ eq_refl
              sample_cfg_packaged_whitelisted) as [H1 H2].
  split; [| exact H2].
  exact (H1 ["pipes"] "a.conf.json" sample_pipe_a_at sample_pipe_a_not_metadata).
Defined.

(** C3 as stated fails on a tree with a directory that the walk does
    not go into.  In the first world the process may search
    [cfg/pipes] but not list it, in the second [cfg/systems] is a
    symbolic link to a directory.  Packaging succeeds with the
    whitelist off; the file lies in a directory named [pipes]
    (resp. [systems]) and its name ends in [conf.json], yet it is not
    in the bundle. *)
Lemma skipped_directory_left_out :
  (wf_tree Edge.unlisted "cfg" = true /\
   packaged Edge.unlisted "cfg" false
     [ZipEntry "node-metadata.conf.json" "metadata";
      ZipEntry "systems/b.conf.json" "system b";
      ZipEntry "other/pipes/d.conf.json" "pipe d"] /\
   file_at Edge.unlisted "cfg" ["pipes"] "a.conf.json" /\
   rel_name ["pipes"] "a.conf.json" <> NODE_METADATA /\
   Path.basename (dir_path "cfg" ["pipes"]) = "pipes" /\
   Str.endswith "a.conf.json" CONF_SUFFIX = true /\
   ~ in_bundle (rel_name ["pipes"] "a.conf.json")
       [ZipEntry "node-metadata.conf.json" "metadata";
        ZipEntry "systems/b.conf.json" "system b";
        ZipEntry "other/pipes/d.conf.json" "pipe d"]) /\
  (wf_tree Edge.linked_systems "cfg" = true /\
   packaged Edge.linked_systems "cfg" false
     [ZipEntry "node-metadata.conf.json" "metadata";
      ZipEntry "pipes/a.conf.json" "pipe a";
      ZipEntry "other/pipes/d.conf.json" "pipe d"] /\
   file_at Edge.linked_systems "cfg" ["systems"] "b.conf.json" /\
   rel_name ["systems"] "b.conf.json" <> NODE_METADATA /\
   Path.basename (dir_path "cfg" ["systems"]) = "systems" /\
   Str.endswith "b.conf.json" CONF_SUFFIX = true /\
   ~ in_bundle (rel_name ["systems"] "b.conf.json")
       [ZipEntry "node-metadata.conf.json" "metadata";
        ZipEntry "pipes/a.conf.json" "pipe a";
        ZipEntry "other/pipes/d.conf.json" "pipe d"]).
Proof.
  split.
  - split; [reflexivity |].
    split; [exists "config.zip"; vm_compute; reflexivity |].
    split.
    { exists Sample.tree,
        [("a.conf.json", File true "pipe a"); ("notes.txt", File true "notes")],
        true, "pipe a".
      split; [reflexivity | split].
      - eapply dir_at_sub; [right; left; reflexivity | constructor].
      - left. reflexivity. }
    split; [intros H; discriminate H |].
    split; [reflexivity |]. split; [reflexivity |].
    intros H. vm_compute in H. intuition discriminate.
  - split; [reflexivity |].
    split; [exists "config.zip"; vm_compute; reflexivity |].
    split.
    { exists Sample.tree, [("b.conf.json", File true "system b")], true, "system b".
      split; [reflexivity | split].
      - eapply dir_at_sub; [right; right; left; reflexivity | constructor].
      - left. reflexivity. }
    split; [intros H; discriminate H |].
    split; [reflexivity |]. split; [reflexivity |].
    intros H. vm_compute in H. intuition discriminate.
Qed.

(** The folder itself may be a symbolic link: the walk starts in it
    all the same. *)
Lemma linked_folder_is_walked :
  packaged Edge.linked_folder "cfg" false
    [ZipEntry "node-metadata.conf.json" "metadata";
     ZipEntry "pipes/a.conf.json" "pipe a";
     ZipEntry "systems/b.conf.json" "system b";
     ZipEntry "other/pipes/d.conf.json" "pipe d"].
Proof. exists "config.zip". vm_compute. reflexivity. Qed.

(** ** The whitelist narrows *)

Lemma written_functional (w : world) (c : string * string) (e e' : zip_entry) :
  written w c e -> written w c e' -> e = e'.
Proof. unfold written. intros H H'. rewrite H in H'. injection H' as <-. reflexivity. Qed.

(** What the loops choose with the whitelist on, they choose with it
    off. *)
Lemma chosen_without_whitelist (w : world) (input_folder : string)
    (whitelist_files whitelist_files' : gset string) (items : list walk_item)
    (c : string * string) :
  In c (flat_map (chosen w input_folder true whitelist_files) items) ->
  In c (flat_map (chosen w input_folder false whitelist_files') items).
Proof.
  rewrite !in_flat_map. intros (item & Hitem & Hc). exists item.
  split; [exact Hitem |]. unfold chosen in *.
  destruct (config_dir (wi_root item)); [| exact Hc].
  apply in_map_iff in Hc as (file & <- & Hf). apply in_map_iff.
  exists file. split; [reflexivity |].
  apply filter_In in Hf as [Hf Hpick]. apply filter_In. split; [exact Hf |].
  unfold picks in *. apply andb_true_iff in Hpick as [_ ->]. reflexivity.
Qed.

(** C8.  For one configuration tree, every entry of the bundle that
    packaging produces with the whitelist on is an entry of the bundle
    it produces with the whitelist off. *)
Theorem whitelist_only_restricts (w : world) (input_folder : string)
    (listed all : list zip_entry) :
  packaged w input_folder true listed ->
  packaged w input_folder false all ->
  incl listed all.
Proof.
  intros H1 H2.
  destruct (packaged_bundle w input_folder true listed H1)
    as (wl1 & meta1 & es1 & _ & Hmeta1 & Hes1 & ->).
  destruct (packaged_bundle w input_folder false all H2)
    as (wl2 & meta2 & es2 & _ & Hmeta2 & Hes2 & ->).
  intros e He. apply in_app_iff in He. apply in_app_iff. destruct He as [He | He].
  - left. unfold metadata_entries in Hmeta1, Hmeta2.
    destruct (os_path_exists w (Path.join input_folder NODE_METADATA));
      simpl in Hmeta1, Hmeta2.
    + destruct Hmeta2 as (e2 & E2 & ->).
      destruct (passes_whitelist true wl1 NODE_METADATA); [| subst meta1; destruct He].
      destruct Hmeta1 as (e1 & E1 & ->).
      rewrite E1 in E2. injection E2 as <-. exact He.
    + subst meta1. destruct He.
  - right. destruct (written_of_In_r w _ _ _ Hes1 He) as (c & Hc & Hw).
    apply (chosen_without_whitelist w input_folder wl1 wl2) in Hc.
    destruct (written_of_In_l w _ _ _ Hes2 Hc) as (e' & He' & Hw').
    rewrite (written_functional w c e e' Hw Hw'). exact He'.
Qed.

Lemma whitelist_only_restricts_witness :
  incl [ZipEntry "pipes/a.conf.json" "pipe a";
        ZipEntry "other/pipes/d.conf.json" "pipe d"]
       [ZipEntry "node-metadata.conf.json" "metadata";
        ZipEntry "pipes/a.conf.json" "pipe a";
        ZipEntry "systems/b.conf.json" "system b";
        ZipEntry "other/pipes/d.conf.json" "pipe d"].
Proof.
  exact (whitelist_only_restricts Sample.plain "cfg" _ _
           sample_cfg_packaged_whitelisted sample_cfg_packaged_all).
Defined.

(** * The single functions *)

(** ** The pre-flight check *)

Lemma filter_unset (w : world) (required_vars : list string) :
  List.filter
    (fun var => match environ w !! var with None => true | Some _ => false end)
    required_vars
  = unset_vars w required_vars.
Proof.
  unfold unset_vars. apply filter_ext. intros var.
  destruct (environ w !! var); reflexivity.
Qed.

Lemma check_required_env_vars_eq (w : world) (required_vars : list string) :
  check_required_env_vars w required_vars =
  (Ok (bool_decide (unset_vars w required_vars = [])), missing_reports w required_vars).
Proof.
  unfold check_required_env_vars, missing_reports. rewrite filter_unset.
  destruct (unset_vars w required_vars) as [| var l]; [reflexivity |].
  rewrite for_each_log. simpl. rewrite !app_nil_r. reflexivity.
Qed.

Lemma unset_vars_nil (w : world) (required_vars : list string) :
  unset_vars w required_vars = [] <->
  forall var, In var required_vars -> is_Some (environ w !! var).
Proof.
  unfold unset_vars. split.
  - intros H var Hin. destruct (environ w !! var) as [value |] eqn:E; [eauto |].
    assert (Hf : In var (List.filter (fun var => bool_decide (environ w !! var = None))
                           required_vars)).
    { apply filter_In. split; [exact Hin |]. apply bool_decide_eq_true. exact E. }
    rewrite H in Hf. destruct Hf.
  - intros H. induction required_vars as [| var l IH]; [reflexivity |].
    simpl. destruct (H var (or_introl eq_refl)) as [value E]. rewrite E.
    rewrite bool_decide_eq_false_2 by discriminate.
    apply IH. intros var' Hin. apply H. right. exact Hin.
Qed.

(** X1.  [check_required_env_vars] answers true exactly when every
    variable of the list is set in the environment, be it to the empty
    string; it logs one error for each variable that is not set, in
    the order of the list, and nothing else; it neither raises nor
    ends the process. *)
Theorem required_variables_checked (w : world) (required_vars : list string) :
  (outcome_of (check_required_env_vars w required_vars) = Ok true <->
   forall var, In var required_vars -> is_Some (environ w !! var)) /\
  (outcome_of (check_required_env_vars w required_vars) <> Ok true ->
   outcome_of (check_required_env_vars w required_vars) = Ok false) /\
  trace (check_required_env_vars w required_vars) =
  map (fun var => Log ERROR (RequiredMissing var))
    (List.filter (fun var => bool_decide (environ w !! var = None)) required_vars).
Proof.
  rewrite check_required_env_vars_eq. unfold outcome_of, trace. simpl.
  split; [| split; [| reflexivity]].
  - rewrite <- unset_vars_nil. split.
    + intros H. injection H as H. apply bool_decide_eq_true in H. exact H.
    + intros H. rewrite bool_decide_eq_true_2 by exact H. reflexivity.
  - destruct (bool_decide (unset_vars w required_vars = [])); [| reflexivity].
    intros H. destruct H. reflexivity.
Qed.

Lemma preflight_eq (w : world) :
  preflight w =
  if bool_decide (unset_vars w required_env_vars = []) then (Ok tt, [])
  else (Exit 1, missing_reports w required_env_vars).
Proof.
  unfold preflight. rewrite check_required_env_vars_eq.
  destruct (bool_decide (unset_vars w required_env_vars = [])) eqn:E.
  - apply bool_decide_eq_true in E. unfold missing_reports. rewrite E. reflexivity.
  - simpl. rewrite !app_nil_r. reflexivity.
Qed.

Lemma preflight_ok_trace (w : world) :
  outcome_of (preflight w) = Ok tt -> preflight w = (Ok tt, []).
Proof.
  rewrite preflight_eq.
  destruct (bool_decide (unset_vars w required_env_vars = []));
    [reflexivity | discriminate].
Qed.

Lemma calls_missing_reports (w : world) (required_vars : list string) :
  calls (missing_reports w required_vars) = [].
Proof.
  unfold missing_reports.
  induction (unset_vars w required_vars) as [| var l IH]; [reflexivity | exact IH].
Qed.

(** X2.  When one of the three required variables ([INPUT_NODE],
    [INPUT_JWT], [INPUT_CONFIG_FOLDER]) is not set, [main] ends the
    process with status 1; all it has logged by then is one error for
    each required variable that is not set: the client is not
    constructed and no request is sent. *)
Theorem missing_required_variable_ends_run (w : world) (var : string) :
  In var required_env_vars ->
  environ w !! var = None ->
  main w =
  (Exit 1,
   map (fun var => Log ERROR (RequiredMissing var))
     (List.filter (fun var => bool_decide (environ w !! var = None))
        required_env_vars)) /\
  In (Log ERROR (RequiredMissing var)) (trace (main w)) /\
  calls (trace (main w)) = [].
Proof.
  intros Hin Hvar.
  assert (Hmiss : In var (unset_vars w required_env_vars)).
  { apply filter_In. split; [exact Hin |]. apply bool_decide_eq_true, Hvar. }
  assert (E : main w = (Exit 1, missing_reports w required_env_vars)).
  { rewrite main_parts. unfold startup. rewrite preflight_eq.
    rewrite bool_decide_eq_false_2; [reflexivity |].
    intros N. rewrite N in Hmiss. destruct Hmiss. }
  split; [exact E | split].
  - rewrite E. unfold trace, missing_reports. simpl.
    apply in_map_iff. exists var. split; [reflexivity | exact Hmiss].
  - rewrite E. apply calls_missing_reports.
Qed.

Lemma missing_required_variable_ends_run_witness :
  main Sample.no_config_folder =
  (Exit 1, [Log ERROR (RequiredMissing INPUT_CONFIG_FOLDER)]) /\
  In (Log ERROR (RequiredMissing INPUT_CONFIG_FOLDER))
     (trace (main Sample.no_config_folder)) /\
  calls (trace (main Sample.no_config_folder)) = [].
Proof.
  exact (missing_required_variable_ends_run Sample.no_config_folder
           INPUT_CONFIG_FOLDER (or_intror (or_intror (or_introl eq_refl))) eq_refl).
Defined.

(** ** The start of a run *)

Lemma startup_after_preflight (w : world) :
  outcome_of (preflight w) = Ok tt ->
  startup w =
  (sesam_node <- construct w ;; health_check w sesam_node ;; ret sesam_node).
Proof.
  intros H. unfold startup. rewrite (preflight_ok_trace w H).
  apply (bind_ret_l tt).
Qed.

(** The health check, answer by answer. *)
Lemma health_check_eq (w : world) (sesam_node : SesamNode) :
  health_check w sesam_node =
  let asked := [Log INFO (GetHealthFrom (node_url sesam_node)); Call GetHealth] in
  match api_get_health w with
  | inl e => (Raise e, asked)
  | inr (JObj members) =>
      if status_is_ok (assoc "status" members)
      then (Ok tt, asked ++ [Log INFO (NodeStatus "OK" (assoc "node_uptime" members))])
      else (Exit 1, asked ++ [Log ERROR NodeHealthNotOk])
  | inr _ => (Raise AttributeError, asked)
  end.
Proof.
  unfold health_check, get_health.
  destruct (api_get_health w) as [e | []]; try reflexivity.
  simpl. destruct (status_is_ok (assoc "status" members)); reflexivity.
Qed.

Lemma status_is_ok_true (status : option json) :
  status_is_ok status = true <-> status = Some (JStr "ok").
Proof.
  unfold status_is_ok. split.
  - destruct status as [[] |]; try discriminate.
    intros H. apply String.eqb_eq in H. subst. reflexivity.
  - intros ->. reflexivity.
Qed.

Lemma health_check_ok (w : world) (sesam_node : SesamNode) :
  outcome_of (health_check w sesam_node) = Ok tt -> reported_ok w.
Proof.
  rewrite health_check_eq. unfold reported_ok.
  destruct (api_get_health w) as [e | []]; try discriminate.
  simpl. destruct (status_is_ok (assoc "status" members)) eqn:E; [| discriminate].
  intros _. exists members. split; [reflexivity |].
  apply status_is_ok_true, E.
Qed.

Lemma construct_never_exits (w : world) : exits_in never (construct w).
Proof.
  unfold construct, SesamNode_init, dict_get, dict_keys.
  exits_tac.
Qed.

(** What it takes for the start of a run to succeed. *)
Lemma startup_ok (w : world) (sesam_node : SesamNode) :
  outcome_of (startup w) = Ok sesam_node ->
  outcome_of (preflight w) = Ok tt /\
  outcome_of (construct w) = Ok sesam_node /\
  outcome_of (health_check w sesam_node) = Ok tt.
Proof.
  unfold startup. rewrite outcome_bind.
  destruct (outcome_of (preflight w)) as [[] | e | c]; try discriminate.
  rewrite outcome_bind.
  destruct (outcome_of (construct w)) as [n | e | c]; try discriminate.
  rewrite outcome_bind.
  destruct (outcome_of (health_check w n)) as [[] | e | c] eqn:H; try discriminate.
  simpl. intros E. injection E as <-. repeat split. exact H.
Qed.

(** A start that ends the process has logged an error last. *)
Lemma startup_exit_logged (w : world) (c : Z) :
  outcome_of (startup w) = Exit c ->
  exists t msg, trace (startup w) = t ++ [Log ERROR msg].
Proof.
  destruct (outcome_of (preflight w)) as [[] | e | c'] eqn:P.
  - rewrite (startup_after_preflight w P), outcome_bind, trace_bind.
    destruct (outcome_of (construct w)) as [n | e | c'] eqn:C; try discriminate.
    + rewrite outcome_bind, trace_bind, health_check_eq.
      destruct (api_get_health w) as [e | []]; try discriminate.
      simpl. destruct (status_is_ok (assoc "status" members)); [discriminate |].
      intros _. simpl.
      exists (trace (construct w)
              ++ [Log INFO (GetHealthFrom (node_url n)); Call GetHealth]),
        NodeHealthNotOk.
      rewrite <- !app_assoc. reflexivity.
    + destruct (construct_never_exits w c' C).
  - unfold startup. rewrite outcome_bind, P. discriminate.
  - intros _. unfold startup. rewrite trace_bind, P, app_nil_r.
    rewrite preflight_eq in P |- *.
    destruct (bool_decide (unset_vars w required_env_vars = [])) eqn:E;
      [discriminate P |].
    apply bool_decide_eq_false in E.
    destruct (exists_last E) as (l & var & El).
    exists (map (fun var => Log ERROR (RequiredMissing var)) l), (RequiredMissing var).
    unfold trace. cbn [snd]. unfold missing_reports. rewrite El, map_app.
    reflexivity.
Qed.

(** X3.  [main] lets no exception escape: the process ends normally
    (status 0) or with status 1, and a run that ends with status 1 has
    logged an error as its last record (a missing variable, the node
    not being healthy, or the exception that was caught). *)
Theorem run_ends_with_status_zero_or_one (w : world) :
  (outcome_of (main w) = Ok tt /\ exit_code w = 0%Z) \/
  (outcome_of (main w) = Exit 1 /\ exit_code w = 1%Z /\
   exists t msg, trace (main w) = t ++ [Log ERROR msg]).
Proof.
  unfold exit_code.
  destruct (outcome_main_cases w) as [E | E]; rewrite E;
    [left; split; reflexivity | right].
  split; [reflexivity | split; [reflexivity |]].
  rewrite outcome_main in E. rewrite trace_main.
  destruct (outcome_of (startup w)) as [sesam_node | e | c] eqn:S.
  - rewrite outcome_report_failure in E. rewrite trace_report_failure.
    destruct (outcome_of (deployment w sesam_node)) as [[] | e | c] eqn:D.
    + discriminate E.
    + exists (trace (startup w) ++ trace (deployment w sesam_node)), (AnErrorOccurred e).
      rewrite <- app_assoc. reflexivity.
    + destruct (exits_deployment w never sesam_node c D).
  - exists (trace (startup w)), (AnErrorOccurred e). reflexivity.
  - rewrite app_nil_r. apply (startup_exit_logged w c S).
Qed.

Lemma no_mutating_call_in (t : list event) (r : request) :
  Forall not_mutating t -> In r (calls t) -> is_mutating r = false.
Proof.
  intros H Hin. apply not_mutating_calls in H.
  rewrite forallb_forall in H. apply negb_true_iff, H, Hin.
Qed.

Lemma startup_not_mutating (w : world) : Forall not_mutating (trace (startup w)).
Proof. apply emits_startup; auto with traces. Qed.

(** X4.  A deployment step is started, and a request that changes the
    node is sent, only in a run in which the node has answered the
    health check with an object whose [status] is the string [ok]. *)
Theorem steps_need_healthy_node (w : world) :
  (exists s, attempted s (trace (main w)) = true) \/
  (exists r, In r (calls (trace (main w))) /\ is_mutating r = true) ->
  exists members,
    api_get_health w = inr (JObj members) /\
    assoc "status" members = Some (JStr "ok").
Proof.
  intros H.
  destruct (outcome_of (startup w)) as [sesam_node | e | c] eqn:S.
  - apply startup_ok in S as (_ & _ & Hh). apply (health_check_ok w sesam_node Hh).
  - exfalso. destruct H as [[s H] | (r & Hin & Hr)].
    + rewrite unstarted_run in H; [discriminate |].
      intros n. rewrite S. discriminate.
    + rewrite trace_main, S, calls_app, app_nil_r in Hin.
      rewrite (no_mutating_call_in _ r (startup_not_mutating w) Hin) in Hr.
      discriminate.
  - exfalso. destruct H as [[s H] | (r & Hin & Hr)].
    + rewrite unstarted_run in H; [discriminate |].
      intros n. rewrite S. discriminate.
    + rewrite trace_main, S, app_nil_r in Hin.
      rewrite (no_mutating_call_in _ r (startup_not_mutating w) Hin) in Hr.
      discriminate.
Qed.

Lemma steps_need_healthy_node_witness :
  exists members,
    api_get_health Sample.full = inr (JObj members) /\
    assoc "status" members = Some (JStr "ok").
Proof.
  apply (steps_need_healthy_node Sample.full).
  left. exists Secrets. vm_compute. reflexivity.
Defined.

(** X5.  When the node answers the health check with an object whose
    [status] is not the string [ok], the run ends there with status 1:
    after the records of the constructor it has logged the request,
    sent it, and logged that the node is not healthy.  The exit does
    not pass through the handler of [main], so no [An error occurred]
    record follows, and no step is started. *)
Theorem unhealthy_node_ends_run (w : world) (sesam_node : SesamNode)
    (members : list (string * json)) :
  outcome_of (preflight w) = Ok tt ->
  outcome_of (construct w) = Ok sesam_node ->
  api_get_health w = inr (JObj members) ->
  assoc "status" members <> Some (JStr "ok") ->
  main w =
  (Exit 1,
   trace (construct w)
   ++ [Log INFO (GetHealthFrom (node_url sesam_node)); Call GetHealth;
       Log ERROR NodeHealthNotOk]).
Proof.
  intros P C Hh Hs.
  assert (E : status_is_ok (assoc "status" members) = false).
  { destruct (status_is_ok (assoc "status" members)) eqn:E; [| reflexivity].
    apply status_is_ok_true in E. contradiction. }
  rewrite main_parts, (startup_after_preflight w P).
  rewrite (as_pair (construct w)), C.
  unfold report_failure, try_except. simpl.
  rewrite health_check_eq, Hh, E. simpl. reflexivity.
Qed.

Lemma unhealthy_node_ends_run_witness :
  main Sample.replacing_unhealthy =
  (Exit 1,
   trace (construct Sample.replacing_unhealthy)
   ++ [Log INFO (GetHealthFrom (node_url Sample.client)); Call GetHealth;
       Log ERROR NodeHealthNotOk]).
Proof.
  apply (unhealthy_node_ends_run Sample.replacing_unhealthy Sample.client
           [("status", JStr "starting")]).
  - vm_compute. reflexivity.
  - vm_compute. reflexivity.
  - reflexivity.
  - discriminate.
Defined.

(** ** Reading a source file, case by case *)

Lemma stat_error_cases (w : world) (path : string) :
  stat_error w path = FileNotFoundError path \/
  stat_error w path = NotADirectoryError path.
Proof.
  unfold stat_error.
  match goal with |- context [if ?b then _ else _] => destruct b end;
    [right | left]; reflexivity.
Qed.

Lemma read_json_file_eq (w : world) (path : string) :
  read_json_file w path =
  match os_stat w path with
  | None =>
      (Raise (match stat_error w path with
              | NotADirectoryError p => NotADirectoryError p
              | _ => FileNotFoundError ("File '" +:+ path +:+ "' not found.")
              end), [])
  | Some (Dir _) => (Raise (IsADirectoryError path), [])
  | Some (File false _) => (Raise (PermissionError path), [])
  | Some (File true text) =>
      match json_loads w text with
      | inr data => (Ok data, [])
      | inl detail =>
          (Raise (ValueError ("Error decoding JSON in file '" +:+ path
                              +:+ "': " +:+ detail)), [])
      end
  end.
Proof.
  unfold read_json_file, open_read.
  destruct (os_stat w path) as [[[|] text | entries] |]; try reflexivity.
  - simpl. destruct (json_loads w text); reflexivity.
  - destruct (stat_error_cases w path) as [-> | ->]; reflexivity.
Qed.

(** X6.  [read_json_file] returns a document exactly when the path
    names a file that the process can read and whose text [json.load]
    decodes to that document; it logs nothing, whatever happens. *)
Theorem read_json_file_returns_document (w : world) (path : string) (j : json) :
  (outcome_of (read_json_file w path) = Ok j <->
   exists text,
     os_stat w path = Some (File true text) /\ json_loads w text = inr j) /\
  trace (read_json_file w path) = [].
Proof.
  rewrite read_json_file_eq. split.
  - split.
    + destruct (os_stat w path) as [[[|] text | entries] |]; try discriminate.
      destruct (json_loads w text) as [detail | data] eqn:E; try discriminate.
      intros H. injection H as <-. exists text. split; [reflexivity | exact E].
    + intros (text & -> & ->). reflexivity.
  - destruct (os_stat w path) as [[[|] text | entries] |]; try reflexivity.
    destruct (json_loads w text); reflexivity.
Qed.

(** X7.  The exceptions of [read_json_file].  A [JSONDecodeError]
    never leaves the function, and a [FileNotFoundError] leaves it
    only with the message [File '<path>' not found.].  A path that
    names nothing gives that [FileNotFoundError]; a readable file that
    holds no JSON gives [ValueError] with the path and the detail of
    the decoder.  The other errors of [open] pass as they are:
    [NotADirectoryError] for a path that runs through a regular file,
    [PermissionError] for a file that the process may not read,
    [IsADirectoryError] for a directory. *)
Theorem read_json_file_errors (w : world) (path : string) :
  (forall e,
     outcome_of (read_json_file w path) = Raise e ->
     (forall detail, e <> JSONDecodeError detail) /\
     (forall msg, e = FileNotFoundError msg ->
                  msg = "File '" +:+ path +:+ "' not found.")) /\
  (os_stat w path = None ->
   stat_error w path = FileNotFoundError path ->
   outcome_of (read_json_file w path)
   = Raise (FileNotFoundError ("File '" +:+ path +:+ "' not found."))) /\
  (os_stat w path = None ->
   stat_error w path = NotADirectoryError path ->
   outcome_of (read_json_file w path) = Raise (NotADirectoryError path)) /\
  (forall text,
     os_stat w path = Some (File false text) ->
     outcome_of (read_json_file w path) = Raise (PermissionError path)) /\
  (forall entries,
     os_stat w path = Some (Dir entries) ->
     outcome_of (read_json_file w path) = Raise (IsADirectoryError path)) /\
  (forall text detail,
     os_stat w path = Some (File true text) ->
     json_loads w text = inl detail ->
     outcome_of (read_json_file w path)
     = Raise (ValueError ("Error decoding JSON in file '" +:+ path +:+ "': "
                          +:+ detail))).
Proof.
  rewrite read_json_file_eq. repeat split.
  - intros detail ->.
    destruct (os_stat w path) as [[[|] text | entries] |]; try discriminate.
    + destruct (json_loads w text); discriminate.
    + destruct (stat_error_cases w path) as [E | E]; rewrite E in H; discriminate.
  - intros msg ->.
    destruct (os_stat w path) as [[[|] text | entries] |]; try discriminate.
    + destruct (json_loads w text); discriminate.
    + destruct (stat_error_cases w path) as [E | E]; rewrite E in H;
        [injection H as <-; reflexivity | discriminate].
  - intros -> ->. reflexivity.
  - intros -> ->. reflexivity.
  - intros text ->. reflexivity.
  - intros entries ->. reflexivity.
  - intros text detail -> ->. reflexivity.
Qed.

Lemma read_json_file_errors_witness :
  outcome_of (read_json_file Sample.plain "absent.json")
  = Raise (FileNotFoundError ("File '" +:+ "absent.json" +:+ "' not found.")) /\
  outcome_of (read_json_file Sample.plain "secrets.json/x")
  = Raise (NotADirectoryError "secrets.json/x") /\
  outcome_of (read_json_file Sample.plain "locked/pipes/a.conf.json")
  = Raise (PermissionError "locked/pipes/a.conf.json") /\
  outcome_of (read_json_file Sample.plain "cfg") = Raise (IsADirectoryError "cfg") /\
  outcome_of (read_json_file Sample.plain "broken.json")
  = Raise (ValueError ("Error decoding JSON in file '" +:+ "broken.json" +:+ "': "
                       +:+ "Expecting property name enclosed in double quotes")).
Proof.
  split; [| split; [| split; [| split]]].
  - exact (proj1 (proj2 (read_json_file_errors Sample.plain "absent.json"))
             eq_refl eq_refl).
  - exact (proj1 (proj2 (proj2 (read_json_file_errors Sample.plain "secrets.json/x")))
             eq_refl eq_refl).
  - exact (proj1 (proj2 (proj2 (proj2
             (read_json_file_errors Sample.plain "locked/pipes/a.conf.json"))))
             "pipe a" eq_refl).
  - exact (proj1 (proj2 (proj2 (proj2 (proj2
             (read_json_file_errors Sample.plain "cfg")))))
             _ eq_refl).
  - exact (proj2 (proj2 (proj2 (proj2 (proj2
             (read_json_file_errors Sample.plain "broken.json")))))
             Sample.broken_text _ eq_refl eq_refl).
Defined.

(** ** The steps, one by one *)

Lemma no_call_create_zipped_config (w : world) input_folder output_zip whitelist :
  calls (trace (create_zipped_config w input_folder output_zip whitelist)) = [].
Proof. apply calls_nil, emits_create_zipped_config, no_call_logs. Qed.

(** X8.  With a variables file that holds a document and with the dry
    run off, [deploy_variables] logs the step, sends the document of
    the file in one [put_env_vars] request, and logs the answer; when
    the node refuses, the step raises the error of the request and
    logs no result.  It sends nothing else. *)
Theorem deploy_variables_sends_document (w : world) (sesam_node : SesamNode)
    (source : option string) (path text : string) (j : json) :
  present source = Some path ->
  os_stat w path = Some (File true text) ->
  json_loads w text = inr j ->
  deploy_variables w sesam_node source false =
  (match api_put_env_vars w j with inr _ => Ok tt | inl e => Raise e end,
   [Log INFO (DeployingVariables path); Log INFO (DryRunIs false);
    Log INFO (PutEnvTo (node_url sesam_node)); Call (PutEnvVars j)]
   ++ match api_put_env_vars w j with
      | inr response => [Log INFO (Result response)]
      | inl _ => []
      end).
Proof.
  intros Hp Hfile Hjson. unfold deploy_variables, put_env. rewrite Hp.
  rewrite (read_json_file_wellformed w path text j Hfile Hjson). simpl.
  destruct (api_put_env_vars w j); reflexivity.
Qed.

Lemma deploy_variables_sends_document_witness :
  deploy_variables Sample.full Sample.client (Some "variables.json") false =
  (Ok tt,
   [Log INFO (DeployingVariables "variables.json"); Log INFO (DryRunIs false);
    Log INFO (PutEnvTo (node_url Sample.client));
    Call (PutEnvVars Sample.variables_doc)]
   ++ [Log INFO (Result (JObj []))]).
Proof.
  exact (deploy_variables_sends_document Sample.full Sample.client
           (Some "variables.json") "variables.json" Sample.variables_text
           Sample.variables_doc eq_refl eq_refl eq_refl).
Defined.

(** X9.  With a secrets file that holds a document and with the dry
    run off, [deploy_secrets] sends the document of the file in one
    request: [put_secrets] when secrets are to be replaced, else
    [post_secrets]; it logs the answer, or raises the error of the
    request without logging a result. *)
Theorem deploy_secrets_sends_document (w : world) (sesam_node : SesamNode)
    (source : option string) (path text : string) (j : json) (replace_secrets : bool) :
  present source = Some path ->
  os_stat w path = Some (File true text) ->
  json_loads w text = inr j ->
  let answer := if replace_secrets then api_put_secrets w j else api_post_secrets w j in
  deploy_secrets w sesam_node source false replace_secrets =
  (match answer with inr _ => Ok tt | inl e => Raise e end,
   [Log INFO (DeployingSecrets path); Log INFO (DryRunIs false);
    Log INFO (ReplaceSecretsIs replace_secrets);
    Log INFO (if replace_secrets then PutSecretsTo (node_url sesam_node)
              else PostSecretsTo (node_url sesam_node));
    Call (if replace_secrets then PutSecrets j else PostSecrets j)]
   ++ match answer with
      | inr response => [Log INFO (Result response)]
      | inl _ => []
      end).
Proof.
  intros Hp Hfile Hjson. unfold deploy_secrets, put_secrets, post_secrets. rewrite Hp.
  rewrite (read_json_file_wellformed w path text j Hfile Hjson).
  destruct replace_secrets; simpl.
  - destruct (api_put_secrets w j); reflexivity.
  - destruct (api_post_secrets w j); reflexivity.
Qed.

Lemma deploy_secrets_sends_document_witness :
  deploy_secrets Sample.secrets_refused Sample.client (Some "secrets.json") false false =
  (Raise (ApiError "409 Conflict"),
   [Log INFO (DeployingSecrets "secrets.json"); Log INFO (DryRunIs false);
    Log INFO (ReplaceSecretsIs false);
    Log INFO (PostSecretsTo (node_url Sample.client));
    Call (PostSecrets Sample.secrets_doc)]
   ++ []).
Proof.
  exact (deploy_secrets_sends_document Sample.secrets_refused Sample.client
           (Some "secrets.json") "secrets.json" Sample.secrets_text
           Sample.secrets_doc false eq_refl eq_refl eq_refl).
Defined.

(** X10.  With the dry run off and a folder that packaging turned into
    a bundle, [deploy_config] logs the step, packages, and sends that
    bundle in one [upload_config] request with the force flag it was
    given; it logs the answer, or raises the error of the request. *)
Theorem deploy_config_uploads_bundle (w : world) (sesam_node : SesamNode)
    (source : option string) (folder : string) (use_whitelist force_config : bool)
    (bundle : list zip_entry) :
  present source = Some folder ->
  outcome_of (create_zipped_config w folder "config.zip" use_whitelist)
  = Ok (Some ("config.zip", bundle)) ->
  deploy_config w sesam_node source false use_whitelist force_config =
  (match api_upload_config w bundle force_config with
   | inr _ => Ok tt
   | inl e => Raise e
   end,
   [Log INFO (DeployingConfig folder); Log INFO (DryRunIs false);
    Log INFO (UseWhitelistIs use_whitelist); Log INFO (ForceConfigIs force_config)]
   ++ trace (create_zipped_config w folder "config.zip" use_whitelist)
   ++ [Log INFO (PutConfigTo (node_url sesam_node));
       Call (UploadConfig bundle force_config)]
   ++ match api_upload_config w bundle force_config with
      | inr response => [Log INFO (Result response)]
      | inl _ => []
      end).
Proof.
  intros Hp Hz. unfold deploy_config, put_config. rewrite Hp.
  rewrite (as_pair (create_zipped_config w folder "config.zip" use_whitelist)), Hz.
  simpl. destruct (api_upload_config w bundle force_config); simpl;
    rewrite <- ?app_assoc; reflexivity.
Qed.

Lemma deploy_config_uploads_bundle_witness :
  deploy_config Sample.plain Sample.client (Some "cfg") false false true =
  (Ok tt,
   [Log INFO (DeployingConfig "cfg"); Log INFO (DryRunIs false);
    Log INFO (UseWhitelistIs false); Log INFO (ForceConfigIs true)]
   ++ trace (create_zipped_config Sample.plain "cfg" "config.zip" false)
   ++ [Log INFO (PutConfigTo (node_url Sample.client));
       Call (UploadConfig
               [ZipEntry "node-metadata.conf.json" "metadata";
                ZipEntry "pipes/a.conf.json" "pipe a";
                ZipEntry "systems/b.conf.json" "system b";
                ZipEntry "other/pipes/d.conf.json" "pipe d"] true)]
   ++ [Log INFO (Result (JObj []))]).
Proof.
  apply (deploy_config_uploads_bundle Sample.plain Sample.client (Some "cfg") "cfg"
           false true).
  - reflexivity.
  - vm_compute. reflexivity.
Defined.

(** ** The order of the requests *)

Lemma trace_emit_then {A : Type} (ev : event) (k : M A) :
  trace (emit ev ;; k) = ev :: trace k.
Proof. destruct k as [o t]. reflexivity. Qed.

Lemma outcome_emit_then {A : Type} (ev : event) (k : M A) :
  outcome_of (emit ev ;; k) = outcome_of k.
Proof. destruct k as [o t]. reflexivity. Qed.

Lemma calls_deploy_secrets_rank (w : world) sesam_node source dry_run replace_secrets :
  at_most_one_of_rank 1
    (calls (trace (deploy_secrets w sesam_node source dry_run replace_secrets))).
Proof.
  unfold deploy_secrets, put_secrets, post_secrets.
  destruct (present source) as [path |]; [| left; reflexivity].
  rewrite read_json_file_eq.
  destruct (os_stat w path) as [[[|] text | entries] |]; try (left; reflexivity).
  destruct (json_loads w text) as [detail | j]; [left; reflexivity |].
  destruct dry_run; [left; reflexivity |].
  destruct replace_secrets; simpl.
  - destruct (api_put_secrets w j); right; eexists; split; reflexivity.
  - destruct (api_post_secrets w j); right; eexists; split; reflexivity.
Qed.

Lemma calls_deploy_variables_rank (w : world) sesam_node source dry_run :
  at_most_one_of_rank 2 (calls (trace (deploy_variables w sesam_node source dry_run))).
Proof.
  unfold deploy_variables, put_env.
  destruct (present source) as [path |]; [| left; reflexivity].
  rewrite read_json_file_eq.
  destruct (os_stat w path) as [[[|] text | entries] |]; try (left; reflexivity).
  destruct (json_loads w text) as [detail | j]; [left; reflexivity |].
  destruct dry_run; [left; reflexivity |]. simpl.
  destruct (api_put_env_vars w j); right; eexists; split; reflexivity.
Qed.

Lemma calls_deploy_config_rank (w : world) sesam_node source dry_run use_whitelist
    force_config :
  at_most_one_of_rank 3
    (calls (trace (deploy_config w sesam_node source dry_run use_whitelist
                     force_config))).
Proof.
  unfold deploy_config, put_config.
  destruct (present source) as [folder |]; [| left; reflexivity].
  unfold logger_info. rewrite !trace_emit_then, trace_bind.
  change (calls (?a :: ?b :: ?c :: ?d :: ?t)) with (calls t).
  rewrite calls_app, no_call_create_zipped_config.
  destruct (outcome_of (create_zipped_config w folder "config.zip" use_whitelist))
    as [zip_path | e | c]; try (left; reflexivity).
  destruct dry_run; [left; reflexivity |].
  destruct zip_path as [[out bundle] |]; [| left; reflexivity]. simpl.
  destruct (api_upload_config w bundle force_config);
    right; eexists; split; reflexivity.
Qed.

Lemma calls_startup_rank (w : world) :
  at_most_one_of_rank 0 (calls (trace (startup w))).
Proof.
  unfold startup. rewrite trace_bind, calls_app, no_call_preflight.
  destruct (outcome_of (preflight w)); try (left; reflexivity).
  rewrite trace_bind, calls_app, no_call_construct.
  destruct (outcome_of (construct w)) as [sesam_node | e | c]; try (left; reflexivity).
  rewrite trace_bind, calls_app, calls_health_check.
  right. exists GetHealth. split; [| reflexivity].
  destruct (outcome_of (health_check w sesam_node)); reflexivity.
Qed.

Lemma at_most_none (k : nat) : at_most_one_of_rank k [].
Proof. left. reflexivity. Qed.

(** X11.  The requests of a run, in the order in which it sends them:
    at most one health check, then at most one secrets request, then
    at most one variables request, then at most one upload of the
    configuration.  No run sends two requests of one kind, and none
    sends them in another order. *)
Theorem requests_in_order (w : world) :
  exists health secrets variables config,
    calls (trace (main w)) = health ++ secrets ++ variables ++ config /\
    at_most_one_of_rank 0 health /\
    at_most_one_of_rank 1 secrets /\
    at_most_one_of_rank 2 variables /\
    at_most_one_of_rank 3 config.
Proof.
  exists (calls (trace (startup w))).
  rewrite trace_main, calls_app.
  destruct (outcome_of (startup w)) as [sesam_node | e | c].
  - rewrite trace_report_failure, calls_app, trace_deployment, calls_app.
    assert (Hend : forall o : outcome unit,
              calls match o with
                    | Raise e => [Log ERROR (AnErrorOccurred e)]
                    | _ => []
                    end = [])
      by (intros [[] | e | c]; reflexivity).
    rewrite Hend, app_nil_r.
    exists (calls (trace (secrets_step w sesam_node))).
    pose proof (calls_startup_rank w) as H0.
    pose proof (calls_deploy_secrets_rank w sesam_node (secrets_file_of w)
                  (dry_run_of w) (replace_secrets_of w)) as H1.
    pose proof (calls_deploy_variables_rank w sesam_node (variables_file_of w)
                  (dry_run_of w)) as H2.
    pose proof (calls_deploy_config_rank w sesam_node (config_folder_of w)
                  (dry_run_of w) (use_whitelist_of w) (force_config_of w)) as H3.
    destruct (outcome_of (secrets_step w sesam_node)).
    + rewrite calls_app. exists (calls (trace (variables_step w sesam_node))).
      destruct (outcome_of (variables_step w sesam_node)).
      * exists (calls (trace (config_step w sesam_node))). repeat split; assumption.
      * exists []. repeat split; try assumption. apply at_most_none.
      * exists []. repeat split; try assumption. apply at_most_none.
    + exists [], []. repeat split; try assumption; apply at_most_none.
    + exists [], []. repeat split; try assumption; apply at_most_none.
  - exists [], [], []. repeat split; try apply at_most_none. apply calls_startup_rank.
  - exists [], [], []. repeat split; try apply at_most_none. apply calls_startup_rank.
Qed.

(** ** A run that succeeds *)

Lemma deploy_secrets_returned (w : world) sesam_node source replace_secrets :
  outcome_of (deploy_secrets w sesam_node source false replace_secrets) = Ok tt ->
  match present source with
  | None => calls (trace (deploy_secrets w sesam_node source false replace_secrets)) = []
  | Some _ =>
      exists j,
        wellformed_source w source j /\
        calls (trace (deploy_secrets w sesam_node source false replace_secrets))
        = [if replace_secrets then PutSecrets j else PostSecrets j]
  end.
Proof.
  destruct (present source) as [path |] eqn:Hp.
  - intros H.
    assert (Hj : exists text j,
               os_stat w path = Some (File true text) /\ json_loads w text = inr j).
    { revert H. unfold deploy_secrets. rewrite Hp, read_json_file_eq.
      destruct (os_stat w path) as [[[|] text | entries] |] eqn:Hfile;
        try discriminate.
      destruct (json_loads w text) as [detail | j] eqn:Hjson; [discriminate |].
      intros _. exists text, j. split; [reflexivity | exact Hjson]. }
    destruct Hj as (text & j & Hfile & Hjson). exists j.
    assert (Hw : wellformed_source w source j) by (exists path, text; auto).
    split; [exact Hw | apply calls_deploy_secrets, Hw].
  - intros _. unfold deploy_secrets. rewrite Hp. reflexivity.
Qed.

Lemma deploy_variables_returned (w : world) sesam_node source :
  outcome_of (deploy_variables w sesam_node source false) = Ok tt ->
  match present source with
  | None => calls (trace (deploy_variables w sesam_node source false)) = []
  | Some _ =>
      exists j,
        wellformed_source w source j /\
        calls (trace (deploy_variables w sesam_node source false)) = [PutEnvVars j]
  end.
Proof.
  unfold deploy_variables, put_env.
  destruct (present source) as [path |] eqn:Hp; [| reflexivity].
  rewrite read_json_file_eq.
  destruct (os_stat w path) as [[[|] text | entries] |] eqn:Hfile; try discriminate.
  destruct (json_loads w text) as [detail | j] eqn:Hjson; [discriminate |].
  simpl. intros H. exists j. split; [exists path, text; auto |].
  destruct (api_put_env_vars w j); [discriminate H | reflexivity].
Qed.

(** The path that packaging returns is the path it was given. *)
Lemma create_zipped_config_path (w : world) (input_folder output_zip : string)
    (whitelist : bool) (out : string) (bundle : list zip_entry) :
  outcome_of (create_zipped_config w input_folder output_zip whitelist)
  = Ok (Some (out, bundle)) ->
  out = output_zip.
Proof.
  intros H. unfold create_zipped_config in H. rewrite outcome_try_except in H.
  match type of H with
  | match outcome_of ?b with _ => _ end = _ =>
      destruct (outcome_of b) as [r | e | c] eqn:B
  end.
  2: { destruct (is_os_error e); [rewrite outcome_bind in H |]; discriminate H. }
  2: discriminate H.
  injection H as ->.
  rewrite outcome_bind in B.
  destruct (outcome_of (lift (zip_create w output_zip))) as [[] | e | c];
    try discriminate.
  rewrite outcome_bind in B.
  destruct (outcome_of (read_whitelist w input_folder whitelist))
    as [whitelist_files | e | c]; try discriminate.
  rewrite outcome_bind in B.
  match type of B with
  | match outcome_of ?m with _ => _ end = _ =>
      destruct (outcome_of m) as [meta | e | c]
  end; try discriminate.
  rewrite outcome_bind in B.
  match type of B with
  | match outcome_of ?m with _ => _ end = _ =>
      destruct (outcome_of m) as [st | e | c]
  end; try discriminate.
  rewrite outcome_bind in B. simpl in B. injection B as <- _. reflexivity.
Qed.

Lemma deploy_config_returned (w : world) sesam_node source use_whitelist force_config :
  outcome_of (deploy_config w sesam_node source false use_whitelist force_config)
  = Ok tt ->
  match present source with
  | None =>
      calls (trace (deploy_config w sesam_node source false use_whitelist force_config))
      = []
  | Some folder =>
      exists bundle,
        outcome_of (create_zipped_config w folder "config.zip" use_whitelist)
        = Ok (Some ("config.zip", bundle)) /\
        calls (trace (deploy_config w sesam_node source false use_whitelist
                        force_config))
        = [UploadConfig bundle force_config]
  end.
Proof.
  unfold deploy_config, put_config.
  destruct (present source) as [folder |] eqn:Hp; [| reflexivity].
  unfold logger_info. rewrite !outcome_emit_then, !trace_emit_then.
  rewrite outcome_bind, trace_bind.
  change (calls (?a :: ?b :: ?c :: ?d :: ?t)) with (calls t).
  rewrite calls_app, no_call_create_zipped_config.
  destruct (outcome_of (create_zipped_config w folder "config.zip" use_whitelist))
    as [[[out bundle] |] | e | c] eqn:Hz; try discriminate.
  simpl. intros H.
  pose proof (create_zipped_config_path w folder "config.zip" use_whitelist out bundle Hz)
    as Hout.
  subst out. exists bundle. split; [reflexivity |].
  destruct (api_upload_config w bundle force_config); [discriminate H | reflexivity].
Qed.

(** X12.  A run with the dry run off that ends with status 0 has sent
    the health check and then, for each source that was given, one
    request with what the source holds: the document of the secrets
    file (to [put_secrets] when secrets are to be replaced, else to
    [post_secrets]), the document of the variables file, and the
    bundle that packaging made of the configuration folder, with the
    force flag of the run.  It has sent nothing else. *)
Theorem successful_run_sent_every_payload (w : world) :
  outcome_of (main w) = Ok tt ->
  dry_run_of w = false ->
  exists secrets variables config,
    calls (trace (main w)) = GetHealth :: secrets ++ variables ++ config /\
    match present (secrets_file_of w) with
    | None => secrets = []
    | Some _ =>
        exists j,
          wellformed_source w (secrets_file_of w) j /\
          secrets = [if replace_secrets_of w then PutSecrets j else PostSecrets j]
    end /\
    match present (variables_file_of w) with
    | None => variables = []
    | Some _ =>
        exists j,
          wellformed_source w (variables_file_of w) j /\ variables = [PutEnvVars j]
    end /\
    match present (config_folder_of w) with
    | None => config = []
    | Some folder =>
        exists bundle,
          outcome_of (create_zipped_config w folder "config.zip" (use_whitelist_of w))
          = Ok (Some ("config.zip", bundle)) /\
          config = [UploadConfig bundle (force_config_of w)]
    end.
Proof.
  intros Hok Hdry.
  destruct (success_only_after_all w Hok) as (sesam_node & S & H1 & H2 & H3).
  destruct (startup_ok w sesam_node S) as (P & C & _).
  exists (calls (trace (secrets_step w sesam_node))),
    (calls (trace (variables_step w sesam_node))),
    (calls (trace (config_step w sesam_node))).
  split.
  - rewrite (trace_started w sesam_node S), trace_deployment, outcome_deployment.
    rewrite H1, H2, H3, app_nil_r, !calls_app.
    rewrite (calls_startup w sesam_node P C). reflexivity.
  - unfold secrets_step, variables_step, config_step in *. rewrite Hdry in *.
    pose proof (deploy_secrets_returned w sesam_node _ _ H1) as R1.
    pose proof (deploy_variables_returned w sesam_node _ H2) as R2.
    pose proof (deploy_config_returned w sesam_node _ _ _ H3) as R3.
    repeat split.
    + destruct (present (secrets_file_of w)); [| exact R1].
      destruct R1 as (j & Hw & E). exists j. split; assumption.
    + destruct (present (variables_file_of w)); [| exact R2].
      destruct R2 as (j & Hw & E). exists j. split; assumption.
    + destruct (present (config_folder_of w)); [| exact R3].
      destruct R3 as (bundle & Hz & E). exists bundle. split; assumption.
Qed.

Lemma successful_run_sent_every_payload_witness :
  exists secrets variables config,
    calls (trace (main Sample.full)) = GetHealth :: secrets ++ variables ++ config /\
    match present (secrets_file_of Sample.full) with
    | None => secrets = []
    | Some _ =>
        exists j,
          wellformed_source Sample.full (secrets_file_of Sample.full) j /\
          secrets = [if replace_secrets_of Sample.full then PutSecrets j
                     else PostSecrets j]
    end /\
    match present (variables_file_of Sample.full) with
    | None => variables = []
    | Some _ =>
        exists j,
          wellformed_source Sample.full (variables_file_of Sample.full) j /\
          variables = [PutEnvVars j]
    end /\
    match present (config_folder_of Sample.full) with
    | None => config = []
    | Some folder =>
        exists bundle,
          outcome_of (create_zipped_config Sample.full folder "config.zip"
                        (use_whitelist_of Sample.full))
          = Ok (Some ("config.zip", bundle)) /\
          config = [UploadConfig bundle (force_config_of Sample.full)]
    end.
Proof.
  apply (successful_run_sent_every_payload Sample.full); vm_compute; reflexivity.
Defined.

(** ** The constructor of the client *)

(** X13.  A token that does not consist of exactly three parts between
    dots makes the constructor raise [ValueError] at once: nothing is
    logged and no connection is opened. *)
Theorem token_needs_three_parts (w : world) (url jwt : string) :
  List.length (Str.split "." jwt) <> 3 ->
  exists msg, SesamNode_init w url (Some jwt) = (Raise (ValueError msg), []).
Proof.
  intros H. unfold SesamNode_init.
  destruct (Str.split "." jwt) as [| a [| b [| c [| d l]]]];
    try (eexists; reflexivity).
  destruct H. reflexivity.
Qed.

Lemma token_needs_three_parts_witness :
  exists msg,
    SesamNode_init Sample.plain "https://node.example.org/api" (Some "abc.def")
    = (Raise (ValueError msg), []).
Proof.
  apply (token_needs_three_parts Sample.plain). vm_compute. discriminate.
Defined.

(** X14.  When the claims of the token decode to a value that Python
    takes for false (an empty object, [null], ...), the constructor
    never binds [principals]: it logs the connection line and then
    raises [UnboundLocalError]; no connection is opened. *)
Theorem falsy_claims_leave_principals_unbound (w : world) (url jwt : string)
    (header payload signature decoded : string) (claims : json) :
  Str.split "." jwt = [header; payload; signature] ->
  b64decode w (payload +:+ "==") = Some decoded ->
  json_loads w decoded = inr claims ->
  truthy claims = false ->
  SesamNode_init w url (Some jwt) =
  (Raise (UnboundLocalError "principals"),
   [Log INFO (Connecting url (safe_jwt jwt))]).
Proof.
  intros Hs Hb Hj Ht. unfold SesamNode_init. rewrite Hs, Hb. simpl.
  rewrite Hj. simpl. rewrite Ht. reflexivity.
Qed.

Lemma falsy_claims_leave_principals_unbound_witness :
  SesamNode_init Edge.hollow "https://node.example.org/api" (Some Sample.jwt) =
  (Raise (UnboundLocalError "principals"),
   [Log INFO (Connecting "https://node.example.org/api" (safe_jwt Sample.jwt))]).
Proof.
  apply (falsy_claims_leave_principals_unbound Edge.hollow _ Sample.jwt
           "eyJhbGciOiJub25lIn0" "eyJwcmluY2lwYWxzIjogeyJzdWItMSI6IFtdfX0" "c2ln"
           Sample.claims_text (JObj []));
    reflexivity.
Defined.

(** X15.  The constructor returns a client exactly when the token has
    three parts, the middle part (padded with [==]) decodes to a JSON
    object that is not empty and whose [principals], if given, is an
    object, and [sesamclient.Connection] accepts the url and the token.
    The client then holds the url and the token and, as subscription,
    the first key of [principals] (none when there is no key); the
    constructor has logged the masked token and the principals.  The
    first and the third part of the token are not looked at. *)
Theorem constructor_returns_iff (w : world) (url jwt : string) (client : SesamNode)
    (t : list event) :
  SesamNode_init w url (Some jwt) = (Ok client, t) <->
  exists header payload signature decoded members subscriptions,
    Str.split "." jwt = [header; payload; signature] /\
    b64decode w (payload +:+ "==") = Some decoded /\
    json_loads w decoded = inr (JObj members) /\
    members <> [] /\
    principals_of members = JObj subscriptions /\
    connect w url jwt = None /\
    client = {| node_url := url; jwt_token := jwt;
                subscription_id := head (map fst subscriptions) |} /\
    t = [Log INFO (Connecting url (safe_jwt jwt));
         Log INFO (JwtPrincipals (JObj subscriptions))].
Proof.
  split.
  - unfold SesamNode_init.
    destruct (Str.split "." jwt) as [| header [| payload [| signature [| x l]]]];
      try discriminate.
    destruct (b64decode w (payload +:+ "==")) as [decoded |] eqn:Hb; [| discriminate].
    rewrite bind_ret_l.
    destruct (json_loads w decoded) as [detail | claims] eqn:Hj; [discriminate |].
    rewrite bind_ret_l.
    destruct (truthy claims) eqn:Ht; [| simpl; discriminate].
    destruct claims as [| b | n | s | items | members]; try discriminate.
    unfold dict_get. rewrite bind_ret_l. cbv zeta.
    fold (principals_of members).
    destruct (principals_of members) as [| b | n | s | items | subscriptions] eqn:P;
      try discriminate.
    simpl. destruct (connect w url jwt) as [e |] eqn:C; simpl; [discriminate |].
    intros H. injection H as <- <-.
    exists header, payload, signature, decoded, members, subscriptions.
    repeat split; try assumption. intros ->. discriminate Ht.
  - intros (header & payload & signature & decoded & members & subscriptions
            & Hs & Hb & Hj & Hm & Hp & Hc & -> & ->).
    unfold SesamNode_init. rewrite Hs, Hb, bind_ret_l, Hj, bind_ret_l.
    assert (Ht : truthy (JObj members) = true)
      by (destruct members; [contradiction | reflexivity]).
    rewrite Ht. unfold dict_get. rewrite bind_ret_l. cbv zeta.
    fold (principals_of members). rewrite Hp. simpl. rewrite Hc. reflexivity.
Qed.

(** ** The whitelist *)

Lemma collect_whitelist_from (w : world) (input_folder : string) (lines : list string)
    (acc : gset string) (x : string) :
  x ∈ fold_left
        (fun (whitelist_files : gset string) line =>
           let line := Str.strip line in
           if os_path_exists w (Path.join input_folder line)
           then {[ line ]} ∪ whitelist_files
           else whitelist_files)
        lines acc <->
  x ∈ acc \/
  exists line,
    In line lines /\ Str.strip line = x /\
    os_path_exists w (Path.join input_folder x) = true.
Proof.
  revert acc. induction lines as [| l lines IH]; intros acc; simpl.
  - split; [intros H; left; exact H | intros [H | (line & [] & _)]; exact H].
  - rewrite IH. clear IH. split.
    + intros [H | (line & Hin & Hs & He)].
      * destruct (os_path_exists w (Path.join input_folder (Str.strip l))) eqn:E.
        -- apply elem_of_union in H as [H | H]; [| left; exact H].
           apply elem_of_singleton in H. subst x.
           right. exists l. repeat split; [left; reflexivity | exact E].
        -- left. exact H.
      * right. exists line. repeat split; [right; exact Hin | exact Hs | exact He].
    + intros [H | (line & [<- | Hin] & Hs & He)].
      * left. destruct (os_path_exists w (Path.join input_folder (Str.strip l)));
          [apply elem_of_union; right |]; exact H.
      * left. rewrite Hs, He. apply elem_of_union. left.
        apply elem_of_singleton. reflexivity.
      * right. exists line. repeat split; assumption.
Qed.

(** X16.  The whitelist that packaging reads holds a path exactly when
    the whitelist file [deployment/whitelist.txt] under the folder can
    be read, one of its lines is that path once the white space around
    it is stripped, and the path, joined to the folder, names
    something that exists.  Without a whitelist file the whitelist is
    empty. *)
Theorem whitelist_holds_existing_lines (w : world) (input_folder : string)
    (whitelist_files : gset string) (x : string) :
  outcome_of (read_whitelist w input_folder true) = Ok whitelist_files ->
  x ∈ whitelist_files <->
  exists text line,
    os_stat w (Path.join (Path.join input_folder "deployment") "whitelist.txt")
    = Some (File true text) /\
    In line (Str.readlines text) /\
    Str.strip line = x /\
    os_path_exists w (Path.join input_folder x) = true.
Proof.
  unfold read_whitelist, logger_info, open_read. rewrite outcome_emit_then.
  unfold os_path_exists at 1.
  destruct (os_stat w (Path.join (Path.join input_folder "deployment") "whitelist.txt"))
    as [[[|] text | entries] |]; simpl; intros H; try discriminate;
    injection H as <-.
  - unfold collect_whitelist. rewrite collect_whitelist_from. split.
    + intros [H | (line & Hin & Hs & He)]; [apply not_elem_of_empty in H; destruct H |].
      exists text, line. repeat split; assumption.
    + intros (text' & line & E & Hin & Hs & He). injection E as <-.
      right. exists line. repeat split; assumption.
  - split; [intros H; apply not_elem_of_empty in H; destruct H |].
    intros (text & line & E & _). discriminate E.
Qed.

Lemma whitelist_holds_existing_lines_witness :
  "other/pipes/d.conf.json" ∈ whitelist_set Sample.plain "cfg" <->
  exists text line,
    os_stat Sample.plain (Path.join (Path.join "cfg" "deployment") "whitelist.txt")
    = Some (File true text) /\
    In line (Str.readlines text) /\
    Str.strip line = "other/pipes/d.conf.json" /\
    os_path_exists Sample.plain (Path.join "cfg" "other/pipes/d.conf.json") = true.
Proof.
  apply (whitelist_holds_existing_lines Sample.plain "cfg"). reflexivity.
Defined.

(** ** Packaging, part by part *)

Lemma create_zipped_config_parts (w : world) (input_folder output_zip : string)
    (whitelist : bool) :
  create_zipped_config w input_folder output_zip whitelist =
  try_except (zip_body w input_folder output_zip whitelist) zip_failed.
Proof. reflexivity. Qed.

Lemma returns_bind {A B : Type} (P : B -> Prop) (m : M A) (f : A -> M B) :
  (forall a, returns_in P (f a)) -> returns_in P (bind m f).
Proof.
  intros Hf b. rewrite outcome_bind.
  destruct (outcome_of m) as [a | e | c]; [apply Hf | discriminate | discriminate].
Qed.

Lemma returns_ret {A : Type} (P : A -> Prop) (a : A) : P a -> returns_in P (ret a).
Proof. intros H a' E. injection E as <-. exact H. Qed.

Lemma returns_raise {A : Type} (P : A -> Prop) (e : exn) : returns_in P (@raise A e).
Proof. intros a H. discriminate H. Qed.

Lemma zip_body_returns (w : world) (input_folder output_zip : string) (whitelist : bool) :
  returns_in (fun r => exists bundle, r = Some (output_zip, bundle))
    (zip_body w input_folder output_zip whitelist).
Proof.
  unfold zip_body.
  do 5 (apply returns_bind; intros ?).
  apply returns_ret. eexists. reflexivity.
Qed.

Lemma zip_body_never_exits (w : world) (input_folder output_zip : string)
    (whitelist : bool) :
  exits_in never (zip_body w input_folder output_zip whitelist).
Proof.
  unfold zip_body, read_whitelist, add_metadata, add_conf_files, add_conf_file,
    zip_write, open_read.
  exits_tac.
Qed.

(** X17.  A file-system error never leaves [create_zipped_config],
    and the function never ends the process.  It returns the path it
    was given; or it returns [None], and then the last record it has
    logged is the error with the file-system exception that stopped
    it; or it raises an exception that is no [OSError], as
    [zipf.write] does for a file last modified before 1980. *)
Theorem packaging_catches_file_errors (w : world) (input_folder output_zip : string)
    (whitelist : bool) :
  (exists bundle,
     outcome_of (create_zipped_config w input_folder output_zip whitelist)
     = Ok (Some (output_zip, bundle))) \/
  (outcome_of (create_zipped_config w input_folder output_zip whitelist) = Ok None /\
   exists t e,
     is_os_error e = true /\
     trace (create_zipped_config w input_folder output_zip whitelist)
     = t ++ [Log ERROR (ZipFailed e)]) \/
  (exists e,
     outcome_of (create_zipped_config w input_folder output_zip whitelist) = Raise e /\
     is_os_error e = false).
Proof.
  rewrite create_zipped_config_parts, outcome_try_except, trace_try_except.
  pose proof (zip_body_returns w input_folder output_zip whitelist) as HO.
  pose proof (zip_body_never_exits w input_folder output_zip whitelist) as HE.
  destruct (outcome_of (zip_body w input_folder output_zip whitelist))
    as [r | e | c] eqn:B.
  - left. destruct (HO r B) as (bundle & ->). exists bundle. reflexivity.
  - right. unfold zip_failed. destruct (is_os_error e) eqn:He.
    + left. split; [reflexivity |].
      exists (trace (zip_body w input_folder output_zip whitelist)), e.
      split; [exact He | reflexivity].
    + right. exists e. split; [reflexivity | exact He].
  - destruct (HE c B).
Qed.

(** Each of the three happens: a folder that can be read, a file that
    cannot, and a file that is too old for a zip archive. *)
Lemma packaging_three_ways :
  (exists bundle,
     outcome_of (create_zipped_config Sample.plain "cfg" "config.zip" false)
     = Ok (Some ("config.zip", bundle))) /\
  outcome_of (create_zipped_config Sample.locked_dry "locked" "config.zip" false)
  = Ok None /\
  outcome_of (create_zipped_config Edge.old_pipe "cfg" "config.zip" false)
  = Raise (ValueError "ZIP does not support timestamps before 1980").
Proof.
  split; [eexists; vm_compute; reflexivity |].
  split; vm_compute; reflexivity.
Qed.

(** ** Folders without content *)

Lemma unlisted_files_are_skipped (w : world) (input_folder root : string)
    (files : list string) (st : list zip_entry * nat) :
  for_each files st (add_conf_file w input_folder true ∅ root) = ret st.
Proof.
  induction files as [| file files IH]; [reflexivity |].
  simpl. unfold add_conf_file at 1.
  rewrite bool_decide_eq_false_2 by apply not_elem_of_empty.
  cbn [andb negb]. rewrite bind_ret_l. exact IH.
Qed.

Lemma empty_whitelist_adds_nothing (w : world) (input_folder : string)
    (zipf : list zip_entry) :
  add_conf_files w input_folder true ∅ zipf = ret (zipf, 0).
Proof.
  unfold add_conf_files. generalize (zipf, 0). 
  induction (os_walk w input_folder) as [| item items IH]; intros st; [reflexivity |].
  simpl. destruct (config_dir (wi_root item)).
  - rewrite unlisted_files_are_skipped, bind_ret_l. apply IH.
  - rewrite bind_ret_l. apply IH.
Qed.

(** Packaging that gets through its parts. *)
Lemma packaging_of_parts (w : world) (input_folder output_zip : string)
    (whitelist : bool) (whitelist_files : gset string) (t1 : list event)
    (zipf : list zip_entry) (t2 : list event) (st : list zip_entry * nat)
    (t3 : list event) :
  zip_create w output_zip = inr tt ->
  read_whitelist w input_folder whitelist = (Ok whitelist_files, t1) ->
  add_metadata w input_folder whitelist whitelist_files = (Ok zipf, t2) ->
  add_conf_files w input_folder whitelist whitelist_files zipf = (Ok st, t3) ->
  create_zipped_config w input_folder output_zip whitelist =
  (Ok (Some (output_zip, fst st)),
   t1 ++ t2 ++ t3 ++ [Log INFO (FilesAdded (snd st))]).
Proof.
  intros Hz H1 H2 H3. rewrite create_zipped_config_parts. unfold zip_body.
  rewrite Hz. change (lift (inr tt)) with (ret tt). rewrite (bind_ret_l tt).
  rewrite (bind_ok _ _ _ _ H1), (bind_ok _ _ _ _ H2), (bind_ok _ _ _ _ H3).
  reflexivity.
Qed.

(** X18.  With the whitelist on and no whitelist file under the
    folder, packaging puts nothing into the archive, whatever the
    folder holds: it returns the path of an empty archive and logs
    that 0 files were added. *)
Theorem whitelist_without_file_gives_empty_bundle (w : world)
    (input_folder output_zip : string) :
  zip_create w output_zip = inr tt ->
  os_path_exists w
    (Path.join (Path.join input_folder "deployment") "whitelist.txt") = false ->
  create_zipped_config w input_folder output_zip true =
  (Ok (Some (output_zip, [])),
   [Log INFO (CreatingConfigUsing
                (Path.join (Path.join input_folder "deployment") "whitelist.txt"));
    Log INFO (FilesAdded 0)]).
Proof.
  intros Hz Hw.
  apply (packaging_of_parts w input_folder output_zip true ∅
           [Log INFO (CreatingConfigUsing
                        (Path.join (Path.join input_folder "deployment")
                           "whitelist.txt"))]
           [] [] ([], 0) [] Hz).
  - unfold read_whitelist. rewrite Hw. reflexivity.
  - unfold add_metadata.
    rewrite (bool_decide_eq_false_2 (NODE_METADATA ∈ (∅ : gset string)))
      by apply not_elem_of_empty.
    rewrite andb_false_r. reflexivity.
  - apply empty_whitelist_adds_nothing.
Qed.

Lemma whitelist_without_file_gives_empty_bundle_witness :
  create_zipped_config Edge.odd "bare" "config.zip" true =
  (Ok (Some ("config.zip", [])),
   [Log INFO (CreatingConfigUsing
                (Path.join (Path.join "bare" "deployment") "whitelist.txt"));
    Log INFO (FilesAdded 0)]).
Proof.
  apply (whitelist_without_file_gives_empty_bundle Edge.odd "bare" "config.zip");
    reflexivity.
Defined.

Lemma os_stat_below_no_directory (w : world) (path name : string) :
  path <> "" ->
  no_directory w path ->
  valid_name name = true ->
  os_stat w (Path.join path name) = None.
Proof.
  intros Hp Hd Hn. rewrite (os_stat_join w path name Hp Hn).
  destruct (os_stat w path) as [[readable data | entries] |] eqn:E; try reflexivity.
  destruct (Hd entries E).
Qed.

Lemma no_whitelist_without_directory (w : world) (input_folder : string) :
  input_folder <> "" ->
  no_directory w input_folder ->
  os_stat w (Path.join (Path.join input_folder "deployment") "whitelist.txt") = None.
Proof.
  intros Hp Hd. apply os_stat_below_no_directory; [| | reflexivity].
  - apply (join_valid_name input_folder "deployment" Hp eq_refl).
  - intros entries E.
    rewrite (os_stat_below_no_directory w input_folder "deployment" Hp Hd eq_refl) in E.
    discriminate E.
Qed.

(** X19.  For a folder that does not exist, or that is a file,
    packaging reports no error: it returns the path of an archive
    without entries and logs that 0 files were added. *)
Theorem missing_folder_gives_empty_bundle (w : world) (input_folder output_zip : string)
    (whitelist : bool) :
  input_folder <> "" ->
  (forall entries, os_stat w input_folder <> Some (Dir entries)) ->
  zip_create w output_zip = inr tt ->
  create_zipped_config w input_folder output_zip whitelist =
  (Ok (Some (output_zip, [])),
   (if whitelist
    then [Log INFO (CreatingConfigUsing
                      (Path.join (Path.join input_folder "deployment")
                         "whitelist.txt"))]
    else [])
   ++ [Log INFO (FilesAdded 0)]).
Proof.
  intros Hp Hd Hz.
  apply (packaging_of_parts w input_folder output_zip whitelist ∅
           (if whitelist
            then [Log INFO (CreatingConfigUsing
                              (Path.join (Path.join input_folder "deployment")
                                 "whitelist.txt"))]
            else [])
           [] [] ([], 0) [] Hz).
  - unfold read_whitelist, os_path_exists.
    rewrite (no_whitelist_without_directory w input_folder Hp Hd).
    destruct whitelist; reflexivity.
  - unfold add_metadata, os_path_exists.
    rewrite (os_stat_below_no_directory w input_folder NODE_METADATA Hp Hd eq_refl).
    reflexivity.
  - unfold add_conf_files, os_walk.
    destruct (os_stat w input_folder) as [[readable data | entries] |] eqn:E;
      try reflexivity.
    destruct (Hd entries eq_refl).
Qed.

Lemma missing_folder_gives_empty_bundle_witness :
  create_zipped_config Sample.plain "absent" "config.zip" false =
  (Ok (Some ("config.zip", [])), [] ++ [Log INFO (FilesAdded 0)]).
Proof.
  apply (missing_folder_gives_empty_bundle Sample.plain "absent" "config.zip" false).
  - discriminate.
  - intros entries H. discriminate H.
  - reflexivity.
Defined.

(** ** What packaging logs *)

(** The parts of a packaging that returned a path. *)
Lemma packaging_parts_of (w : world) (input_folder output_zip : string)
    (whitelist : bool) (r : option (string * list zip_entry)) :
  outcome_of (zip_body w input_folder output_zip whitelist) = Ok r ->
  exists whitelist_files zipf st,
    zip_create w output_zip = inr tt /\
    outcome_of (read_whitelist w input_folder whitelist) = Ok whitelist_files /\
    outcome_of (add_metadata w input_folder whitelist whitelist_files) = Ok zipf /\
    outcome_of (add_conf_files w input_folder whitelist whitelist_files zipf) = Ok st.
Proof.
  unfold zip_body. rewrite outcome_bind.
  destruct (zip_create w output_zip) as [e | []] eqn:Hz; [discriminate |].
  cbn [lift ret outcome_of fst]. rewrite outcome_bind.
  destruct (outcome_of (read_whitelist w input_folder whitelist))
    as [whitelist_files | e | c]; try discriminate.
  rewrite outcome_bind.
  destruct (outcome_of (add_metadata w input_folder whitelist whitelist_files))
    as [zipf | e | c] eqn:Hm; try discriminate.
  rewrite outcome_bind.
  destruct (outcome_of (add_conf_files w input_folder whitelist whitelist_files zipf))
    as [st | e | c] eqn:Hl; try discriminate.
  intros _. exists whitelist_files, zipf, st. repeat split; assumption.
Qed.

Lemma of_outcome {A : Type} (m : M A) (a : A) :
  outcome_of m = Ok a -> m = (Ok a, trace m).
Proof. intros H. rewrite (as_pair m) at 1. rewrite H. reflexivity. Qed.

Lemma packaging_returned (w : world) (input_folder output_zip : string)
    (whitelist : bool) (r : string * list zip_entry) :
  outcome_of (create_zipped_config w input_folder output_zip whitelist) = Ok (Some r) ->
  outcome_of (zip_body w input_folder output_zip whitelist) = Ok (Some r).
Proof.
  rewrite create_zipped_config_parts, outcome_try_except.
  destruct (outcome_of (zip_body w input_folder output_zip whitelist)) as [r' | e | c];
    [intros H; exact H | | discriminate].
  unfold zip_failed. destruct (is_os_error e); discriminate.
Qed.

Lemma add_metadata_returned (w : world) (input_folder : string) (whitelist : bool)
    (whitelist_files : gset string) (zipf : list zip_entry) :
  outcome_of (add_metadata w input_folder whitelist whitelist_files) = Ok zipf ->
  metadata_entries w input_folder whitelist whitelist_files zipf.
Proof.
  unfold add_metadata, metadata_entries, passes_whitelist.
  destruct (os_path_exists w (Path.join input_folder NODE_METADATA)
            && (negb whitelist || bool_decide (NODE_METADATA ∈ whitelist_files))).
  - rewrite outcome_bind.
    destruct (outcome_of (zip_write w [] _ NODE_METADATA)) as [z | e | c] eqn:Z;
      try discriminate.
    unfold logger_info. rewrite outcome_emit_then. simpl. intros H. injection H as <-.
    destruct (zip_write_ok w _ _ _ _ Z) as (e & He & ->).
    exists e. split; [exact He | reflexivity].
  - intros H. injection H as <-. reflexivity.
Qed.

(** X20.  The number that packaging logs at its end counts the files
    it took from the [pipes] and [systems] directories; the root
    metadata file, which it packs first, is not counted.  So the
    archive has one entry more than the log says exactly when the
    metadata file went in. *)
Theorem logged_count_leaves_out_metadata (w : world) (input_folder output_zip : string)
    (whitelist : bool) (bundle : list zip_entry) (t : list event) :
  create_zipped_config w input_folder output_zip whitelist
  = (Ok (Some (output_zip, bundle)), t) ->
  exists t' n,
    t = t' ++ [Log INFO (FilesAdded n)] /\
    List.length bundle =
    n + (if os_path_exists w (Path.join input_folder NODE_METADATA)
            && (negb whitelist
                || bool_decide (NODE_METADATA ∈ whitelist_set w input_folder))
         then 1 else 0).
Proof.
  intros H.
  assert (Ho : outcome_of (create_zipped_config w input_folder output_zip whitelist)
               = Ok (Some (output_zip, bundle))) by (rewrite H; reflexivity).
  apply packaging_returned in Ho.
  destruct (packaging_parts_of w input_folder output_zip whitelist _ Ho)
    as (whitelist_files & zipf & st & Hz & H1 & H2 & H3).
  rewrite (packaging_of_parts w input_folder output_zip whitelist whitelist_files
             _ zipf _ st _ Hz (of_outcome _ _ H1) (of_outcome _ _ H2)
             (of_outcome _ _ H3)) in H.
  injection H as Hb Ht.
  destruct (outer_loop_ok w input_folder whitelist whitelist_files _ _ _ H3)
    as (es & _ & ->).
  simpl in Hb, Ht. subst bundle.
  exists (trace (read_whitelist w input_folder whitelist)
          ++ trace (add_metadata w input_folder whitelist whitelist_files)
          ++ trace (add_conf_files w input_folder whitelist whitelist_files zipf)),
    (List.length es).
  split.
  - rewrite <- Ht, <- !app_assoc. reflexivity.
  - rewrite List.length_app.
    pose proof (add_metadata_returned w input_folder whitelist whitelist_files zipf H2)
      as Hm.
    unfold metadata_entries, passes_whitelist in Hm.
    assert (Hwl : negb whitelist || bool_decide (NODE_METADATA ∈ whitelist_files)
                  = negb whitelist
                    || bool_decide (NODE_METADATA ∈ whitelist_set w input_folder)).
    { destruct whitelist; [| reflexivity].
      rewrite (read_whitelist_ok w input_folder whitelist_files H1). reflexivity. }
    rewrite <- Hwl.
    destruct (os_path_exists w (Path.join input_folder NODE_METADATA)
              && (negb whitelist || bool_decide (NODE_METADATA ∈ whitelist_files))).
    + destruct Hm as (e & _ & ->). simpl. lia.
    + subst zipf. simpl. lia.
Qed.

Lemma logged_count_leaves_out_metadata_witness :
  exists t' n,
    trace (create_zipped_config Sample.plain "cfg" "config.zip" false)
    = t' ++ [Log INFO (FilesAdded n)] /\
    List.length
      [ZipEntry "node-metadata.conf.json" "metadata";
       ZipEntry "pipes/a.conf.json" "pipe a";
       ZipEntry "systems/b.conf.json" "system b";
       ZipEntry "other/pipes/d.conf.json" "pipe d"] =
    n + (if os_path_exists Sample.plain (Path.join "cfg" NODE_METADATA)
            && (negb false
                || bool_decide (NODE_METADATA ∈ whitelist_set Sample.plain "cfg"))
         then 1 else 0).
Proof.
  apply (logged_count_leaves_out_metadata Sample.plain "cfg" "config.zip" false).
  apply of_outcome. vm_compute. reflexivity.
Defined.

(** ** Where the entries of a bundle come from *)

(** X21.  Every entry of a bundle that packaging has produced comes
    from the folder: it is the root metadata file under its name, with
    the text of that file (or, when that name is a directory, an entry
    for the directory), or it is a readable file that lies directly in
    a [pipes] or [systems] directory of the tree and whose name ends
    in [conf.json], under its path relative to the folder and with its
    text unchanged. *)
Theorem bundle_entries_come_from_files (w : world) (input_folder : string)
    (whitelist : bool) (bundle : list zip_entry) (e : zip_entry) :
  wf_tree w input_folder = true ->
  packaged w input_folder whitelist bundle ->
  In e bundle ->
  (exists data,
     os_stat w (Path.join input_folder NODE_METADATA) = Some (File true data) /\
     e = ZipEntry NODE_METADATA data) \/
  (exists entries,
     os_stat w (Path.join input_folder NODE_METADATA) = Some (Dir entries) /\
     e = ZipEntry (NODE_METADATA +:+ "/") "") \/
  (exists t rel entries file data,
     os_stat w input_folder = Some t /\
     dir_at t rel entries /\
     In (file, File true data) entries /\
     (Path.basename (dir_path input_folder rel) = "pipes" \/
      Path.basename (dir_path input_folder rel) = "systems") /\
     Str.endswith file CONF_SUFFIX = true /\
     e = ZipEntry (rel_name rel file) data).
Proof.
  intros Hwf Hpk Hin.
  destruct (packaged_bundle w input_folder whitelist bundle Hpk)
    as (whitelist_files & meta & es & _ & Hmeta & Hes & ->).
  apply in_app_iff in Hin as [Hin | Hin].
  - unfold metadata_entries in Hmeta.
    destruct (os_path_exists w (Path.join input_folder NODE_METADATA)
              && passes_whitelist whitelist whitelist_files NODE_METADATA);
      [| subst meta; destruct Hin].
    destruct Hmeta as (e' & He' & ->). destruct Hin as [<- | []].
    destruct (os_stat w (Path.join input_folder NODE_METADATA))
      as [[[|] data | entries] |]; simpl in He'; try discriminate;
      injection He' as <-.
    + left. exists data. split; reflexivity.
    + right. left. exists entries. split; reflexivity.
  - right. right.
    destruct (written_of_In_r w _ _ _ Hes Hin) as (c & Hc & Hw).
    apply (in_chosen w input_folder whitelist whitelist_files c Hwf) in Hc
      as (t & rel & entries & file & target
          & T & Hd & _ & Hf & Hnd & -> & Hdir & _ & Hsuf).
    unfold wf_tree in Hwf. rewrite T in Hwf.
    pose proof (os_stat_entry w input_folder t rel entries file target T Hwf Hd Hf) as S.
    destruct (written_file w _ _ _ _ Hw S Hnd) as (data & -> & ->).
    exists t, rel, entries, file, data.
    apply config_dir_iff in Hdir. repeat split; assumption.
Qed.

Lemma bundle_entries_come_from_files_witness :
  (exists data,
     os_stat Sample.plain (Path.join "cfg" NODE_METADATA) = Some (File true data) /\
     ZipEntry "other/pipes/d.conf.json" "pipe d" = ZipEntry NODE_METADATA data) \/
  (exists entries,
     os_stat Sample.plain (Path.join "cfg" NODE_METADATA) = Some (Dir entries) /\
     ZipEntry "other/pipes/d.conf.json" "pipe d"
     = ZipEntry (NODE_METADATA +:+ "/") "") \/
  (exists t rel entries file data,
     os_stat Sample.plain "cfg" = Some t /\
     dir_at t rel entries /\
     In (file, File true data) entries /\
     (Path.basename (dir_path "cfg" rel) = "pipes" \/
      Path.basename (dir_path "cfg" rel) = "systems") /\
     Str.endswith file CONF_SUFFIX = true /\
     ZipEntry "other/pipes/d.conf.json" "pipe d" = ZipEntry (rel_name rel file) data).
Proof.
  apply (bundle_entries_come_from_files Sample.plain "cfg" true
           [ZipEntry "pipes/a.conf.json" "pipe a";
            ZipEntry "other/pipes/d.conf.json" "pipe d"]).
  - reflexivity.
  - exact sample_cfg_packaged_whitelisted.
  - right. left. reflexivity.
Defined.

(** X22.  When the folder itself is called [pipes] or [systems], can
    be listed and holds a readable metadata file, a bundle that
    packaging produces with the whitelist off has that file twice
    under the same name: once as the root metadata file, once more as
    a file of a [pipes] or [systems] directory. *)
Theorem folder_named_pipes_packs_metadata_twice (w : world) (input_folder : string)
    (bundle : list zip_entry) (data : string) :
  wf_tree w input_folder = true ->
  Path.basename input_folder = "pipes" \/ Path.basename input_folder = "systems" ->
  can_list w input_folder = true ->
  os_stat w (Path.join input_folder NODE_METADATA) = Some (File true data) ->
  packaged w input_folder false bundle ->
  exists rest,
    bundle = ZipEntry NODE_METADATA data :: rest /\
    In (ZipEntry NODE_METADATA data) rest.
Proof.
  intros Hwf Hbase Hlist Hstat Hpk.
  destruct (packaged_bundle w input_folder false bundle Hpk)
    as (whitelist_files & meta & es & _ & Hmeta & Hes & ->).
  unfold metadata_entries, os_path_exists in Hmeta. rewrite Hstat in Hmeta.
  simpl in Hmeta. destruct Hmeta as (e & He & ->). injection He as <-.
  exists es. split; [reflexivity |].
  assert (Hne : input_folder <> "").
  { intros ->. destruct Hbase as [H | H]; discriminate H. }
  pose proof Hstat as Hroot.
  rewrite (os_stat_join w input_folder NODE_METADATA Hne eq_refl) in Hroot.
  destruct (os_stat w input_folder) as [[r d | entries] |] eqn:T; try discriminate.
  apply assoc_In in Hroot.
  assert (Hc : In (Path.join (dir_path input_folder []) NODE_METADATA,
                   rel_name [] NODE_METADATA)
                 (flat_map (chosen w input_folder false whitelist_files)
                    (os_walk w input_folder))).
  { apply (in_chosen w input_folder false whitelist_files _ Hwf).
    exists (Dir entries), [], entries, NODE_METADATA, (File true data).
    split; [exact T |]. split; [constructor |].
    split; [simpl; rewrite Hlist; reflexivity |].
    split; [exact Hroot |]. split; [reflexivity |]. split; [reflexivity |].
    split; [apply config_dir_iff; exact Hbase |].
    split; reflexivity. }
  destruct (written_of_In_l w _ _ _ Hes Hc) as (e & He & Hw).
  destruct (written_file w _ _ _ _ Hw Hstat eq_refl) as (data' & E & ->).
  injection E as <-. exact He.
Qed.

Lemma folder_named_pipes_packs_metadata_twice_witness :
  exists rest,
    [ZipEntry "node-metadata.conf.json" "metadata";
     ZipEntry "node-metadata.conf.json" "metadata";
     ZipEntry "a.conf.json" "pipe a"]
    = ZipEntry NODE_METADATA "metadata" :: rest /\
    In (ZipEntry NODE_METADATA "metadata") rest.
Proof.
  apply (folder_named_pipes_packs_metadata_twice Edge.odd "pipes").
  - reflexivity.
  - left. reflexivity.
  - reflexivity.
  - reflexivity.
  - exists "config.zip". vm_compute. reflexivity.
Defined.

(** ** The names in a bundle *)

Lemma dirs_of_Dir (entries : list (string * node)) :
  dirs_of (Dir entries) =
  ([], entries)
  :: flat_map (fun e => map (fun p => (fst e :: fst p, snd p)) (dirs_of (snd e)))
       entries.
Proof.
  simpl. f_equal.
  induction entries as [| [name child] entries IH]; [reflexivity |].
  simpl. rewrite IH. reflexivity.
Qed.

Lemma filter_of_map {A B : Type} (P : B -> bool) (g : A -> B) (l : list A) :
  List.filter P (map g l) = map g (List.filter (fun x => P (g x)) l).
Proof.
  induction l as [| x l IH]; [reflexivity |].
  simpl. destruct (P (g x)); simpl; rewrite IH; reflexivity.
Qed.

Lemma filter_none {A : Type} (P : A -> bool) (l : list A) :
  (forall x, P x = false) -> List.filter P l = [].
Proof.
  intros H. induction l as [| x l IH]; [reflexivity |].
  simpl. rewrite H. exact IH.
Qed.

(** The walk, directory by directory: the directories of the tree that
    it reaches, in the order of the tree. *)
Lemma walk_node_dirs (w : world) (n : node) :
  forall root,
    walk_node w root n =
    map (fun p => item_of (dir_path root (fst p)) (snd p))
      (List.filter (fun p => walked w root (fst p)) (dirs_of n)).
Proof.
  induction n as [readable data | entries IH] using node_induction; intros root;
    [reflexivity |].
  rewrite walk_node_Dir, dirs_of_Dir.
  destruct (can_list w root) eqn:L.
  2: { rewrite filter_none; [reflexivity |].
       intros [rel es]. destruct rel; simpl; rewrite L; reflexivity. }
  cbn [List.filter fst walked]. rewrite L. cbn [andb map fst snd dir_path fold_left].
  f_equal.
  induction entries as [| [name child] entries IHe]; [reflexivity |].
  inversion IH as [| ? ? Hchild Hrest]; subst. cbn [snd] in Hchild.
  cbn [flat_map fst snd]. rewrite List.filter_app, map_app, <- (IHe Hrest).
  f_equal.
  rewrite filter_of_map, map_map. cbn [fst snd walked]. rewrite L. cbn [andb].
  destruct (os_path_islink w (Path.join root name)).
  - rewrite andb_false_r. cbn [negb andb].
    rewrite filter_none; [reflexivity | intros x; reflexivity].
  - cbn [negb andb]. rewrite andb_true_r.
    destruct (is_dir child) eqn:D.
    + rewrite (Hchild (Path.join root name)). reflexivity.
    + destruct child; [reflexivity | discriminate D].
Qed.

Lemma dirs_of_sound (n : node) :
  forall p, In p (dirs_of n) -> dir_at n (fst p) (snd p).
Proof.
  induction n as [readable data | entries IH] using node_induction; intros p H;
    [destruct H |].
  rewrite dirs_of_Dir in H. destruct H as [<- | H]; [constructor |].
  apply in_flat_map in H as ([name child] & Hin & H).
  apply in_map_iff in H as (q & <- & Hq).
  rewrite List.Forall_forall in IH.
  simpl. econstructor; [exact Hin | apply (IH (name, child) Hin q Hq)].
Qed.

Lemma NoDup_flat_map_keyed {A B K : Type} (key : A -> K) (g : A -> list B)
    (l : list A) :
  List.NoDup (map key l) ->
  (forall a, In a l -> List.NoDup (g a)) ->
  (forall a1 a2 x, In a1 l -> In a2 l -> In x (g a1) -> In x (g a2) ->
     key a1 = key a2) ->
  List.NoDup (flat_map g l).
Proof.
  induction l as [| a l IH]; intros Hk Hg Hx; simpl; [constructor |].
  simpl in Hk. apply List.NoDup_cons_iff in Hk as [Hfresh Hk].
  apply List.NoDup_app.
  - apply Hg. left. reflexivity.
  - apply IH; [exact Hk | |].
    + intros a' Ha'. apply Hg. right. exact Ha'.
    + intros a1 a2 x H1 H2. apply Hx; right; assumption.
  - intros x Hxa Hxl. apply in_flat_map in Hxl as (a' & Ha' & Hxa').
    apply Hfresh. rewrite (Hx a a' x (or_introl eq_refl) (or_intror Ha') Hxa Hxa').
    apply in_map. exact Ha'.
Qed.

Lemma NoDup_map_on {A B : Type} (f : A -> B) (l : list A) :
  (forall x y, In x l -> In y l -> f x = f y -> x = y) ->
  List.NoDup l -> List.NoDup (map f l).
Proof.
  intros Hinj H. induction H as [| x l Hx _ IH]; simpl; [constructor |].
  constructor.
  - intros Hin. apply in_map_iff in Hin as (y & E & Hy).
    apply Hx. rewrite <- (Hinj y x (or_intror Hy) (or_introl eq_refl) E). exact Hy.
  - apply IH. intros a b Ha Hb. apply Hinj; right; assumption.
Qed.

Lemma NoDup_map_filter {A B : Type} (f : A -> B) (P : A -> bool) (l : list A) :
  List.NoDup (map f l) -> List.NoDup (map f (List.filter P l)).
Proof.
  induction l as [| x l IH]; simpl; [intros H; exact H |].
  intros H. apply List.NoDup_cons_iff in H as [Hx H].
  destruct (P x); [| apply IH, H].
  simpl. constructor; [| apply IH, H].
  intros Hin. apply Hx. apply in_map_iff in Hin as (y & E & Hy).
  apply in_map_iff. exists y. split; [exact E |].
  apply filter_In in Hy. apply Hy.
Qed.

Lemma distinct_NoDup (names : list string) :
  distinct names = true -> List.NoDup names.
Proof.
  induction names as [| name names IH]; simpl; [constructor |].
  intros H. apply andb_true_iff in H as [Hfresh H]. constructor; [| apply IH, H].
  intros Hin. apply negb_true_iff in Hfresh.
  assert (Hx : existsb (String.eqb name) names = true).
  { apply existsb_exists. exists name. split; [exact Hin | apply String.eqb_refl]. }
  rewrite Hx in Hfresh. discriminate.
Qed.

Lemma wf_names_NoDup (entries : list (string * node)) :
  wf_node (Dir entries) = true -> List.NoDup (map fst entries).
Proof.
  rewrite wf_node_Dir. intros H.
  apply andb_true_iff in H as [H _]. apply andb_true_iff in H as [H _].
  apply distinct_NoDup, H.
Qed.

(** In a well-formed tree every directory is listed once, under its
    own names. *)
Lemma dirs_of_NoDup (n : node) :
  wf_node n = true -> List.NoDup (map fst (dirs_of n)).
Proof.
  induction n as [readable data | entries IH] using node_induction; intros Hwf;
    [constructor |].
  rewrite dirs_of_Dir. simpl. constructor.
  - intros H. apply in_map_iff in H as (p & E & Hp).
    apply in_flat_map in Hp as (e & _ & Hp).
    apply in_map_iff in Hp as (q & <- & _). discriminate E.
  - assert (E : map fst
                  (flat_map
                     (fun e => map (fun p => (fst e :: fst p, snd p)) (dirs_of (snd e)))
                     entries)
                = flat_map (fun e => map (cons (fst e)) (map fst (dirs_of (snd e))))
                    entries).
    { clear. induction entries as [| e entries IHe]; [reflexivity |].
      simpl. rewrite map_app, IHe, !map_map. reflexivity. }
    rewrite E.
    apply (NoDup_flat_map_keyed fst).
    + apply wf_names_NoDup, Hwf.
    + intros [name child] Hin. simpl.
      apply NoDup_map_on; [intros x y _ _ H; injection H as ->; reflexivity |].
      rewrite List.Forall_forall in IH. apply (IH (name, child) Hin).
      rewrite wf_node_Dir in Hwf. apply andb_true_iff in Hwf as [_ Hc].
      rewrite forallb_forall in Hc. apply (Hc (name, child) Hin).
    + intros a1 a2 x _ _ H1 H2.
      apply in_map_iff in H1 as (r1 & <- & _).
      apply in_map_iff in H2 as (r2 & E2 & _).
      injection E2 as -> _. reflexivity.
Qed.

Lemma flat_map_after_map {A B C : Type} (f : B -> list C) (g : A -> B) (l : list A) :
  flat_map f (map g l) = flat_map (fun x => f (g x)) l.
Proof.
  induction l as [| x l IH]; [reflexivity |]. simpl. rewrite IH. reflexivity.
Qed.

Lemma map_over_flat_map {A B C : Type} (f : B -> C) (g : A -> list B) (l : list A) :
  map f (flat_map g l) = flat_map (fun x => map f (g x)) l.
Proof.
  induction l as [| x l IH]; [reflexivity |]. simpl. rewrite map_app, IH. reflexivity.
Qed.

Section Names.

Context (w : world) (input_folder : string) (whitelist : bool)
  (whitelist_files : gset string) (t : node).
Hypothesis (T : os_stat w input_folder = Some t) (Hwf : wf_node t = true).

(** The names under which the loops write the files of one directory. *)
Lemma chosen_names (rel : list string) (entries : list (string * node)) (x : string) :
  dir_at t rel entries ->
  In x (map snd (chosen w input_folder whitelist whitelist_files
                   (item_of (dir_path input_folder rel) entries))) ->
  exists file target,
    In (file, target) entries /\ is_dir target = false /\ x = rel_name rel file.
Proof.
  intros Hd H. apply in_map_iff in H as (c & <- & Hc).
  unfold chosen in Hc. simpl in Hc.
  destruct (config_dir (dir_path input_folder rel)); [| destruct Hc].
  apply in_map_iff in Hc as (file & <- & Hf).
  apply filter_In in Hf as [Hf _].
  apply in_map_iff in Hf as ([file' target] & E & Hf). simpl in E. subst file'.
  apply filter_In in Hf as [Hf Hnd]. simpl in Hnd. apply negb_true_iff in Hnd.
  exists file, target. repeat split; [exact Hf | exact Hnd |].
  apply relpath_below; [apply (os_stat_not_empty w input_folder t T) |].
  apply (valid_position t rel entries file target Hwf Hd Hf).
Qed.

Lemma chosen_names_NoDup (rel : list string) (entries : list (string * node)) :
  dir_at t rel entries ->
  List.NoDup (map snd (chosen w input_folder whitelist whitelist_files
                         (item_of (dir_path input_folder rel) entries))).
Proof.
  intros Hd. unfold chosen. simpl.
  destruct (config_dir (dir_path input_folder rel)); [| constructor].
  rewrite map_map. simpl.
  destruct (wf_dir_at t rel entries Hd Hwf) as [Hrel Hentries].
  assert (Hfiles : forall file,
            In file (map fst (List.filter (fun e => negb (is_dir (snd e))) entries)) ->
            exists target, In (file, target) entries).
  { intros file H. apply in_map_iff in H as ([f target] & E & Hf).
    simpl in E. subst f. apply filter_In in Hf as [Hf _]. exists target. exact Hf. }
  apply NoDup_map_on.
  - intros f1 f2 H1 H2 E.
    apply filter_In in H1 as [H1 _]. apply filter_In in H2 as [H2 _].
    destruct (Hfiles f1 H1) as (t1 & Hin1). destruct (Hfiles f2 H2) as (t2 & Hin2).
    pose proof (valid_position t rel entries f1 t1 Hwf Hd Hin1) as V1.
    pose proof (valid_position t rel entries f2 t2 Hwf Hd Hin2) as V2.
    rewrite !relpath_below in E;
      try assumption; try apply (os_stat_not_empty w input_folder t T).
    apply (rel_name_inj rel rel f1 f2 V1 V2 E).
  - apply List.NoDup_filter. apply NoDup_map_filter. apply wf_names_NoDup, Hentries.
Qed.

(** The loops write no name twice. *)
Lemma walk_names_NoDup :
  List.NoDup
    (map snd (flat_map (chosen w input_folder whitelist whitelist_files)
                (os_walk w input_folder))).
Proof.
  unfold os_walk. rewrite T, walk_node_dirs, flat_map_after_map, map_over_flat_map.
  apply (NoDup_flat_map_keyed fst).
  - apply NoDup_map_filter, dirs_of_NoDup, Hwf.
  - intros [rel entries] Hp. apply filter_In in Hp as [Hp _].
    apply chosen_names_NoDup.
    apply (dirs_of_sound t (rel, entries) Hp).
  - intros [rel1 entries1] [rel2 entries2] x H1 H2 Hx1 Hx2. simpl.
    apply filter_In in H1 as [H1 _]. apply filter_In in H2 as [H2 _].
    pose proof (dirs_of_sound t _ H1) as Hd1. pose proof (dirs_of_sound t _ H2) as Hd2.
    simpl in Hd1, Hd2.
    destruct (chosen_names rel1 entries1 x Hd1 Hx1) as (f1 & t1 & Hin1 & _ & E1).
    destruct (chosen_names rel2 entries2 x Hd2 Hx2) as (f2 & t2 & Hin2 & _ & E2).
    rewrite E1 in E2.
    apply (rel_name_inj rel1 rel2 f1 f2
             (valid_position t rel1 entries1 f1 t1 Hwf Hd1 Hin1)
             (valid_position t rel2 entries2 f2 t2 Hwf Hd2 Hin2) E2).
Qed.

End Names.

(** What is written for a file bears the name it was given. *)
Lemma written_names (w : world) (cs : list (string * string)) (es : list zip_entry) :
  Forall2 (written w) cs es ->
  (forall c, In c cs -> exists r data, os_stat w (fst c) = Some (File r data)) ->
  map arcname es = map snd cs.
Proof.
  induction 1 as [| c e cs es Hw _ IH]; intros Hfiles; [reflexivity |].
  simpl. f_equal.
  - destruct (Hfiles c (or_introl eq_refl)) as (r & data & S).
    unfold written in Hw. rewrite S in Hw.
    destruct r; simpl in Hw; [| discriminate]. injection Hw as <-. reflexivity.
  - apply IH. intros c' Hc'. apply Hfiles. right. exact Hc'.
Qed.

(** X24.  In a bundle that packaging has produced for a folder that is
    not itself called [pipes] or [systems], no two entries bear the
    same name (the entries of the folder having distinct, valid names,
    as in any file system). *)
Theorem bundle_names_unique (w : world) (input_folder : string) (whitelist : bool)
    (bundle : list zip_entry) :
  wf_tree w input_folder = true ->
  Path.basename input_folder <> "pipes" ->
  Path.basename input_folder <> "systems" ->
  packaged w input_folder whitelist bundle ->
  List.NoDup (map arcname bundle).
Proof.
  intros Hwf Hp Hs Hpk.
  destruct (packaged_bundle w input_folder whitelist bundle Hpk)
    as (whitelist_files & meta & es & _ & Hmeta & Hes & ->).
  destruct (metadata_in_bundle w input_folder whitelist whitelist_files meta Hmeta)
    as [_ Hnames].
  rewrite map_app. apply List.NoDup_app.
  - unfold metadata_entries in Hmeta.
    destruct (os_path_exists w (Path.join input_folder NODE_METADATA) && _).
    + destruct Hmeta as (e & _ & ->). repeat constructor. intros [].
    + subst meta. constructor.
  - destruct (os_stat w input_folder) as [t |] eqn:T.
    + pose proof Hwf as Hwft. unfold wf_tree in Hwft. rewrite T in Hwft.
      rewrite (written_names w _ es Hes).
      * apply (walk_names_NoDup w input_folder whitelist whitelist_files t T Hwft).
      * intros c Hc.
        apply (in_chosen w input_folder whitelist whitelist_files c Hwf) in Hc
          as (t' & rel & entries & file & target
              & T' & Hd & _ & Hin & Hnd & -> & _).
        rewrite T in T'. injection T' as <-. cbn [fst].
        rewrite (os_stat_entry w input_folder t rel entries file target T Hwft Hd Hin).
        destruct target as [r data | ?]; [| discriminate Hnd].
        exists r, data. reflexivity.
    + unfold os_walk in Hes. rewrite T in Hes. inversion Hes. constructor.
  - intros name Hm He.
    destruct (chosen_entry w input_folder whitelist whitelist_files es name Hwf Hes He)
      as (t & rel & entries & file & data & T & Hd & _ & Hin & E & Hdir & _).
    unfold wf_tree in Hwf. rewrite T in Hwf.
    pose proof (valid_position t rel entries file _ Hwf Hd Hin) as Hvalid.
    destruct (Hnames name Hm) as [-> | ->].
    + assert (Hroot : Forall (fun name => valid_name name = true)
                        ([] ++ [NODE_METADATA])) by (repeat constructor).
      destruct (rel_name_inj [] rel NODE_METADATA file Hroot Hvalid E) as [<- _].
      apply config_dir_iff in Hdir. simpl in Hdir. destruct Hdir; contradiction.
    + symmetry in E.
      apply (rel_name_not_dir_entry rel file NODE_METADATA Hvalid eq_refl E).
Qed.

Lemma bundle_names_unique_witness :
  List.NoDup
    (map arcname
       [ZipEntry "node-metadata.conf.json" "metadata";
        ZipEntry "pipes/a.conf.json" "pipe a";
        ZipEntry "systems/b.conf.json" "system b";
        ZipEntry "other/pipes/d.conf.json" "pipe d"]).
Proof.
  apply (bundle_names_unique Sample.plain "cfg" false).
  - reflexivity.
  - discriminate.
  - discriminate.
  - exact sample_cfg_packaged_all.
Defined.

(** ** Files that cannot be read *)

(** X25.  Packaging never leaves out a file it has selected because
    the file cannot be read: when a file lies directly in a [pipes] or
    [systems] directory that the walk reaches, has a name that ends in
    [conf.json], passes the whitelist and cannot be read by the
    process, [create_zipped_config] does not return the archive, so
    there is no bundle. *)
Theorem unreadable_file_fails_packaging (w : world) (input_folder : string)
    (whitelist : bool) (t : node) (rel : list string) (entries : list (string * node))
    (file data : string) :
  os_stat w input_folder = Some t ->
  wf_node t = true ->
  dir_at t rel entries ->
  walked w input_folder rel = true ->
  In (file, File false data) entries ->
  Path.basename (dir_path input_folder rel) = "pipes" \/
  Path.basename (dir_path input_folder rel) = "systems" ->
  Str.endswith file CONF_SUFFIX = true ->
  whitelist = false \/ rel_name rel file ∈ whitelist_set w input_folder ->
  forall bundle, ~ packaged w input_folder whitelist bundle.
Proof.
  intros T Hwf Hd Hreach Hin Hdir Hsuf Hwl bundle Hpk.
  destruct (packaged_bundle w input_folder whitelist bundle Hpk)
    as (whitelist_files & meta & es & HWL & _ & Hes & _).
  assert (Hwft : wf_tree w input_folder = true) by (unfold wf_tree; rewrite T; exact Hwf).
  assert (Hc : In (Path.join (dir_path input_folder rel) file, rel_name rel file)
                 (flat_map (chosen w input_folder whitelist whitelist_files)
                    (os_walk w input_folder))).
  { apply (in_chosen w input_folder whitelist whitelist_files _ Hwft).
    exists t, rel, entries, file, (File false data).
    repeat split; try assumption; try reflexivity.
    - apply config_dir_iff, Hdir.
    - apply passes_whitelist_iff. destruct Hwl as [-> | Hwl]; [left; reflexivity |].
      destruct whitelist; [| left; reflexivity].
      right. rewrite (HWL eq_refl). exact Hwl. }
  destruct (written_of_In_l w _ _ _ Hes Hc) as (e & _ & Hw).
  unfold written in Hw. cbn [fst snd] in Hw.
  rewrite (os_stat_entry w input_folder t rel entries file _ T Hwf Hd Hin) in Hw.
  discriminate Hw.
Qed.

Lemma unreadable_file_fails_packaging_witness :
  ~ packaged Sample.locked_dry "locked" false [ZipEntry "pipes/a.conf.json" "pipe a"].
Proof.
  apply (unreadable_file_fails_packaging Sample.locked_dry "locked" false
           Sample.locked_tree ["pipes"] [("a.conf.json", File false "pipe a")]
           "a.conf.json" "pipe a").
  - reflexivity.
  - reflexivity.
  - eapply dir_at_sub; [left; reflexivity | constructor].
  - reflexivity.
  - left. reflexivity.
  - left. reflexivity.
  - reflexivity.
  - left. reflexivity.
Defined.

(** ** Failures before the first step *)

(** X26.  When the constructor of the client raises, the run ends with
    status 1: after what the constructor has logged, [main] logs the
    exception as an error; no request is sent, not even the health
    check. *)
Theorem failed_constructor_ends_run (w : world) (e : exn) :
  outcome_of (preflight w) = Ok tt ->
  outcome_of (construct w) = Raise e ->
  main w = (Exit 1, trace (construct w) ++ [Log ERROR (AnErrorOccurred e)]) /\
  calls (trace (main w)) = [].
Proof.
  intros P C.
  assert (E : main w
              = (Exit 1, trace (construct w) ++ [Log ERROR (AnErrorOccurred e)])).
  { rewrite main_parts, (startup_after_preflight w P).
    rewrite (as_pair (construct w)), C. reflexivity. }
  split; [exact E |].
  rewrite E. unfold trace at 1. cbn [snd].
  rewrite calls_app, no_call_construct. reflexivity.
Qed.

Lemma failed_constructor_ends_run_witness :
  main Sample.empty_token =
  (Exit 1,
   trace (construct Sample.empty_token)
   ++ [Log ERROR
         (AnErrorOccurred
            (ValueError "not enough values to unpack (expected 3, got 1)"))]) /\
  calls (trace (main Sample.empty_token)) = [].
Proof.
  apply (failed_constructor_ends_run Sample.empty_token); reflexivity.
Defined.

(** X27.  When the health request itself fails, the run ends with
    status 1: it has sent the one request, and [main] logs the
    exception of the request as an error; no step is started. *)
Theorem failed_health_request_ends_run (w : world) (sesam_node : SesamNode) (e : exn) :
  outcome_of (preflight w) = Ok tt ->
  outcome_of (construct w) = Ok sesam_node ->
  api_get_health w = inl e ->
  main w =
  (Exit 1,
   trace (construct w)
   ++ [Log INFO (GetHealthFrom (node_url sesam_node)); Call GetHealth;
       Log ERROR (AnErrorOccurred e)]).
Proof.
  intros P C Hh.
  rewrite main_parts, (startup_after_preflight w P).
  rewrite (as_pair (construct w)), C.
  unfold report_failure, try_except. simpl.
  rewrite health_check_eq, Hh. simpl. rewrite <- app_assoc. reflexivity.
Qed.

Lemma failed_health_request_ends_run_witness :
  main Edge.unreachable =
  (Exit 1,
   trace (construct Edge.unreachable)
   ++ [Log INFO (GetHealthFrom (node_url Sample.client)); Call GetHealth;
       Log ERROR (AnErrorOccurred (ApiError "503 Service Unavailable"))]).
Proof.
  apply (failed_health_request_ends_run Edge.unreachable Sample.client); reflexivity.
Defined.

(** ** The config step after packaging failed *)

(** X28.  After [create_zipped_config] has returned [None],
    [deploy_config] goes on as if it had an archive: in a dry run it
    logs that the dry run is on and returns like a step that went well;
    with the dry run off it passes [None] to [open] and raises
    [TypeError].  In neither case does it send a request. *)
Theorem config_step_ignores_failed_packaging (w : world) (sesam_node : SesamNode)
    (source : option string) (folder : string)
    (dry_run use_whitelist force_config : bool) :
  present source = Some folder ->
  outcome_of (create_zipped_config w folder "config.zip" use_whitelist) = Ok None ->
  deploy_config w sesam_node source dry_run use_whitelist force_config =
  (if dry_run then Ok tt else Raise TypeError,
   [Log INFO (DeployingConfig folder); Log INFO (DryRunIs dry_run);
    Log INFO (UseWhitelistIs use_whitelist); Log INFO (ForceConfigIs force_config)]
   ++ trace (create_zipped_config w folder "config.zip" use_whitelist)
   ++ (if dry_run then [Log INFO DryRunNoConfig] else [])).
Proof.
  intros Hp Hz. unfold deploy_config. rewrite Hp.
  rewrite (as_pair (create_zipped_config w folder "config.zip" use_whitelist)), Hz.
  destruct dry_run; simpl; rewrite ?app_nil_r; reflexivity.
Qed.

Lemma config_step_ignores_failed_packaging_witness :
  deploy_config Sample.locked_dry Sample.client (Some "locked") true false false =
  (Ok tt,
   [Log INFO (DeployingConfig "locked"); Log INFO (DryRunIs true);
    Log INFO (UseWhitelistIs false); Log INFO (ForceConfigIs false)]
   ++ trace (create_zipped_config Sample.locked_dry "locked" "config.zip" false)
   ++ [Log INFO DryRunNoConfig]).
Proof.
  apply (config_step_ignores_failed_packaging Sample.locked_dry Sample.client
           (Some "locked") "locked" true false false);
    reflexivity.
Defined.

(** ** Every request is announced *)

Section Announced.

Context (url : string).

Lemma announced_app (t1 t2 : list event) :
  announced url t1 -> announced url t2 -> announced url (t1 ++ t2).
Proof.
  induction 1 as [| lvl msg t _ IH | msg r t Hr _ IH]; intros H2; simpl.
  - exact H2.
  - constructor. apply IH, H2.
  - constructor; [exact Hr | apply IH, H2].
Qed.

Lemma announced_quiet {A : Type} (m : M A) :
  emits no_call m -> announced url (trace m).
Proof.
  unfold emits. induction 1 as [| ev t Hev _ IH]; [constructor |].
  destruct ev as [lvl msg | r]; [constructor; exact IH | destruct Hev].
Qed.

Lemma announced_bind_ok {A B : Type} (m : M A) (f : A -> M B) :
  announced url (trace m) ->
  (forall a, outcome_of m = Ok a -> announced url (trace (f a))) ->
  announced url (trace (bind m f)).
Proof.
  intros Hm Hf. rewrite trace_bind. apply announced_app; [exact Hm |].
  destruct (outcome_of m) as [a | e | c]; [apply Hf; reflexivity | |]; constructor.
Qed.

Lemma announced_bind {A B : Type} (m : M A) (f : A -> M B) :
  announced url (trace m) ->
  (forall a, announced url (trace (f a))) ->
  announced url (trace (bind m f)).
Proof. intros Hm Hf. apply announced_bind_ok; [exact Hm | intros a _; apply Hf]. Qed.

Lemma announced_log_then {A : Type} (lvl : level) (msg : message) (k : M A) :
  announced url (trace k) -> announced url (trace (emit (Log lvl msg) ;; k)).
Proof. intros H. rewrite trace_emit_then. constructor. exact H. Qed.

End Announced.

(** Each method of the client names the address it was constructed
    with. *)
Section Methods.

Context (w : world) (self : SesamNode).

Lemma announced_get_health : announced (node_url self) (trace (get_health w self)).
Proof.
  unfold get_health. destruct (api_get_health w);
    apply announced_call; [reflexivity | constructor | reflexivity | constructor].
Qed.

Lemma announced_put_env env_vars :
  announced (node_url self) (trace (put_env w self env_vars)).
Proof.
  unfold put_env. destruct (api_put_env_vars w env_vars);
    apply announced_call; [reflexivity | constructor | reflexivity | constructor].
Qed.

Lemma announced_post_secrets secrets :
  announced (node_url self) (trace (post_secrets w self secrets)).
Proof.
  unfold post_secrets. destruct (api_post_secrets w secrets);
    apply announced_call; [reflexivity | constructor | reflexivity | constructor].
Qed.

Lemma announced_put_secrets secrets :
  announced (node_url self) (trace (put_secrets w self secrets)).
Proof.
  unfold put_secrets. destruct (api_put_secrets w secrets);
    apply announced_call; [reflexivity | constructor | reflexivity | constructor].
Qed.

Lemma announced_put_config config force :
  announced (node_url self) (trace (put_config w self config force)).
Proof.
  unfold put_config. destruct (api_upload_config w config force);
    apply announced_call; [reflexivity | constructor | reflexivity | constructor].
Qed.

End Methods.

(** The client keeps the address it was constructed with. *)
Lemma SesamNode_init_url (w : world) (url : string) (token : option string) :
  returns_in (fun self => node_url self = url) (SesamNode_init w url token).
Proof.
  unfold SesamNode_init.
  destruct token as [jwt |]; [| apply returns_raise].
  destruct (Str.split "."%char jwt) as [| ? [| payload [| ? [| ? ?]]]];
    try apply returns_raise.
  do 7 (apply returns_bind; intros ?).
  apply returns_ret. reflexivity.
Qed.

Lemma startup_url (w : world) (sesam_node : SesamNode) :
  outcome_of (startup w) = Ok sesam_node ->
  node_url sesam_node = sesam_node_url_of w.
Proof.
  unfold startup. rewrite !outcome_bind.
  destruct (outcome_of (preflight w)); try discriminate.
  destruct (outcome_of (construct w)) as [n | e | c] eqn:C; try discriminate.
  rewrite outcome_bind.
  destruct (outcome_of (health_check w n)); try discriminate.
  intros H. injection H as <-.
  apply (SesamNode_init_url w _ _ n C).
Qed.

Lemma announced_startup (w : world) :
  announced (sesam_node_url_of w) (trace (startup w)).
Proof.
  unfold startup.
  apply announced_bind;
    [apply announced_quiet, emits_preflight, no_call_logs | intros _].
  apply announced_bind_ok;
    [apply announced_quiet, emits_construct, no_call_logs | intros sesam_node C].
  rewrite <- (SesamNode_init_url w _ _ sesam_node C).
  apply announced_bind; [| intros _; constructor].
  unfold health_check.
  apply announced_bind; [apply announced_get_health | intros node_health].
  apply announced_quiet. unfold dict_get. emits_tac; exact I.
Qed.

Lemma announced_deployment (w : world) (sesam_node : SesamNode) :
  announced (node_url sesam_node) (trace (deployment w sesam_node)).
Proof.
  unfold deployment, secrets_step, variables_step, config_step.
  apply announced_bind; [| intros _; apply announced_bind; [| intros _]].
  - unfold deploy_secrets, logger_info.
    destruct (present (secrets_file_of w)); [| constructor].
    do 3 apply announced_log_then.
    apply announced_bind;
      [apply announced_quiet, emits_read_json_file | intros j].
    destruct (dry_run_of w); [repeat constructor |].
    apply announced_bind; [| intros response; repeat constructor].
    destruct (replace_secrets_of w);
      [apply announced_put_secrets | apply announced_post_secrets].
  - unfold deploy_variables, logger_info.
    destruct (present (variables_file_of w)); [| constructor].
    do 2 apply announced_log_then.
    apply announced_bind;
      [apply announced_quiet, emits_read_json_file | intros j].
    destruct (dry_run_of w); [repeat constructor |].
    apply announced_bind; [apply announced_put_env | intros response].
    repeat constructor.
  - unfold deploy_config, logger_info.
    destruct (present (config_folder_of w)); [| constructor].
    do 4 apply announced_log_then.
    apply announced_bind;
      [apply announced_quiet, emits_create_zipped_config, no_call_logs
      | intros zip_path].
    destruct (dry_run_of w); [repeat constructor |].
    apply announced_bind; [destruct zip_path as [[? ?] |]; constructor | intros z].
    apply announced_bind; [apply announced_put_config | intros response].
    repeat constructor.
Qed.

Lemma announced_main (w : world) : announced (sesam_node_url_of w) (trace (main w)).
Proof.
  rewrite trace_main. apply announced_app; [apply announced_startup |].
  destruct (outcome_of (startup w)) as [sesam_node | e | c] eqn:S;
    [| repeat constructor | constructor].
  rewrite trace_report_failure, <- (startup_url w sesam_node S).
  apply announced_app; [apply announced_deployment |].
  destruct (outcome_of (deployment w sesam_node)); repeat constructor.
Qed.

(** X29.  No request goes out unannounced: in the log of every run,
    each request to the node comes right after the record in which the
    client says which request it sends ([GET health from], [PUT env
    vars to], [POST secrets to], [PUT secrets to], [PUT config to])
    and where to, and the address in that record is the one [main]
    has built from [INPUT_NODE]. *)
Theorem every_request_is_announced (w : world) (before after : list event)
    (r : request) :
  trace (main w) = before ++ Call r :: after ->
  exists earlier msg,
    before = earlier ++ [Log INFO msg] /\
    announces (sesam_node_url_of w) msg r.
Proof.
  pose proof (announced_main w) as H.
  revert before. induction H as [| lvl msg t _ IH | msg r' t Hr _ IH]; intros before E.
  - destruct before; discriminate E.
  - destruct before as [| ev before]; [discriminate E |].
    simpl in E. injection E as <- E.
    destruct (IH before E) as (earlier & msg' & -> & Hm).
    exists (Log lvl msg :: earlier), msg'. split; [reflexivity | exact Hm].
  - destruct before as [| ev [| ev' before]]; simpl in E.
    + discriminate E.
    + injection E as <- E _. subst r'.
      exists [], msg. split; [reflexivity | exact Hr].
    + injection E as <- <- E.
      destruct (IH before E) as (earlier & msg' & -> & Hm).
      exists (Log INFO msg :: Call r' :: earlier), msg'.
      split; [reflexivity | exact Hm].
Qed.

Lemma every_request_is_announced_witness :
  exists earlier msg,
    trace (construct Sample.plain)
    ++ [Log INFO (GetHealthFrom (node_url Sample.client))]
    = earlier ++ [Log INFO msg] /\
    announces (sesam_node_url_of Sample.plain) msg GetHealth.
Proof.
  apply (every_request_is_announced Sample.plain _
           (skipn (S (List.length (trace (construct Sample.plain)) + 1))
              (trace (main Sample.plain)))).
  vm_compute. reflexivity.
Defined.
